(** * Verification of the WTVB01-485 vibration monitor (ezraeffect/project)

    Shallow embedding of the Python modules [sensor_communication.py]
    (Modbus RTU CRC and register reads), [data_collector.py] (ring buffer
    and polling loop) and [anomaly_detection.py] (baseline features and the
    anomaly state machine).  Python floats are modelled as rationals [Q];
    bytes as [Z] values in [0, 256); dicts keyed by strings as [gmap]. *)

From Stdlib Require Import ZArith QArith Qminmax Qabs Lqa List Lia Bool.
From stdpp Require Import base gmap strings.
Import ListNotations.
Open Scope Z_scope.

(* ===================================================================== *)
(** * sensor_communication.py : CRCCalculator and ModbusRTU.read_registers *)
(* ===================================================================== *)

Module Crc.

(** A Python [bytes] value: a list of integers, each in [0, 256). *)
Definition is_byte (b : Z) : Prop := 0 <= b < 256.
Definition bytes_ok (l : list Z) : Prop := Forall is_byte l.

(** One iteration of the inner [for _ in range(8)] loop:
    [if crc & 0x0001: crc = (crc >> 1) ^ 0xA001 else: crc >>= 1]. *)
Definition crc_shift (crc : Z) : Z :=
  if Z.eqb (Z.land crc 1) 0 then Z.shiftr crc 1
  else Z.lxor (Z.shiftr crc 1) 40961 (* 0xA001 *).

(** The eight shifts performed for every byte. *)
Definition crc_shift8 (crc : Z) : Z :=
  Nat.iter 8 crc_shift crc.

(** Body of [for byte in data]: [crc ^= byte] then eight shifts. *)
Definition crc_byte (crc : Z) (byte : Z) : Z :=
  crc_shift8 (Z.lxor crc byte).

Definition crc_loop (crc : Z) (data : list Z) : Z :=
  fold_left crc_byte data crc.

(** [CRCCalculator.calculate_crc]: little-endian [CRC_LOW, CRC_HIGH]. *)
Definition calculate_crc (data : list Z) : list Z :=
  let crc := crc_loop 65535 (* 0xFFFF *) data in
  [Z.land crc 255; Z.land (Z.shiftr crc 8) 255].

Definition bytes_eqb (a b : list Z) : bool :=
  bool_decide (a = b).

(** [CRCCalculator.verify_crc]: [data[:-2]] is the message,
    [data[-2:]] the received CRC. *)
Definition verify_crc (data : list Z) : bool :=
  if Nat.ltb (length data) 3 then false
  else
    let message := firstn (length data - 2) data in
    let received_crc := skipn (length data - 2) data in
    bytes_eqb received_crc (calculate_crc message).

(** Flip bit [j] of the byte at index [i] ([data[i] ^= 1 << j]). *)
Definition flip_bit (data : list Z) (i : nat) (j : Z) : list Z :=
  firstn i data ++
  match skipn i data with
  | [] => []
  | b :: rest => Z.lxor b (Z.shiftl 1 j) :: rest
  end.

(** [ModbusRTU.read_registers], from the moment the command has been sent.
    [response] is what [serial.read(expected_response_length)] returned:
    at most [expected_response_length] bytes (fewer on a timeout).
    [None] is the Python [None] return (with [last_error] set). *)
Definition expected_response_length (count : Z) : Z := 3 + count * 2 + 2.

Definition read_registers_response (count : Z) (response : list Z)
  : option (list Z) :=
  match response with
  | [] => None                                (* if not response *)
  | _ =>
      if negb (verify_crc response) then None (* CRC verification failed *)
      else Some (firstn (length response - 2 - 3) (skipn 3 response))
                                              (* data = response[3:-2] *)
  end.

End Crc.

(* ===================================================================== *)
(** * data_collector.py : DataBuffer *)
(* ===================================================================== *)

Module Buffer.

(** [SensorData]: every float field as a rational. *)
Record SensorData := mkSensorData {
  ax : Q; ay : Q; az : Q;
  vx : Q; vy : Q; vz : Q;
  dx : Q; dy : Q; dz : Q;
  hx : Q; hy : Q; hz : Q;
  temp : Q;
  timestamp : Q
}.

(** [DataBuffer]: [self.buffer = deque(maxlen=max_size)]; the lock only
    serialises the methods, each of which is modelled as one atomic step. *)
Record DataBuffer (A : Type) := mkDataBuffer {
  max_size : nat;
  buffer : list A
}.
Arguments mkDataBuffer {A}.
Arguments max_size {A}.
Arguments buffer {A}.

Definition new_buffer {A} (max_size : nat) : DataBuffer A :=
  mkDataBuffer max_size [].

(** [deque.append] on a bounded deque: append on the right, then drop the
    leftmost element when the length exceeds [maxlen]. *)
Definition add {A} (b : DataBuffer A) (data : A) : DataBuffer A :=
  let l := buffer b ++ [data] in
  mkDataBuffer (max_size b)
    (if Nat.ltb (max_size b) (length l) then tl l else l).

Definition clear {A} (b : DataBuffer A) : DataBuffer A :=
  mkDataBuffer (max_size b) [].

Definition size {A} (b : DataBuffer A) : nat := length (buffer b).

Definition get_all {A} (b : DataBuffer A) : list A := buffer b.

(** Python's [l[s:]] for an integer [s]: a negative start counts from the
    end, and the start is clamped to [0, len(l)]. *)
Definition py_slice_from {A} (l : list A) (s : Z) : list A :=
  let len := Z.of_nat (length l) in
  let s' := if Z.ltb s 0 then Z.max 0 (s + len) else Z.min s len in
  skipn (Z.to_nat s') l.

(** [get_last_n]: [list(self.buffer)[-n:]]. *)
Definition get_last_n {A} (b : DataBuffer A) (n : Z) : list A :=
  py_slice_from (buffer b) (- n).

(** A sequence of calls on one buffer. *)
Inductive BufferOp (A : Type) :=
| OpAdd (x : A)
| OpClear.
Arguments OpAdd {A}.
Arguments OpClear {A}.

Definition run_op {A} (b : DataBuffer A) (op : BufferOp A) : DataBuffer A :=
  match op with
  | OpAdd x => add b x
  | OpClear => clear b
  end.

Definition run_ops {A} (b : DataBuffer A) (ops : list (BufferOp A)) : DataBuffer A :=
  fold_left run_op ops b.

(** [for x in xs: buffer.add(x)]. *)
Definition add_all {A} (b : DataBuffer A) (xs : list A) : DataBuffer A :=
  fold_left add xs b.

End Buffer.

(* ===================================================================== *)
(** * data_collector.py : DataCollector._collect_data_loop *)
(* ===================================================================== *)

Module Collector.
Import Buffer.

(** What one pass of the [while not self.stop_event.is_set()] body sees:
    the sensor reports disconnected, [read_all_data()] returns a sample,
    returns [None], or raises.  The loop also ends when [stop_event] is set;
    that is the end of the list of cycles.  The callbacks are set and
    return normally. *)
Inductive Cycle :=
| Disconnected
| ReadOk (data : SensorData)
| ReadNone
| ReadRaises.

(** Callback invocations, in order. *)
Inductive Callback :=
| CbDataReceived (data : SensorData)
| CbError
| CbConnectionLost.

Record LoopState := mkLoopState {
  consecutive_errors : nat;
  total_readings : nat;
  failed_readings : nat;
  collected : list SensorData;  (* samples added to [self.buffer] *)
  callbacks : list Callback;
  exited : bool                 (* the [break] was taken *)
}.

Definition max_consecutive_errors : nat := 5.

Definition init_loop : LoopState := mkLoopState 0 0 0 [] [] false.

(** One pass of the loop body. *)
Definition cycle (st : LoopState) (c : Cycle) : LoopState :=
  match c with
  | Disconnected =>
      let ce := S (consecutive_errors st) in
      if Nat.leb max_consecutive_errors ce then
        (* on_connection_lost(); break *)
        mkLoopState ce (total_readings st) (failed_readings st) (collected st)
          (callbacks st ++ [CbConnectionLost]) true
      else
        (* time.sleep(...); continue *)
        mkLoopState ce (total_readings st) (failed_readings st) (collected st)
          (callbacks st) false
  | ReadOk d =>
      mkLoopState 0 (S (total_readings st)) (failed_readings st)
        (collected st ++ [d]) (callbacks st ++ [CbDataReceived d]) false
  | ReadNone =>
      mkLoopState (S (consecutive_errors st)) (total_readings st)
        (S (failed_readings st)) (collected st) (callbacks st ++ [CbError]) false
  | ReadRaises =>
      (* except Exception: consecutive_errors += 1; on_error(...) *)
      mkLoopState (S (consecutive_errors st)) (total_readings st)
        (failed_readings st) (collected st) (callbacks st ++ [CbError]) false
  end.

(** The loop: it stops after a [break] or when the cycles run out
    ([stop_event] set). *)
Fixpoint run_loop (st : LoopState) (cs : list Cycle) : LoopState :=
  match cs with
  | [] => st
  | c :: cs' => if exited st then st else run_loop (cycle st c) cs'
  end.

Definition is_connection_lost (cb : Callback) : bool :=
  match cb with CbConnectionLost => true | _ => false end.

Definition connection_lost_calls (st : LoopState) : nat :=
  length (filter is_connection_lost (callbacks st)).

End Collector.

(* ===================================================================== *)
(** * anomaly_detection.py : BaselineCalculator *)
(* ===================================================================== *)

Module Baseline.
Import Buffer.
Local Open Scope Q_scope.
Local Open Scope string_scope.

(** Python's true division: [None] is the [ZeroDivisionError]. *)
Definition py_div (a b : Q) : option Q :=
  if Qeq_bool b 0 then None else Some (a / b).

(** Python's [a < b] on floats. *)
Definition qlt (a b : Q) : bool := negb (Qle_bool b a).

Definition qsum (l : list Q) : Q := fold_right Qplus 0%Q l.
Definition qlen {A} (l : list A) : Q := inject_Z (Z.of_nat (length l)).

(** [np.max] / [np.min] of a non-empty list. *)
Definition qmax_list (x : Q) (l : list Q) : Q := fold_left Qmax l x.
Definition qmin_list (x : Q) (l : list Q) : Q := fold_left Qmin l x.

(** [np.mean] and [np.var] (population variance). *)
Definition np_mean (values : list Q) : option Q :=
  py_div (qsum values) (qlen values).

Definition np_var (values : list Q) : option Q :=
  mean ← np_mean values;
  py_div (qsum (map (fun x => (x - mean) * (x - mean)) values)) (qlen values).

(** A feature record is a Python dict from key to float. *)
Abbreviation Features := (gmap string Q).

Section Features.

(** [np.sqrt] and the power spectrum [|np.fft.rfft(x)[k]|^2] of a
    (mean-removed) signal; the claims below hold for any choice of them. *)
Variable sqrt : Q -> Q.
Variable rfft_power : list Q -> nat -> Q.

(** [BaselineCalculator.calculate_time_domain_features]. *)
Definition calculate_time_domain_features (values : list Q) : option Features :=
  match values with
  | [] =>
      Some (list_to_map [("rms", 0%Q); ("peak", 0%Q); ("mean", 0%Q); ("std", 0%Q);
                         ("min", 0%Q); ("max", 0%Q); ("crest_factor", 0%Q)])
  | v0 :: vs =>
      mean_sq ← py_div (qsum (map (fun x => x * x)%Q values)) (qlen values);
      let rms := sqrt mean_sq in
      let peak := qmax_list (Qabs v0) (map Qabs vs) in
      mean ← np_mean values;
      variance ← np_var values;
      let std := sqrt variance in
      let min_val := qmin_list v0 vs in
      let max_val := qmax_list v0 vs in
      crest_factor ← (if qlt 0 rms then py_div peak rms else Some 0%Q);
      kurtosis ← (if qlt 0 variance then
                    m4 ← py_div (qsum (map (fun x => let d := (x - mean)%Q in
                                                     d * d * d * d)%Q values))
                                (qlen values);
                    py_div m4 (variance * variance)
                  else Some 0%Q);
      Some (list_to_map [("rms", rms); ("peak", peak); ("mean", mean); ("std", std);
                         ("min", min_val); ("max", max_val);
                         ("crest_factor", crest_factor); ("kurtosis", kurtosis)])
  end.

(** [BaselineCalculator._compute_sample_rate] over the timestamps. *)
Definition compute_sample_rate (ts : list Q) : option Q :=
  match ts with
  | t0 :: _ :: _ =>
      let t1 := List.last ts t0 in
      if Qle_bool t1 t0 then Some 0%Q
      else py_div (inject_Z (Z.of_nat (length ts - 1)%nat)) (t1 - t0)
  | _ => Some 0%Q
  end.

(** [BaselineCalculator._high_freq_energy] with [fmax = None]:
    [freqs = np.fft.rfftfreq(n, d=1.0/sample_rate)] is [k / (n*d)] for
    [k = 0 .. n//2]. *)
Definition high_freq_energy (values : list Q) (sample_rate fmin : Q) : option Q :=
  if (match values with [] => true | _ => false end)
     || Qle_bool sample_rate 0 || qlt sample_rate (2 * fmin)
  then Some 0%Q
  else
    let n := length values in
    if Nat.ltb n 4 then Some 0%Q
    else
      mean ← np_mean values;
      let centered := map (fun x => x - mean)%Q values in
      d ← py_div 1 sample_rate;
      freqs ← mapM (fun k => py_div (inject_Z (Z.of_nat k)) (qlen values * d))
                   (seq 0 (n / 2 + 1)%nat);
      let mask := map (fun f => Qle_bool fmin f) freqs in
      if negb (existsb id mask) then Some 0%Q
      else
        let selected := map snd (List.filter fst (combine mask (seq 0 (n / 2 + 1)%nat))) in
        py_div (qsum (map (rfft_power centered) selected)) (qlen values).

End Features.

(** The ten axes of [axes_data], in dict order, with their extractors. *)
Definition axes : list (string * (SensorData -> Q)) :=
  [("vx", vx); ("vy", vy); ("vz", vz); ("dx", dx); ("dy", dy); ("dz", dz);
   ("ax", ax); ("ay", ay); ("az", az); ("temp", temp)].

Definition accel_axes : list string := ["ax"; "ay"; "az"].
Definition critical_axes : list string := ["vy"; "vz"].

Inductive BaselineError :=
| InsufficientData
| NoVibrationSignal
| TooManyFlatAxes
| FeatureError.  (* an exception raised inside the feature loop *)

Record BaselineCalculator := mkBaselineCalculator {
  baseline : gmap string Features;
  last_error : option BaselineError
}.

(** [self.baseline] as built by [__init__]: every axis maps to [{}]. *)
Definition init_calculator : BaselineCalculator :=
  mkBaselineCalculator (list_to_map (map (fun a => (fst a, ∅)) axes)) None.

(** [features.get('std', 0) == 0]. *)
Definition std_is_zero (f : Features) : bool :=
  Qeq_bool (default 0%Q (f !! "std")) 0.

Section Calculate.
Variable sqrt : Q -> Q.
Variable rfft_power : list Q -> nat -> Q.

(** Features of one axis, with [hf_energy] added on the acceleration axes. *)
Definition axis_features (sample_rate : Q) (axis : string) (values : list Q)
  : option Features :=
  features ← calculate_time_domain_features sqrt values;
  if bool_decide (axis ∈ accel_axes) then
    hf ← high_freq_energy rfft_power values sample_rate 2000;
    Some (<["hf_energy" := hf]> features)
  else Some features.

(** The [for axis, values in axes_data.items()] loop: stores every axis's
    features in [self.baseline] and counts the zero-std axes.  [None] when a
    feature computation raised, with the baseline as far as it got. *)
Fixpoint feature_loop (sample_rate : Q) (data_list : list SensorData)
    (todo : list (string * (SensorData -> Q)))
    (bl : gmap string Features) (zero_std_axes critical_zero_count : nat)
  : gmap string Features * option (nat * nat) :=
  match todo with
  | [] => (bl, Some (zero_std_axes, critical_zero_count))
  | (axis, get) :: rest =>
      match axis_features sample_rate axis (map get data_list) with
      | None => (bl, None)
      | Some features =>
          let bl' := <[axis := features]> bl in
          if std_is_zero features then
            feature_loop sample_rate data_list rest bl' (S zero_std_axes)
              (if bool_decide (axis ∈ critical_axes) then S critical_zero_count
               else critical_zero_count)
          else feature_loop sample_rate data_list rest bl' zero_std_axes
                 critical_zero_count
      end
  end.

(** [BaselineCalculator.calculate_baseline data_buffer min_samples
    max_zero_std_axes] on [data_list = data_buffer.get_all()]: the returned
    [bool] (with the error kind written to [last_error]) and the new object
    state. *)
Definition calculate_baseline (calc : BaselineCalculator)
    (data_list : list SensorData) (min_samples max_zero_std_axes : Z)
  : bool * BaselineCalculator :=
  if Z.ltb (Z.of_nat (length data_list)) min_samples then
    (false, mkBaselineCalculator (baseline calc) (Some InsufficientData))
  else
    match compute_sample_rate (map timestamp data_list) with
    | None => (false, mkBaselineCalculator (baseline calc) (Some FeatureError))
    | Some sample_rate =>
        match feature_loop sample_rate data_list axes (baseline calc) 0 0 with
        | (bl, None) => (false, mkBaselineCalculator bl (Some FeatureError))
        | (bl, Some (zero_std_axes, critical_zero_count)) =>
            if Nat.leb 2 critical_zero_count then
              (false, mkBaselineCalculator bl (Some NoVibrationSignal))
            else if Z.ltb max_zero_std_axes (Z.of_nat zero_std_axes) then
              (false, mkBaselineCalculator bl (Some TooManyFlatAxes))
            else (true, mkBaselineCalculator bl (last_error calc))
        end
    end.

(** The sample rate [calculate_baseline] estimates from the timestamps. *)
Definition window_sample_rate (data_list : list SensorData) : Q :=
  default 0 (compute_sample_rate (map timestamp data_list)).

(** One store of the feature loop: [self.baseline[axis] = features]. *)
Definition store_axis (sample_rate : Q) (data_list : list SensorData)
    (bl : gmap string Features) (a : string * (SensorData -> Q))
  : gmap string Features :=
  match axis_features sample_rate (fst a) (map (snd a) data_list) with
  | Some features => <[fst a := features]> bl
  | None => bl
  end.

(** [self.baseline] once the feature loop has stored every axis. *)
Definition window_baseline (calc : BaselineCalculator)
    (data_list : list SensorData) : gmap string Features :=
  fold_left (store_axis (window_sample_rate data_list) data_list) axes
    (baseline calc).

(** [std == 0] for the features of one value list. *)
Definition values_std_zero (values : list Q) : bool :=
  match calculate_time_domain_features sqrt values with
  | Some f => std_is_zero f
  | None => false
  end.

(** The number of zero-variance axes, and of zero-variance critical axes. *)
Definition zero_std_count (data_list : list SensorData)
    (todo : list (string * (SensorData -> Q))) : nat :=
  length (List.filter (fun a => values_std_zero (map (snd a) data_list)) todo).

Definition critical_zero_std_count (data_list : list SensorData)
    (todo : list (string * (SensorData -> Q))) : nat :=
  length (List.filter (fun a => bool_decide (fst a ∈ critical_axes) &&
                                values_std_zero (map (snd a) data_list)) todo).

End Calculate.

(** An executable square root for evaluation on concrete inputs:
    [sqrt(p/q) = sqrt(p*q)/q], rounded down on the grid [1/q]; it is exact
    on squares and is zero exactly at zero on non-negative inputs. *)
Definition qsqrt (x : Q) : Q := Z.sqrt (Qnum x * Zpos (Qden x)) # Qden x.

(** A power spectrum for evaluation on concrete inputs. *)
Definition zero_power (centered : list Q) (k : nat) : Q := 0%Q.

(** A window of [n] samples, all readings zero, taken once per second. *)
Definition flat_window (n : nat) : list SensorData :=
  map (fun i => mkSensorData 0 0 0 0 0 0 0 0 0 0 0 0 0 (inject_Z (Z.of_nat i))) (seq 0 n).

End Baseline.

(* ===================================================================== *)
(** * [anomaly_detection.py]: [AnomalyDetector.detect_anomaly]           *)
(* ===================================================================== *)

Module Detector.
Import Buffer Baseline.
Local Open Scope Q_scope.
Local Open Scope string_scope.

(** The values of [tracker['last_state']] and of a result's ['status']. *)
Inductive Status := Normal | Warning | Anomaly.

Definition status_eqb (a b : Status) : bool :=
  match a, b with
  | Normal, Normal | Warning, Warning | Anomaly, Anomaly => true
  | _, _ => false
  end.

(** A per-axis entry of [self.state_tracker]. *)
Record Tracker := mkTracker {
  warning_streak : Z;
  critical_streak : Z;
  last_state : Status
}.

(** The dict given to [self.state_tracker.setdefault(axis_name, ...)]. *)
Definition default_tracker : Tracker := mkTracker 0 0 Normal.

(** A per-axis entry of [self.thresholds]: ['warning'], ['critical'] and
    ['method'] are always present; the optional keys are [None] when absent. *)
Record ThresholdSet := mkThresholdSet {
  th_warning : Q;
  th_critical : Q;
  th_method : string;
  th_critical_peak : option Q;
  th_warning_peak : option Q;
  th_critical_crest : option Q;
  th_warning_crest : option Q;
  th_kurtosis_warning : option Q;
  th_kurtosis_critical : option Q;
  th_hf_warning : option Q;
  th_hf_critical : option Q
}.

(** The detector's configuration, as [__init__] stores it. *)
Record DetectorConfig := mkDetectorConfig {
  window_seconds : Q;
  min_consecutive : Z;
  hysteresis_ratio : Q
}.

Definition make_config (ws : Q) (mc : Z) (hr : Q) : DetectorConfig :=
  mkDetectorConfig ws (Z.max 1 mc) (Qmax 0 (Qmin hr 1)).

(** The local variables [status_raw], [metric_value], [warning_thr] and
    [critical_thr] of one axis's evaluation. *)
Record RawEval := mkRawEval {
  status_raw : Status;
  metric_value : Q;
  warning_thr : Q;
  critical_thr : Q
}.

(** [x > threshold.get(key, float('inf'))]. *)
Definition gt_or_inf (x : Q) (t : option Q) : bool :=
  match t with Some t => qlt t x | None => false end.

(** [threshold.get(key, 0)] and the truthiness of a float. *)
Definition get0 (t : option Q) : Q := match t with Some t => t | None => 0 end.
Definition truthy (q : Q) : bool := negb (Qeq_bool q 0).

(** [a or b] on floats. *)
Definition q_or (a b : Q) : Q := if truthy a then a else b.

(** [AnomalyDetector._kurtosis]. *)
Definition kurtosis (values : list Q) : option Q :=
  match values with
  | [] => Some 0
  | _ =>
      mean ← np_mean values;
      variance ← np_var values;
      if Qeq_bool variance 0 then Some 0
      else
        m4 ← np_mean (map (fun x => let d := (x - mean) in d * d * d * d) values);
        py_div m4 (variance * variance)
  end.

(** The peak and crest-factor evaluations: the critical key moves the
    status to anomaly, the warning key to warning unless already anomaly. *)
Definition extreme_step (crit warn : option Q) (x : Q) (r : RawEval) : RawEval :=
  if gt_or_inf x crit then mkRawEval Anomaly x (warning_thr r) (critical_thr r)
  else if gt_or_inf x warn && negb (status_eqb (status_raw r) Anomaly)
  then mkRawEval Warning x (warning_thr r) (critical_thr r)
  else r.

(** The kurtosis and high-frequency energy evaluations, which also replace
    the thresholds used by the hysteresis. *)
Definition feature_step (fw fc x : Q) (r : RawEval) : RawEval :=
  if truthy fc && qlt fc x then mkRawEval Anomaly x (q_or fw (warning_thr r)) fc
  else if truthy fw && qlt fw x && negb (status_eqb (status_raw r) Anomaly)
  then mkRawEval Warning x fw (q_or fc (critical_thr r))
  else r.

Section Detect.

Variable sqrt : Q -> Q.
Variable rfft_power : list Q -> nat -> Q.

(** The RMS/peak/crest branch ([method == 'rms_factor'], [use_rms] and a
    non-empty window). *)
Definition raw_eval_ac (th : ThresholdSet) (window_vals : list Q) (sample_rate : Q)
    : option RawEval :=
  match window_vals with
  | [] => None
  | v0 :: vs =>
      ms ← py_div (qsum (map (fun x => x * x) window_vals)) (qlen window_vals);
      let rms := sqrt ms in
      let peak := qmax_list (Qabs v0) (map Qabs vs) in
      crest ← (if qlt 0 rms then py_div peak rms else Some 0);
      let r1 := mkRawEval
                  (if qlt (th_critical th) rms then Anomaly
                   else if qlt (th_warning th) rms then Warning else Normal)
                  rms (th_warning th) (th_critical th) in
      let r2 := extreme_step (th_critical_peak th) (th_warning_peak th) peak r1 in
      let r3 := extreme_step (th_critical_crest th) (th_warning_crest th) crest r2 in
      let kw := get0 (th_kurtosis_warning th) in
      let kc := get0 (th_kurtosis_critical th) in
      r4 ← (if truthy kw || truthy kc then
              kv ← kurtosis window_vals; Some (feature_step kw kc kv r3)
            else Some r3);
      let hw := get0 (th_hf_warning th) in
      let hc := get0 (th_hf_critical th) in
      if (truthy hw || truthy hc) && qlt 0 sample_rate then
        hv ← high_freq_energy rfft_power window_vals sample_rate 2000;
        Some (feature_step hw hc hv r4)
      else Some r4
  end.

(** The DC / fallback branch: the absolute current value. *)
Definition raw_eval_dc (th : ThresholdSet) (current_val : Q) : RawEval :=
  let m := Qabs current_val in
  mkRawEval (if qlt (th_critical th) m then Anomaly
             else if qlt (th_warning th) m then Warning else Normal)
            m (th_warning th) (th_critical th).

Definition raw_eval (th : ThresholdSet) (use_rms : bool) (current_val : Q)
    (window_vals : list Q) (sample_rate : Q) : option RawEval :=
  if String.eqb (th_method th) "rms_factor" && use_rms
     && negb (match window_vals with [] => true | _ => false end)
  then raw_eval_ac th window_vals sample_rate
  else Some (raw_eval_dc th current_val).

(** Hysteresis and debounce (lines 513-539): the reported status and the
    tracker after the tick. *)
Definition settle (cfg : DetectorConfig) (tracker : Tracker) (r : RawEval)
    : Status * Tracker :=
  let hysteresis_crit := critical_thr r * hysteresis_ratio cfg in
  let hysteresis_warn := warning_thr r * hysteresis_ratio cfg in
  let s :=
    if status_eqb (last_state tracker) Anomaly && Qle_bool hysteresis_crit (metric_value r)
    then Anomaly
    else if status_eqb (last_state tracker) Warning && Qle_bool hysteresis_warn (metric_value r)
    then (if negb (status_eqb (status_raw r) Anomaly) then Warning else status_raw r)
    else status_raw r in
  let '(ws, cs) :=
    match s with
    | Anomaly => (warning_streak tracker + 1, critical_streak tracker + 1)%Z
    | Warning => (warning_streak tracker + 1, 0)%Z
    | Normal => (0, 0)%Z
    end in
  let status :=
    if Z.leb (min_consecutive cfg) cs then Anomaly
    else if Z.leb (min_consecutive cfg) ws then Warning else Normal in
  (status, mkTracker ws cs status).

(** One axis of one call: raw evaluation, then [settle]. *)
Definition detect_axis (cfg : DetectorConfig) (th : ThresholdSet) (use_rms : bool)
    (current_val : Q) (window_vals : list Q) (sample_rate : Q) (tracker : Tracker)
    : option (Status * Tracker) :=
  r ← raw_eval th use_rms current_val window_vals sample_rate;
  Some (settle cfg tracker r).

(** The time-window filter: samples no older than [window_seconds] before
    the latest one. *)
Definition filter_window (cfg : DetectorConfig) (window_data : list SensorData)
    : list SensorData :=
  match window_data with
  | [] => []
  | d0 :: _ =>
      let latest_ts := timestamp (List.last window_data d0) in
      List.filter (fun d => Qle_bool (latest_ts - window_seconds cfg) (timestamp d))
                  window_data
  end.

(** [AnomalyDetector.detect_anomaly]: the result's ['status'] per axis, and
    the new [state_tracker]. [None] is a [ZeroDivisionError], which the
    guards of the code rule out. *)
Definition detect_anomaly (cfg : DetectorConfig) (thresholds : gmap string ThresholdSet)
    (state_tracker : gmap string Tracker) (current_data : SensorData)
    (window_data : list SensorData) (use_rms : bool)
    : option (gmap string Status * gmap string Tracker) :=
  if bool_decide (thresholds = ∅) then Some (∅, state_tracker)
  else
    let window := filter_window cfg window_data in
    sample_rate ← (match window with
                   | [] => Some 0
                   | _ => compute_sample_rate (map timestamp window)
                   end);
    fold_left
      (fun acc (a : string * (SensorData -> Q)) =>
         '(results, trackers) ← acc;
         match thresholds !! fst a with
         | None => Some (results, trackers)
         | Some th =>
             let tracker := default default_tracker (trackers !! fst a) in
             '(status, tracker') ←
               detect_axis cfg th use_rms (snd a current_data) (map (snd a) window)
                           sample_rate tracker;
             Some (<[fst a := status]> results, <[fst a := tracker']> trackers)
         end)
      axes (Some (∅, state_tracker)).

(** Successive calls with the same thresholds, threading [state_tracker];
    the per-call results in order. *)
Fixpoint detect_run (cfg : DetectorConfig) (thresholds : gmap string ThresholdSet)
    (state_tracker : gmap string Tracker) (ticks : list (SensorData * list SensorData))
    (use_rms : bool) : option (list (gmap string Status)) :=
  match ticks with
  | [] => Some []
  | (cur, win) :: rest =>
      '(res, st') ← detect_anomaly cfg thresholds state_tracker cur win use_rms;
      rs ← detect_run cfg thresholds st' rest use_rms;
      Some (res :: rs)
  end.

End Detect.

(** A threshold set of the mean/std kind (DC evaluation), without the
    optional keys. *)
Definition dc_threshold (warning critical : Q) : ThresholdSet :=
  mkThresholdSet warning critical "mean_std" None None None None None None None None.

(** A sample whose only non-zero reading is [vx]. *)
Definition vx_sample (v t : Q) : SensorData :=
  mkSensorData 0 0 0 v 0 0 0 0 0 0 0 0 0 t.

End Detector.

(* ===================================================================== *)
(** * sensor_communication.py : frames, parsing and WTVBSensor            *)
(* ===================================================================== *)

Module Sensor.
Import Crc Buffer.

(** The 6-byte body of a [read_registers] (function code 0x03) or
    [write_register] (function code 0x06) command followed by its CRC.
    [bytes([...])] raises [ValueError] on an element outside [0, 256);
    only [slave_id] can be one, the other fields are masked. [None] is that
    [ValueError]. *)
Definition modbus_command (slave_id fc address value : Z) : option (list Z) :=
  let command_data := [slave_id; fc;
                       Z.land (Z.shiftr address 8) 255; Z.land address 255;
                       Z.land (Z.shiftr value 8) 255; Z.land value 255] in
  if forallb (fun b => (0 <=? b) && (b <? 256)) command_data
  then Some (command_data ++ calculate_crc command_data)
  else None.

Definition read_command (slave_id address count : Z) : option (list Z) :=
  modbus_command slave_id 3 address count.

Definition write_command (slave_id address value : Z) : option (list Z) :=
  modbus_command slave_id 6 address value.

(** [ModbusRTU.write_register] from the send on: [sent] is the result of
    [_send_command], [response] what [_read_response(8)] read ([[]] is its
    [None]). *)
Definition write_register_reply (sent : bool) (response : list Z) : bool :=
  sent && match response with
          | [] => false                  (* if not response *)
          | _ => verify_crc response
          end.

(** [data[i]] on [bytes]: a negative index counts from the end; [None] is
    the [IndexError]. *)
Definition py_getitem (data : list Z) (i : Z) : option Z :=
  if i <? 0 then
    if i + Z.of_nat (length data) <? 0 then None
    else nth_error data (Z.to_nat (i + Z.of_nat (length data)))
  else nth_error data (Z.to_nat i).

(** [WTVBSensor._parse_int16]. *)
Definition parse_int16 (data : list Z) (offset : Z) : option Z :=
  if Z.of_nat (length data) <=? offset + 1 then Some 0
  else
    high ← py_getitem data offset;
    low ← py_getitem data (offset + 1);
    let value := Z.lor (Z.shiftl high 8) low in
    Some (if negb (Z.land value 32768 =? 0) then - (65536 - value) else value).

(** [WTVBSensor._parse_uint16]. *)
Definition parse_uint16 (data : list Z) (offset : Z) : option Z :=
  if Z.of_nat (length data) <=? offset + 1 then Some 0
  else
    high ← py_getitem data offset;
    low ← py_getitem data (offset + 1);
    Some (Z.lor (Z.shiftl high 8) low).

(** The register readers. [data] is what [read_registers] returned ([None]
    or the payload); the result is [self.current_data] after the call, or
    [None] when the method returns [None] (then [current_data] is not
    touched). *)
Definition set_velocity (c : SensorData) (x y z : Q) : SensorData :=
  mkSensorData (ax c) (ay c) (az c) x y z (dx c) (dy c) (dz c)
               (hx c) (hy c) (hz c) (temp c) (timestamp c).
Definition set_displacement (c : SensorData) (x y z : Q) : SensorData :=
  mkSensorData (ax c) (ay c) (az c) (vx c) (vy c) (vz c) x y z
               (hx c) (hy c) (hz c) (temp c) (timestamp c).
Definition set_frequency (c : SensorData) (x y z : Q) : SensorData :=
  mkSensorData (ax c) (ay c) (az c) (vx c) (vy c) (vz c) (dx c) (dy c) (dz c)
               x y z (temp c) (timestamp c).
Definition set_acceleration (c : SensorData) (x y z : Q) : SensorData :=
  mkSensorData x y z (vx c) (vy c) (vz c) (dx c) (dy c) (dz c)
               (hx c) (hy c) (hz c) (temp c) (timestamp c).
Definition set_temperature (c : SensorData) (t : Q) : SensorData :=
  mkSensorData (ax c) (ay c) (az c) (vx c) (vy c) (vz c) (dx c) (dy c) (dz c)
               (hx c) (hy c) (hz c) t (timestamp c).
Definition set_timestamp (c : SensorData) (t : Q) : SensorData :=
  mkSensorData (ax c) (ay c) (az c) (vx c) (vy c) (vz c) (dx c) (dy c) (dz c)
               (hx c) (hy c) (hz c) (temp c) t.

(** [if not data or len(data) < n: return None]. *)
Definition payload_ok (data : option (list Z)) (n : nat) : option (list Z) :=
  match data with
  | Some d => if Nat.ltb (length d) n then None else Some d
  | None => None
  end.

(** Three signed registers, each scaled by [scale]. *)
Definition parse_three (d : list Z) (scale : Z -> Q) : option (Q * Q * Q) :=
  x ← parse_int16 d 0; y ← parse_int16 d 2; z ← parse_int16 d 4;
  Some (scale x, scale y, scale z).

Definition read_vibration_velocity (cur : SensorData) (data : option (list Z))
    : option SensorData :=
  d ← payload_ok data 6;
  '(x, y, z) ← parse_three d (fun r => (inject_Z r / 100)%Q);
  Some (set_velocity cur x y z).

Definition read_vibration_displacement (cur : SensorData) (data : option (list Z))
    : option SensorData :=
  d ← payload_ok data 6;
  '(x, y, z) ← parse_three d (fun r => inject_Z r);
  Some (set_displacement cur x y z).

Definition read_vibration_frequency (cur : SensorData) (data : option (list Z))
    : option SensorData :=
  d ← payload_ok data 6;
  '(x, y, z) ← parse_three d (fun r => (inject_Z r / 10)%Q);
  Some (set_frequency cur x y z).

Definition read_acceleration (cur : SensorData) (data : option (list Z))
    : option SensorData :=
  d ← payload_ok data 6;
  '(x, y, z) ← parse_three d (fun r => (inject_Z r / 32768 * 16)%Q);
  Some (set_acceleration cur x y z).

Definition read_temperature (cur : SensorData) (data : option (list Z))
    : option SensorData :=
  d ← payload_ok data 2;
  t ← parse_int16 d 0;
  Some (set_temperature cur (inject_Z t / 100)%Q).

(** The payloads of the five register reads of one [read_all_data]. *)
Record Payloads := mkPayloads {
  p_velocity : option (list Z);
  p_displacement : option (list Z);
  p_frequency : option (list Z);
  p_acceleration : option (list Z);
  p_temperature : option (list Z)
}.

(** [WTVBSensor.read_all_data]: the new [self.current_data] and the
    result. A failing read returns [None] at once, keeping what the earlier
    reads wrote into [current_data]; the result is a copy of
    [current_data] with [timestamp = now]. *)
Definition read_all_data (cur : SensorData) (p : Payloads) (now : Q)
    : SensorData * option SensorData :=
  match read_vibration_velocity cur (p_velocity p) with
  | None => (cur, None)
  | Some c1 =>
  match read_vibration_displacement c1 (p_displacement p) with
  | None => (c1, None)
  | Some c2 =>
  match read_vibration_frequency c2 (p_frequency p) with
  | None => (c2, None)
  | Some c3 =>
  match read_acceleration c3 (p_acceleration p) with
  | None => (c3, None)
  | Some c4 =>
  match read_temperature c4 (p_temperature p) with
  | None => (c4, None)
  | Some c5 => let c6 := set_timestamp c5 now in (c6, Some c6)
  end end end end end.

(** [ModbusRegister.SAVE], [BAUD] and [IICADDR]. *)
Definition REG_SAVE : Z := 0.
Definition REG_BAUD : Z := 4.
Definition REG_IICADDR : Z := 26.

(** A sequence of [self.modbus.write_register(address, value)] calls that
    stops at the first one returning [False]. [ok i] is the result of the
    [i]-th call; the result is whether all succeeded and the calls made. *)
Fixpoint run_writes (ok : nat -> bool) (i : nat) (ws : list (Z * Z))
    : bool * list (Z * Z) :=
  match ws with
  | [] => (true, [])
  | w :: rest =>
      if ok i then let '(b, issued) := run_writes ok (S i) rest in (b, w :: issued)
      else (false, [w])
  end.

(** [WTVBSensor.set_baudrate]: unlock, set, save. *)
Definition set_baudrate (ok : nat -> bool) (baudrate : Z) : bool * list (Z * Z) :=
  run_writes ok 0 [(REG_SAVE, 105); (REG_BAUD, baudrate); (REG_SAVE, 0)].

(** [WTVBSensor.set_slave_id]: the result, the writes made and the new
    [self.modbus.slave_id]. *)
Definition set_slave_id (slave_id : Z) (ok : nat -> bool) (new_id : Z)
    : bool * list (Z * Z) * Z :=
  if (new_id <? 1) || (127 <? new_id) then (false, [], slave_id)
  else
    let '(b, issued) :=
      run_writes ok 0 [(REG_SAVE, 105); (REG_IICADDR, new_id); (REG_SAVE, 0)] in
    (b, issued, if b then new_id else slave_id).

End Sensor.

(* ===================================================================== *)
(** * data_collector.py : buffer queries, DataCollector, MultiAxisAnalyzer *)
(* ===================================================================== *)

Module Queries.
Import Buffer Collector Baseline.
Local Open Scope Q_scope.

(** [DataBuffer.get_latest]: [self.buffer[-1]] if the buffer is non-empty. *)
Definition get_latest {A} (b : DataBuffer A) : option A :=
  match rev (buffer b) with
  | [] => None
  | x :: _ => Some x
  end.

(** [DataBuffer.get_by_time_range]. *)
Definition get_by_time_range (b : DataBuffer SensorData) (start_time end_time : Q)
    : list SensorData :=
  List.filter (fun d => Qle_bool start_time (timestamp d) && Qle_bool (timestamp d) end_time)
              (buffer b).

(** [DataCollector.get_data_by_time_range], [now] being [time.time()]. *)
Definition get_data_by_time_range (b : DataBuffer SensorData) (now duration_seconds : Q)
    : list SensorData :=
  get_by_time_range b (now - duration_seconds) now.

(** [DataCollector.get_acceleration_amplitudes]: [(max - min) / 2] per axis
    over [get_last_n(min(window_size, size))]. *)
Definition amplitude (f : SensorData -> Q) (d0 : SensorData) (ds : list SensorData) : Q :=
  (qmax_list (f d0) (map f ds) - qmin_list (f d0) (map f ds)) / 2.

Definition get_acceleration_amplitudes (b : DataBuffer SensorData) (window_size : Z)
    : Q * Q * Q :=
  let recent_data := get_last_n b (Z.min window_size (Z.of_nat (size b))) in
  match recent_data with
  | d0 :: ((_ :: _) as ds) => (amplitude ax d0 ds, amplitude ay d0 ds, amplitude az d0 ds)
  | _ => (0, 0, 0)
  end.

(** The ['success_rate'] of [DataCollector.get_statistics]. *)
Definition success_rate (total_readings failed_readings : nat) : Q :=
  if Nat.ltb 0 (total_readings + failed_readings) then
    inject_Z (Z.of_nat total_readings) /
      inject_Z (Z.of_nat (total_readings + failed_readings)) * 100
  else 0.

(** The state [start] and [stop] act on. *)
Record CollectorCtl := mkCollectorCtl {
  is_running : bool;
  ctl_total : nat;
  ctl_failed : nat;
  start_time : option Q
}.

(** [DataCollector.start]: the result, the new state, and whether
    [on_error] was called. *)
Definition start (c : CollectorCtl) (sensor_connected : bool) (now : Q)
    : bool * CollectorCtl * bool :=
  if is_running c then (false, c, false)
  else if negb sensor_connected then (false, c, true)
  else (true, mkCollectorCtl true 0 0 (Some now), false).

(** [DataCollector.stop] (the thread join is not modelled). *)
Definition stop (c : CollectorCtl) : CollectorCtl :=
  if is_running c then mkCollectorCtl false (ctl_total c) (ctl_failed c) (start_time c)
  else c.

(** [calc_stats] of the [MultiAxisAnalyzer] methods. *)
Record Stats := mkStats { st_min : Q; st_max : Q; st_avg : Q; st_current : Q }.

Definition zero_stats : Stats := mkStats 0 0 0 0.

Definition calc_stats (values : list Q) : Stats :=
  match values with
  | [] => zero_stats
  | v0 :: vs => mkStats (qmin_list v0 vs) (qmax_list v0 vs)
                        (qsum values / qlen values) (List.last values v0)
  end.

(** The shared body of [get_velocity_statistics],
    [get_displacement_statistics] and [get_frequency_statistics]. *)
Definition three_axis_statistics (f g h : SensorData -> Q) (b : DataBuffer SensorData)
    : Stats * Stats * Stats :=
  match get_all b with
  | [] => (zero_stats, zero_stats, zero_stats)
  | data_list => (calc_stats (map f data_list), calc_stats (map g data_list),
                  calc_stats (map h data_list))
  end.

Definition get_velocity_statistics := three_axis_statistics vx vy vz.
Definition get_displacement_statistics := three_axis_statistics dx dy dz.
Definition get_frequency_statistics := three_axis_statistics hx hy hz.

Definition get_temperature_statistics (b : DataBuffer SensorData) : Stats :=
  calc_stats (map temp (get_all b)).

End Queries.

(* ===================================================================== *)
(** * anomaly_detection.py : thresholds, score and history               *)
(* ===================================================================== *)

Module Thresholds.
Import Buffer Baseline Detector.
Local Open Scope Q_scope.
Local Open Scope string_scope.

(** The factors [AnomalyDetector.__init__] stores. *)
Record ThresholdFactors := mkThresholdFactors {
  warning_rms_factor : Q;
  critical_rms_factor : Q;
  warning_peak_factor : Q;
  critical_peak_factor : Q;
  crest_warning_factor : Q;
  crest_critical_factor : Q
}.

Definition default_factors : ThresholdFactors :=
  mkThresholdFactors (115 # 100) (130 # 100) (120 # 100) (150 # 100)
                     (120 # 100) (150 # 100).

Definition ac_axes : list string := ["vx"; "vy"; "vz"; "dx"; "dy"; "dz"; "ax"; "ay"; "az"].

(** [features.get(key, 0)]. *)
Definition fget (f : Features) (k : string) : Q := default 0 (f !! k).

(** [x * k if x else 0]. *)
Definition scale_if (x k : Q) : Q := if truthy x then x * k else 0.

(** The threshold set [calculate_thresholds] builds for one axis. The
    ['temp'] branch and the fallback branch build the same set. The
    ['rms_baseline'] key, which [detect_anomaly] does not read, is left
    out. *)
Definition threshold_for (fac : ThresholdFactors) (std_multiplier : Q) (axis : string)
    (features : Features) : ThresholdSet :=
  let mean := fget features "mean" in
  let std := fget features "std" in
  let rms := fget features "rms" in
  let peak := fget features "peak" in
  let crest := fget features "crest_factor" in
  if bool_decide (axis ∈ ac_axes) then
    let kurt := fget features "kurtosis" in
    let hf_energy := fget features "hf_energy" in
    mkThresholdSet (rms * warning_rms_factor fac) (rms * critical_rms_factor fac)
      "rms_factor"
      (Some (peak * critical_peak_factor fac)) (Some (peak * warning_peak_factor fac))
      (Some (scale_if crest (crest_critical_factor fac)))
      (Some (scale_if crest (crest_warning_factor fac)))
      (Some (scale_if kurt (13 # 10))) (Some (scale_if kurt (16 # 10)))
      (Some (scale_if hf_energy (25 # 10))) (Some (scale_if hf_energy 4))
  else
    mkThresholdSet (mean + std * std_multiplier) (mean + std * (std_multiplier * (3 # 2)))
      "mean_std" None None None None None None None None.

(** [AnomalyDetector.calculate_thresholds] over a baseline. *)
Definition calculate_thresholds (fac : ThresholdFactors) (std_multiplier : Q)
    (baseline : gmap string Features) : gmap string ThresholdSet :=
  map_imap (fun axis f => Some (threshold_for fac std_multiplier axis f)) baseline.

(** [AnomalyDetector.get_anomaly_score] over the statuses of a result. *)
Definition count_status (s : Status) (results : gmap string Status) : nat :=
  length (List.filter (fun kv => status_eqb (snd kv) s) (map_to_list results)).

Definition get_anomaly_score (results : gmap string Status) : Q :=
  if bool_decide (results = ∅) then 0
  else
    let anomaly_count := count_status Anomaly results in
    let warning_count := count_status Warning results in
    let score := (inject_Z (Z.of_nat anomaly_count) * 100 +
                  inject_Z (Z.of_nat warning_count) * 50) /
                 inject_Z (Z.of_nat (length (map_to_list results))) in
    Qmin score 100.

(** [record_anomaly] and [get_anomaly_history]. *)
Record HistoryEntry := mkHistoryEntry {
  h_timestamp : Q;
  h_results : gmap string Status;
  h_score : Q
}.

Definition record_anomaly (history : list HistoryEntry) (e : HistoryEntry)
    : list HistoryEntry := history ++ [e].

Definition get_anomaly_history (history : list HistoryEntry) (limit : Z)
    : list HistoryEntry := py_slice_from history (- limit).

End Thresholds.

(* ===================================================================== *)
(** * Proofs *)
(* ===================================================================== *)

Module CrcProofs.
Import Crc.

Example crc_modbus_reference : calculate_crc [1; 3; 0; 0; 0; 1] = [132; 10].
Proof. reflexivity. Qed.

(** ** Linearity of the CRC register update over GF(2) *)

Lemma crc_shift_odd (x : Z) :
  crc_shift x = Z.lxor (Z.shiftr x 1) (if Z.odd x then 40961 else 0).
Proof.
  unfold crc_shift.
  replace (Z.land x 1) with (x mod 2)
    by (symmetry; apply (Z.land_ones x 1); lia).
  rewrite Zmod_odd. destruct (Z.odd x); simpl; [reflexivity|].
  now rewrite Z.lxor_0_r.
Qed.

Lemma crc_shift_lxor (x y : Z) :
  crc_shift (Z.lxor x y) = Z.lxor (crc_shift x) (crc_shift y).
Proof.
  rewrite !crc_shift_odd.
  assert (Hodd : Z.odd (Z.lxor x y) = xorb (Z.odd x) (Z.odd y)).
  { rewrite <- !Z.bit0_odd. apply Z.lxor_spec. }
  rewrite Hodd, Z.shiftr_lxor.
  apply Z.bits_inj'; intros n Hn.
  destruct (Z.odd x), (Z.odd y); simpl;
    rewrite !Z.lxor_spec; try rewrite Z.bits_0;
    destruct (Z.testbit (Z.shiftr x 1) n), (Z.testbit (Z.shiftr y 1) n),
      (Z.testbit 40961 n); reflexivity.
Qed.

Lemma crc_shift8_lxor (x y : Z) :
  crc_shift8 (Z.lxor x y) = Z.lxor (crc_shift8 x) (crc_shift8 y).
Proof.
  unfold crc_shift8. generalize 8%nat as k. intros k.
  induction k as [|k IH]; simpl; [reflexivity|].
  now rewrite IH, crc_shift_lxor.
Qed.

Lemma crc_byte_lxor (s t b c : Z) :
  Z.lxor (crc_byte s b) (crc_byte t c) = crc_byte (Z.lxor s t) (Z.lxor b c).
Proof.
  unfold crc_byte. rewrite <- crc_shift8_lxor. f_equal.
  rewrite !Z.lxor_assoc. f_equal.
  rewrite <- !Z.lxor_assoc. f_equal. apply Z.lxor_comm.
Qed.

(** Two runs over the same bytes differ by a run over zero bytes. *)
Lemma crc_loop_same_bytes (v w : Z) (c : list Z) :
  Z.lxor (crc_loop v c) (crc_loop w c) = crc_loop (Z.lxor v w) (map (fun _ => 0) c).
Proof.
  revert v w. induction c as [|b c IH]; intros v w; simpl; [reflexivity|].
  unfold crc_loop in *. simpl. rewrite IH, crc_byte_lxor, Z.lxor_nilpotent.
  reflexivity.
Qed.

(** ** The register stays a 16-bit value *)

Lemma testbit_high (n x k : Z) :
  0 <= n -> 0 <= x < 2 ^ n -> n <= k -> Z.testbit x k = false.
Proof.
  intros Hn Hx Hk.
  rewrite <- (Z.mod_small x (2 ^ n)) by lia.
  apply Z.mod_pow2_bits_high. lia.
Qed.

Lemma lxor_lt_pow2 (n x y : Z) :
  0 <= n -> 0 <= x < 2 ^ n -> 0 <= y < 2 ^ n -> 0 <= Z.lxor x y < 2 ^ n.
Proof.
  intros Hn Hx Hy.
  assert (H0 : 0 <= Z.lxor x y) by (apply Z.lxor_nonneg; lia).
  split; [exact H0|].
  destruct (Z.eq_dec (Z.lxor x y) 0) as [E|E]; [rewrite E; lia|].
  apply Z.log2_lt_pow2; [lia|].
  destruct (Z.lt_ge_cases (Z.log2 (Z.lxor x y)) n) as [L|L]; [exact L|].
  exfalso.
  assert (Hb : Z.testbit (Z.lxor x y) (Z.log2 (Z.lxor x y)) = true)
    by (apply Z.bit_log2; lia).
  rewrite Z.lxor_spec, (testbit_high n x), (testbit_high n y) in Hb by lia.
  discriminate.
Qed.

Lemma crc_shift_range (x : Z) : 0 <= x < 65536 -> 0 <= crc_shift x < 65536.
Proof.
  intros Hx. rewrite crc_shift_odd, Z.shiftr_div_pow2 by lia.
  change 65536 with (2 ^ 16).
  apply lxor_lt_pow2; [lia| |destruct (Z.odd x); lia].
  change (2 ^ 1) with 2. split; [apply Z.div_pos; lia|].
  apply Z.div_lt_upper_bound; lia.
Qed.

Lemma crc_shift8_range (x : Z) : 0 <= x < 65536 -> 0 <= crc_shift8 x < 65536.
Proof.
  unfold crc_shift8. generalize 8%nat as k. intros k Hx.
  induction k as [|k IH]; simpl; [exact Hx|]. now apply crc_shift_range.
Qed.

Lemma crc_byte_range (x b : Z) :
  0 <= x < 65536 -> is_byte b -> 0 <= crc_byte x b < 65536.
Proof.
  unfold is_byte, crc_byte. intros Hx Hb. apply crc_shift8_range.
  change 65536 with (2 ^ 16). apply lxor_lt_pow2; lia.
Qed.

Lemma crc_loop_range (x : Z) (m : list Z) :
  0 <= x < 65536 -> bytes_ok m -> 0 <= crc_loop x m < 65536.
Proof.
  unfold crc_loop. revert x. induction m as [|b m IH]; intros x Hx Hm; simpl.
  - exact Hx.
  - inversion Hm; subst. apply IH; [apply crc_byte_range|]; assumption.
Qed.

(** ** A non-zero register difference never vanishes *)

Lemma crc_shift_nonzero (x : Z) :
  0 <= x < 65536 -> x <> 0 -> crc_shift x <> 0.
Proof.
  intros Hx Hnz E. rewrite crc_shift_odd, Z.shiftr_div_pow2 in E by lia.
  change (2 ^ 1) with 2 in E.
  assert (Hd : x = 2 * (x / 2) + x mod 2) by (apply Z.div_mod; lia).
  rewrite Zmod_odd in Hd.
  destruct (Z.odd x); simpl in E, Hd.
  - rewrite ?Z.lxor_0_r, Z.lxor_eq_0_iff in E.
    assert (x / 2 < 32768) by (apply Z.div_lt_upper_bound; lia). lia.
  - rewrite !Z.lxor_0_r in E. lia.
Qed.

Lemma crc_shift8_nonzero (x : Z) :
  0 <= x < 65536 -> x <> 0 -> crc_shift8 x <> 0.
Proof.
  unfold crc_shift8. generalize 8%nat as k. intros k Hx Hnz.
  induction k as [|k IH]; simpl; [exact Hnz|].
  apply crc_shift_nonzero; [|exact IH].
  clear IH. induction k as [|k IH]; simpl; [exact Hx|].
  now apply crc_shift_range.
Qed.

Lemma crc_loop_zeros_nonzero (d : Z) (c : list Z) :
  0 <= d < 65536 -> d <> 0 -> crc_loop d (map (fun _ => 0) c) <> 0.
Proof.
  unfold crc_loop. revert d. induction c as [|b c IH]; intros d Hd Hnz; simpl.
  - exact Hnz.
  - unfold crc_byte at 2. rewrite Z.lxor_0_r.
    apply IH; [apply crc_shift8_range | apply crc_shift8_nonzero]; assumption.
Qed.

(** ** Frames, splitting and bit flips *)

Lemma calculate_crc_length (m : list Z) : length (calculate_crc m) = 2%nat.
Proof. reflexivity. Qed.

Lemma crc_bytes_inj (x y : Z) :
  0 <= x < 65536 -> 0 <= y < 65536 ->
  [Z.land x 255; Z.land (Z.shiftr x 8) 255] =
  [Z.land y 255; Z.land (Z.shiftr y 8) 255] -> x = y.
Proof.
  intros Hx Hy E. injection E as Elo Ehi.
  change 255 with (Z.ones 8) in Elo, Ehi.
  rewrite !Z.land_ones, !Z.shiftr_div_pow2 in * by lia.
  change (2 ^ 8) with 256 in *.
  rewrite !(Z.mod_small (_ / 256) 256) in Ehi
    by (split; [apply Z.div_pos | apply Z.div_lt_upper_bound]; lia).
  rewrite (Z.div_mod x 256), (Z.div_mod y 256) by lia. lia.
Qed.

Lemma verify_crc_app (m r : list Z) :
  m <> [] -> length r = 2%nat ->
  verify_crc (m ++ r) = bytes_eqb r (calculate_crc m).
Proof.
  intros Hm Hr. unfold verify_crc. rewrite length_app, Hr.
  destruct m as [|x m]; [congruence|].
  replace (Nat.ltb (length (x :: m) + 2) 3) with false
    by (symmetry; apply Nat.ltb_ge; simpl; lia).
  replace (length (x :: m) + 2 - 2)%nat with (length (x :: m)) by lia.
  rewrite firstn_app, firstn_all, Nat.sub_diag, firstn_O, app_nil_r.
  rewrite skipn_app, skipn_all, Nat.sub_diag, skipn_O. reflexivity.
Qed.

Lemma bytes_eqb_true (a b : list Z) : bytes_eqb a b = true <-> a = b.
Proof. unfold bytes_eqb. apply bool_decide_eq_true. Qed.

Lemma bytes_eqb_false (a b : list Z) : a <> b -> bytes_eqb a b = false.
Proof. intros H. unfold bytes_eqb. now apply bool_decide_eq_false. Qed.

Lemma flip_bit_decomp (l : list Z) (i : nat) (j : Z) :
  (i < length l)%nat ->
  exists a b c, l = a ++ b :: c /\ length a = i /\
                flip_bit l i j = a ++ Z.lxor b (Z.shiftl 1 j) :: c.
Proof.
  intros Hi. unfold flip_bit.
  destruct (skipn i l) as [|b c] eqn:Hs.
  - apply (f_equal (@length Z)) in Hs. rewrite length_skipn in Hs. simpl in Hs. lia.
  - exists (firstn i l), b, c. repeat split.
    + rewrite <- Hs. symmetry. apply firstn_skipn.
    + rewrite length_firstn. lia.
Qed.

Lemma flip_bit_app (x y : list Z) (i : nat) (j : Z) :
  flip_bit (x ++ y) i j =
  if Nat.ltb i (length x) then flip_bit x i j ++ y
  else x ++ flip_bit y (i - length x) j.
Proof.
  unfold flip_bit. rewrite firstn_app, skipn_app.
  destruct (Nat.ltb_spec i (length x)) as [L|L].
  - replace (i - length x)%nat with 0%nat by lia.
    rewrite firstn_O, skipn_O, app_nil_r.
    destruct (skipn i x) as [|b c] eqn:Hs.
    + apply (f_equal (@length Z)) in Hs. rewrite length_skipn in Hs. simpl in Hs. lia.
    + simpl. now rewrite <- app_assoc.
  - rewrite firstn_all2, skipn_all2 by lia. simpl. now rewrite app_assoc.
Qed.

Lemma flip_bit_length (l : list Z) (i : nat) (j : Z) :
  length (flip_bit l i j) = length l.
Proof.
  unfold flip_bit. rewrite <- (firstn_skipn i l) at 3. rewrite !length_app.
  destruct (skipn i l); reflexivity.
Qed.

Lemma flip_bit_changes (l : list Z) (i : nat) (j : Z) :
  (i < length l)%nat -> 0 <= j -> flip_bit l i j <> l.
Proof.
  intros Hi Hj E. destruct (flip_bit_decomp l i j Hi) as (a & b & c & Hl & _ & Hf).
  rewrite Hf in E. rewrite Hl in E at 1. apply app_inv_head in E.
  injection E as E. apply (f_equal (Z.lxor b)) in E.
  rewrite <- Z.lxor_assoc, Z.lxor_nilpotent, Z.lxor_0_l, Z.shiftl_1_l in E.
  assert (0 < 2 ^ j) by (apply Z.pow_pos_nonneg; lia). lia.
Qed.

Lemma bit_mask_byte (j : Z) : 0 <= j < 8 -> 0 < Z.shiftl 1 j < 256.
Proof.
  intros Hj. rewrite Z.shiftl_1_l. split; [apply Z.pow_pos_nonneg; lia|].
  change 256 with (2 ^ 8). apply Z.pow_lt_mono_r; lia.
Qed.

(** Flipping one bit of the message changes its CRC. *)
Lemma calculate_crc_flip (m : list Z) (i : nat) (j : Z) :
  bytes_ok m -> (i < length m)%nat -> 0 <= j < 8 ->
  calculate_crc (flip_bit m i j) <> calculate_crc m.
Proof.
  intros Hm Hi Hj.
  destruct (flip_bit_decomp m i j Hi) as (a & b & c & Hl & _ & Hf).
  rewrite Hf, Hl. subst m. set (e := Z.shiftl 1 j).
  assert (He : 0 < e < 256) by (apply bit_mask_byte; exact Hj).
  unfold bytes_ok in Hm. rewrite Forall_app, Forall_cons in Hm.
  destruct Hm as (Ha & Hb & Hc).
  assert (Hb' : is_byte (Z.lxor b e)).
  { unfold is_byte in *. change 256 with (2 ^ 8). apply lxor_lt_pow2; lia. }
  set (u := crc_loop 65535 a).
  assert (Hu : 0 <= u < 65536) by (apply crc_loop_range; [lia | exact Ha]).
  unfold calculate_crc, crc_loop. rewrite !fold_left_app. simpl.
  fold (crc_loop 65535 a). fold u.
  fold (crc_loop (crc_byte u (Z.lxor b e)) c). fold (crc_loop (crc_byte u b) c).
  intros E. apply crc_bytes_inj in E;
    [| apply crc_loop_range; [apply crc_byte_range|]; assumption
     | apply crc_loop_range; [apply crc_byte_range|]; assumption].
  assert (Hd : Z.lxor (crc_byte u (Z.lxor b e)) (crc_byte u b) = crc_shift8 e).
  { rewrite crc_byte_lxor, Z.lxor_nilpotent. unfold crc_byte.
    rewrite Z.lxor_0_l, (Z.lxor_comm (Z.lxor b e) b), <- Z.lxor_assoc, Z.lxor_nilpotent, Z.lxor_0_l.
    reflexivity. }
  assert (Hz := crc_loop_same_bytes (crc_byte u (Z.lxor b e)) (crc_byte u b) c).
  rewrite E, Z.lxor_nilpotent, Hd in Hz.
  symmetry in Hz. revert Hz. apply crc_loop_zeros_nonzero.
  - apply crc_shift8_range. lia.
  - apply crc_shift8_nonzero; lia.
Qed.

(** ** Claims on the CRC and the response check *)

(** C5 (amended): for every non-empty byte message [m], the frame
    [m ++ calculate_crc m] passes [verify_crc], and flipping any single bit
    of any byte of that frame (message or CRC bytes) makes [verify_crc]
    return [false]. *)
Theorem crc_frame_valid_and_bitflip_detected (m : list Z) :
  bytes_ok m -> m <> [] ->
  verify_crc (m ++ calculate_crc m) = true /\
  forall (i : nat) (j : Z), (i < length (m ++ calculate_crc m))%nat -> 0 <= j < 8 ->
    verify_crc (flip_bit (m ++ calculate_crc m) i j) = false.
Proof.
  intros Hm Hne. split.
  - rewrite verify_crc_app by (exact Hne || reflexivity).
    now apply bytes_eqb_true.
  - intros i j Hi Hj. rewrite length_app, calculate_crc_length in Hi.
    rewrite flip_bit_app. destruct (Nat.ltb_spec i (length m)) as [L|L].
    + rewrite verify_crc_app.
      * apply bytes_eqb_false. intros E. symmetry in E.
        exact (calculate_crc_flip m i j Hm L Hj E).
      * intros E. apply (f_equal (@length Z)) in E.
        rewrite flip_bit_length in E. destruct m; [congruence | discriminate].
      * reflexivity.
    + rewrite verify_crc_app by (exact Hne || now rewrite flip_bit_length).
      apply bytes_eqb_false. apply flip_bit_changes; [|lia].
      rewrite calculate_crc_length. lia.
Qed.

Lemma crc_frame_valid_and_bitflip_detected_witness :
  bytes_ok [1; 3; 0; 0; 0; 1] /\ [1; 3; 0; 0; 0; 1] <> [] /\
  verify_crc ([1; 3; 0; 0; 0; 1] ++ calculate_crc [1; 3; 0; 0; 0; 1]) = true /\
  verify_crc (flip_bit ([1; 3; 0; 0; 0; 1] ++ calculate_crc [1; 3; 0; 0; 0; 1]) 6 0) = false.
Proof.
  assert (Hb : bytes_ok [1; 3; 0; 0; 0; 1]).
  { repeat constructor; unfold is_byte; lia. }
  assert (Hn : [1; 3; 0; 0; 0; 1] <> []) by discriminate.
  destruct (crc_frame_valid_and_bitflip_detected [1; 3; 0; 0; 0; 1] Hb Hn) as [H1 H2].
  split; [exact Hb|]. split; [exact Hn|]. split; [exact H1|].
  apply H2; [simpl; lia | lia].
Defined.

(** C5 (counterexample): for the empty message the frame is just the two
    CRC bytes, and [verify_crc] rejects every frame shorter than 3 bytes. *)
Lemma crc_empty_message_frame_rejected :
  verify_crc ([] ++ calculate_crc []) = false.
Proof. reflexivity. Qed.

(** C4 (amended): [read_registers] accepts a response exactly when it has at
    least 3 bytes and its last two bytes are the CRC of the others; the
    requested [count] (hence the expected length [5 + 2*count] and the
    byte-count field) plays no part, and the returned data is
    [response[3:-2]]. *)
Theorem read_registers_accepts_iff_crc (count : Z) (response data : list Z) :
  read_registers_response count response = Some data <->
  (3 <= length response)%nat /\
  skipn (length response - 2) response =
    calculate_crc (firstn (length response - 2) response) /\
  data = firstn (length response - 5) (skipn 3 response).
Proof.
  unfold read_registers_response, verify_crc.
  destruct response as [|x r].
  - simpl. split; [discriminate | lia].
  - destruct (Nat.ltb_spec (length (x :: r)) 3) as [L|L].
    + simpl negb. split; [discriminate | lia].
    + destruct (bytes_eqb _ _) eqn:E; simpl negb.
      * apply bytes_eqb_true in E.
        replace (length (x :: r) - 2 - 3)%nat with (length (x :: r) - 5)%nat by lia.
        split.
        -- intros H. injection H as <-. auto.
        -- intros (_ & _ & ->). reflexivity.
      * split; [discriminate|]. intros (_ & E' & _).
        apply bytes_eqb_true in E'. congruence.
Qed.

(** C4 (counterexample): a 7-byte answer to a 1-register read whose
    byte-count field says 7 instead of 2, and a 5-byte (short) answer to a
    3-register read (expected 11 bytes), are both accepted. *)
Lemma read_registers_accepts_mismatched_frames :
  read_registers_response 1 ([80; 3; 7; 18; 52] ++ calculate_crc [80; 3; 7; 18; 52])
    = Some [18; 52] /\
  expected_response_length 1 = 7 /\
  read_registers_response 3 ([80; 3; 6] ++ calculate_crc [80; 3; 6]) = Some [] /\
  expected_response_length 3 = 11.
Proof. repeat split; reflexivity. Qed.

End CrcProofs.

Module BufferProofs.
Import Buffer.

Lemma skipn_S_tl {A} (n : nat) (l : list A) : skipn (S n) l = tl (skipn n l).
Proof.
  revert l. induction n as [|n IH]; intros [|x l]; simpl; try reflexivity.
  apply IH.
Qed.

Lemma add_all_snoc {A} (b : DataBuffer A) (xs : list A) (x : A) :
  add_all b (xs ++ [x]) = add (add_all b xs) x.
Proof. unfold add_all. now rewrite fold_left_app. Qed.

Lemma add_all_max_size {A} (b : DataBuffer A) (xs : list A) :
  max_size (add_all b xs) = max_size b.
Proof.
  induction xs as [|x xs IH] using rev_ind; [reflexivity|].
  rewrite add_all_snoc. exact IH.
Qed.

(** Starting from an empty buffer of capacity [k], the buffer holds the
    last [k] pushed samples, in push order. *)
Lemma add_all_new_buffer {A} (k : nat) (xs : list A) :
  buffer (add_all (new_buffer k) xs) = skipn (length xs - k) xs.
Proof.
  induction xs as [|x xs IH] using rev_ind; [reflexivity|].
  rewrite add_all_snoc. unfold add at 1. simpl.
  rewrite add_all_max_size, IH. simpl.
  rewrite length_app, length_skipn, length_app. simpl.
  assert (Hs : skipn (length xs - k) xs ++ [x] = skipn (length xs - k) (xs ++ [x]))
    by (rewrite skipn_app; f_equal; now replace (length xs - k - length xs)%nat with 0%nat by lia).
  rewrite Hs.
  destruct (Nat.ltb_spec k (length xs - (length xs - k) + 1)) as [L|L].
  - rewrite <- skipn_S_tl. f_equal. lia.
  - f_equal. lia.
Qed.

Lemma run_op_size {A} (b : DataBuffer A) (op : BufferOp A) :
  (size b <= max_size b)%nat ->
  (size (run_op b op) <= max_size (run_op b op))%nat /\
  max_size (run_op b op) = max_size b.
Proof.
  unfold size. destruct op as [x|]; simpl; [|split; [lia | reflexivity]].
  split; [|reflexivity].
  destruct (Nat.ltb_spec (max_size b) (length (buffer b ++ [x]))) as [L|L];
    simpl; [|exact L].
  rewrite length_app in *. simpl in *.
  destruct (buffer b ++ [x]) eqn:E; simpl.
  - lia.
  - apply (f_equal (@length A)) in E. rewrite length_app in E. simpl in E. lia.
Qed.

(** C6: with capacity [k >= 1], after pushing [k + m] samples ([m > 0]) into
    a fresh buffer, [size()] is [k] and [get_all()] is the last [k] pushed
    samples in insertion order; and after any sequence of [add]/[clear]
    calls on a fresh buffer, [size()] never exceeds the capacity. *)
Theorem buffer_eviction_order_and_bound {A} (k m : nat) (xs : list A)
  (ops : list (BufferOp A)) :
  (1 <= k)%nat -> (0 < m)%nat -> length xs = (k + m)%nat ->
  size (add_all (new_buffer k) xs) = k /\
  get_all (add_all (new_buffer k) xs) = skipn m xs /\
  (size (run_ops (new_buffer k) ops) <= k)%nat.
Proof.
  intros Hk Hm Hl.
  assert (Hb := add_all_new_buffer k xs).
  unfold size, get_all. rewrite Hb, Hl.
  replace (k + m - k)%nat with m by lia.
  split; [rewrite length_skipn; lia|]. split; [reflexivity|].
  assert (Hinv : forall (b : DataBuffer A),
    (size b <= max_size b)%nat ->
    (size (run_ops b ops) <= max_size (run_ops b ops))%nat /\
    max_size (run_ops b ops) = max_size b).
  { induction ops as [|op ops IH]; intros b Hb0; simpl; [split; [exact Hb0 | reflexivity]|].
    destruct (run_op_size b op Hb0) as [H1 H2].
    destruct (IH (run_op b op) H1) as [H3 H4]. split; [exact H3 | congruence]. }
  destruct (Hinv (new_buffer k)) as [H1 H2]; [unfold size; simpl; lia|].
  unfold size in H1. rewrite H2 in H1. exact H1.
Qed.

Lemma buffer_eviction_order_and_bound_witness :
  (1 <= 2)%nat /\ (0 < 3)%nat /\ length [1; 2; 3; 4; 5] = (2 + 3)%nat /\
  size (add_all (new_buffer 2) [1; 2; 3; 4; 5]) = 2%nat /\
  get_all (add_all (new_buffer 2) [1; 2; 3; 4; 5]) = [4; 5] /\
  (size (run_ops (new_buffer 2) [OpAdd 1; OpAdd 2; OpClear; OpAdd 3; OpAdd 4; OpAdd 5]) <= 2)%nat.
Proof.
  destruct (buffer_eviction_order_and_bound 2 3 [1; 2; 3; 4; 5]
              [OpAdd 1; OpAdd 2; OpClear; OpAdd 3; OpAdd 4; OpAdd 5]) as (H1 & H2 & H3);
    [lia | lia | reflexivity |].
  refine (conj _ (conj _ (conj _ (conj H1 (conj H2 H3))))); [lia | lia | reflexivity].
Defined.

(** C10: [get_last_n 0] returns the whole buffer (Python's [l[-0:]] is
    [l[0:]]), and so does [get_last_n n] for every [n] larger than the
    current size. *)
Theorem get_last_n_zero_or_large_is_all {A} (b : DataBuffer A) (n : Z) :
  get_last_n b 0 = get_all b /\
  (Z.of_nat (size b) < n -> get_last_n b n = get_all b).
Proof.
  unfold get_last_n, py_slice_from, get_all, size. split.
  - simpl. rewrite Z.min_l by lia. reflexivity.
  - intros Hn. destruct (Z.ltb_spec (- n) 0) as [L|L]; [|lia].
    rewrite Z.max_l by lia. reflexivity.
Qed.

Lemma get_last_n_zero_or_large_is_all_witness :
  (Z.of_nat (size (add_all (new_buffer 5) [7; 8; 9])) < 10)%Z /\
  get_last_n (add_all (new_buffer 5) [7; 8; 9]) 0 = [7; 8; 9] /\
  get_last_n (add_all (new_buffer 5) [7; 8; 9]) 10 = [7; 8; 9].
Proof.
  assert (Hs : (Z.of_nat (size (add_all (new_buffer 5) [7; 8; 9])) < 10)%Z)
    by (vm_compute; reflexivity).
  destruct (get_last_n_zero_or_large_is_all (add_all (new_buffer 5) [7; 8; 9]) 10) as [H0 H1].
  split; [exact Hs|]. split; [exact H0 | exact (H1 Hs)].
Defined.

End BufferProofs.

Module CollectorProofs.
Import Buffer Collector.

Example five_disconnects_exit :
  exited (run_loop init_loop (repeat Disconnected 5)) = true.
Proof. reflexivity. Qed.

Lemma connection_lost_calls_app (st : LoopState) (l : list Callback) :
  length (filter is_connection_lost (callbacks st ++ l)) =
  (connection_lost_calls st + length (filter is_connection_lost l))%nat.
Proof. unfold connection_lost_calls. now rewrite filter_app, length_app. Qed.

Lemma run_loop_exited (st : LoopState) (cs : list Cycle) :
  exited st = true -> run_loop st cs = st.
Proof. intros H. destruct cs; simpl; [reflexivity|]. now rewrite H. Qed.

(** The connection-lost callback has been called once if the loop exited,
    and never otherwise. *)
Lemma run_loop_connection_lost_once (st : LoopState) (cs : list Cycle) :
  connection_lost_calls st = (if exited st then 1 else 0)%nat ->
  connection_lost_calls (run_loop st cs) =
    (if exited (run_loop st cs) then 1 else 0)%nat.
Proof.
  revert st. induction cs as [|c cs IH]; intros st Hst; simpl; [exact Hst|].
  destruct (exited st) eqn:Ex; [now rewrite Ex|].
  apply IH. destruct c; unfold cycle;
    try (destruct (Nat.leb _ _));
    unfold connection_lost_calls in *; simpl; rewrite ?filter_app, ?length_app;
    simpl; rewrite Hst; reflexivity.
Qed.

(** C2 (what the code does, diverging from the claim): in the polling loop (callbacks set and returning
    normally), [on_connection_lost] is called at most once, exactly when the
    loop has exited, and nothing runs after it; a disconnected cycle that
    brings the shared failure counter to [max_consecutive_errors] calls it and
    exits; a disconnected cycle below that count only increments the counter
    (no error callback, [failed_readings] unchanged) and the loop continues;
    a failed read or an exception while the counter stays below the maximum
    increments the counter ([failed_readings] too for a failed read), calls
    [on_error] once and the loop continues.  No exception leaves the loop:
    [run_loop] is a total function. *)
Theorem collect_loop_failure_semantics (st : LoopState) (cs : list Cycle) :
  exited st = false ->
  (* at most one connection-lost call, exactly on exit *)
  connection_lost_calls (run_loop init_loop cs) =
    (if exited (run_loop init_loop cs) then 1 else 0)%nat /\
  (* disconnected, threshold reached: callback once, loop exits *)
  ((max_consecutive_errors <= S (consecutive_errors st))%nat ->
     run_loop st (Disconnected :: cs) =
       mkLoopState (S (consecutive_errors st)) (total_readings st)
         (failed_readings st) (collected st)
         (callbacks st ++ [CbConnectionLost]) true) /\
  (* disconnected, below threshold: only the counter moves *)
  ((S (consecutive_errors st) < max_consecutive_errors)%nat ->
     run_loop st (Disconnected :: cs) =
       run_loop (mkLoopState (S (consecutive_errors st)) (total_readings st)
         (failed_readings st) (collected st) (callbacks st) false) cs) /\
  (* failed read, below threshold: counters and one error callback *)
  ((S (consecutive_errors st) < max_consecutive_errors)%nat ->
     run_loop st (ReadNone :: cs) =
       run_loop (mkLoopState (S (consecutive_errors st)) (total_readings st)
         (S (failed_readings st)) (collected st) (callbacks st ++ [CbError]) false) cs) /\
  (* exception, below threshold: counter and one error callback *)
  ((S (consecutive_errors st) < max_consecutive_errors)%nat ->
     run_loop st (ReadRaises :: cs) =
       run_loop (mkLoopState (S (consecutive_errors st)) (total_readings st)
         (failed_readings st) (collected st) (callbacks st ++ [CbError]) false) cs).
Proof.
  intros Hst. split; [apply run_loop_connection_lost_once; reflexivity|].
  repeat split; intros Hc; cbn [run_loop]; rewrite Hst; unfold cycle; try reflexivity.
  - destruct (Nat.leb_spec max_consecutive_errors (S (consecutive_errors st))); [|lia].
    apply run_loop_exited. reflexivity.
  - destruct (Nat.leb_spec max_consecutive_errors (S (consecutive_errors st))); [lia|].
    reflexivity.
Qed.

Lemma collect_loop_failure_semantics_witness :
  exited (mkLoopState 4 0 0 [] [] false) = false /\
  run_loop (mkLoopState 4 0 0 [] [] false) [Disconnected; ReadNone] =
    mkLoopState 5 0 0 [] [CbConnectionLost] true.
Proof.
  destruct (collect_loop_failure_semantics (mkLoopState 4 0 0 [] [] false)
              [ReadNone] eq_refl) as (_ & H & _).
  split; [reflexivity|]. apply H. unfold max_consecutive_errors. simpl. lia.
Defined.

(** C2 (failing input): ten failed reads in a row while the sensor stays
    connected never end the session: no connection-lost call, the loop is
    still running; and a disconnected cycle does not call [on_error]. *)
Lemma collect_loop_read_failures_not_fatal :
  let st := run_loop init_loop (repeat ReadNone 10) in
  exited st = false /\ connection_lost_calls st = 0%nat /\
  consecutive_errors st = 10%nat /\ failed_readings st = 10%nat /\
  callbacks (run_loop init_loop [Disconnected]) = [].
Proof. repeat split; reflexivity. Qed.

End CollectorProofs.

Module BaselineProofs.
Import Buffer Baseline.
Local Open Scope Q_scope.
Local Open Scope string_scope.
Local Arguments np_mean : simpl never.
Local Arguments np_var : simpl never.
Local Arguments qsum : simpl never.
Local Arguments qlen : simpl never.
Local Arguments py_div : simpl never.

Lemma py_div_nonzero (a b : Q) : ~ b == 0 -> py_div a b = Some (a / b).
Proof.
  intros Hb. unfold py_div. destruct (Qeq_bool b 0) eqn:E; [|reflexivity].
  apply Qeq_bool_eq in E. contradiction.
Qed.

Lemma qlen_cons_nonzero {A} (x : A) (l : list A) : ~ qlen (x :: l) == 0.
Proof. unfold qlen, Qeq. simpl. lia. Qed.

Lemma qlt_true (a b : Q) : qlt a b = true -> a < b.
Proof.
  unfold qlt. intros H. apply negb_true_iff in H.
  apply Qnot_le_lt. intros Hle. apply Qle_bool_iff in Hle. congruence.
Qed.

Lemma qlt_false (a b : Q) : qlt a b = false -> b <= a.
Proof.
  unfold qlt. intros H. apply negb_false_iff in H. now apply Qle_bool_iff.
Qed.

Lemma np_mean_cons (x : Q) (l : list Q) :
  np_mean (x :: l) = Some (qsum (x :: l) / qlen (x :: l)).
Proof. apply py_div_nonzero, qlen_cons_nonzero. Qed.

Lemma np_var_cons (x : Q) (l : list Q) : exists v, np_var (x :: l) = Some v.
Proof.
  unfold np_var. rewrite np_mean_cons. simpl.
  rewrite py_div_nonzero by apply qlen_cons_nonzero. eauto.
Qed.

Lemma features_nil (sqrt : Q -> Q) :
  calculate_time_domain_features sqrt [] =
  Some (list_to_map [("rms", 0); ("peak", 0); ("mean", 0); ("std", 0);
                     ("min", 0); ("max", 0); ("crest_factor", 0)]).
Proof. reflexivity. Qed.

(** The shape of the record on a non-empty list. *)
Lemma bind_some {A B} (x : A) (f : A -> option B) : (Some x ≫= f) = f x.
Proof. reflexivity. Qed.

Lemma features_cons (sqrt : Q -> Q) (v0 : Q) (vs : list Q) :
  exists mean_sq mean variance crest kurt,
    np_var (v0 :: vs) = Some variance /\
    (qlt 0 (sqrt mean_sq) = false -> crest = 0) /\
    (qlt 0 variance = false -> kurt = 0) /\
    calculate_time_domain_features sqrt (v0 :: vs) =
    Some (list_to_map [("rms", sqrt mean_sq); ("peak", qmax_list (Qabs v0) (map Qabs vs));
                       ("mean", mean); ("std", sqrt variance);
                       ("min", qmin_list v0 vs); ("max", qmax_list v0 vs);
                       ("crest_factor", crest); ("kurtosis", kurt)]).
Proof.
  destruct (np_var_cons v0 vs) as [v Hv].
  unfold calculate_time_domain_features.
  rewrite py_div_nonzero by apply qlen_cons_nonzero. rewrite bind_some.
  rewrite np_mean_cons, bind_some, Hv, bind_some.
  set (ms := qsum (map (fun x => x * x) (v0 :: vs)) / qlen (v0 :: vs)).
  assert (Hkz : qlt 0 v = true -> ~ v * v == 0).
  { intros Hk E. apply qlt_true in Hk. apply Qmult_integral in E.
    destruct E as [E|E]; rewrite E in Hk; apply (Qlt_irrefl 0); exact Hk. }
  destruct (qlt 0 (sqrt ms)) eqn:Hr.
  - rewrite (py_div_nonzero _ (sqrt ms)), bind_some
      by (intros E; apply qlt_true in Hr; rewrite E in Hr; apply (Qlt_irrefl 0); exact Hr).
    destruct (qlt 0 v) eqn:Hk.
    + rewrite py_div_nonzero, bind_some by apply qlen_cons_nonzero.
      rewrite (py_div_nonzero _ (v * v)), bind_some by (apply Hkz; reflexivity).
      eexists ms, _, v, _, _. split; [reflexivity|]. split; [congruence|].
      split; [congruence | reflexivity].
    + rewrite bind_some.
      eexists ms, _, v, _, _. split; [reflexivity|]. split; [congruence|].
      split; reflexivity.
  - rewrite bind_some. destruct (qlt 0 v) eqn:Hk.
    + rewrite py_div_nonzero, bind_some by apply qlen_cons_nonzero.
      rewrite (py_div_nonzero _ (v * v)), bind_some by (apply Hkz; reflexivity).
      eexists ms, _, v, _, _. split; [reflexivity|]. split; [reflexivity|].
      split; [congruence | reflexivity].
    + rewrite bind_some.
      eexists ms, _, v, _, _. split; [reflexivity|]. split; [reflexivity|].
      split; reflexivity.
Qed.

Lemma np_var_nil : np_var [] = None.
Proof. reflexivity. Qed.

Lemma qlt_false_of_le (a b : Q) : b <= a -> qlt a b = false.
Proof. intros H. unfold qlt. apply negb_false_iff. now apply Qle_bool_iff. Qed.

Lemma qlt_true_of_lt (a b : Q) : a < b -> qlt a b = true.
Proof.
  intros H. unfold qlt. apply negb_true_iff.
  destruct (Qle_bool b a) eqn:E; [|reflexivity].
  apply Qle_bool_iff in E. exfalso. apply (Qlt_not_le a b); assumption.
Qed.

Lemma mapM_py_div_some (c : Q) (ks : list nat) :
  ~ c == 0 ->
  exists l, mapM (fun k => py_div (inject_Z (Z.of_nat k)) c) ks = Some l.
Proof.
  intros Hc. induction ks as [|k ks IH]; [eexists; reflexivity|].
  destruct IH as [l Hl]. cbn [mapM]. rewrite py_div_nonzero by exact Hc.
  rewrite bind_some, Hl, bind_some. eexists. reflexivity.
Qed.

Lemma features_some (sqrt : Q -> Q) (values : list Q) :
  exists f, calculate_time_domain_features sqrt values = Some f.
Proof.
  destruct values as [|v0 vs]; [eexists; reflexivity|].
  destruct (features_cons sqrt v0 vs) as (ms & m & v & c & k & _ & _ & _ & H).
  eauto.
Qed.

Lemma high_freq_energy_some (rfft_power : list Q -> nat -> Q) (values : list Q)
    (sample_rate fmin : Q) :
  exists e, high_freq_energy rfft_power values sample_rate fmin = Some e.
Proof.
  unfold high_freq_energy.
  destruct (_ || _ || _) eqn:G; [eexists; reflexivity|].
  apply orb_false_iff in G as [G G3]. apply orb_false_iff in G as [G1 G2].
  destruct (Nat.ltb_spec (length values) 4) as [L|L]; [eexists; reflexivity|].
  destruct values as [|v0 vs]; [discriminate|].
  rewrite np_mean_cons, bind_some.
  assert (Hs : ~ sample_rate == 0).
  { intros E. rewrite E in G2. discriminate. }
  rewrite py_div_nonzero, bind_some by exact Hs.
  destruct (mapM_py_div_some (qlen (v0 :: vs) * (1 / sample_rate))
              (seq 0 (length (v0 :: vs) / 2 + 1))) as [fr Hfr].
  { intros E. apply Qmult_integral in E. destruct E as [E|E].
    - exact (qlen_cons_nonzero v0 vs E).
    - assert (H1 : sample_rate * (1 / sample_rate) == 1) by (field; exact Hs).
      rewrite E, Qmult_0_r in H1. unfold Qeq in H1. simpl in H1. discriminate. }
  rewrite Hfr, bind_some.
  destruct (negb _); [eexists; reflexivity|].
  rewrite py_div_nonzero by apply qlen_cons_nonzero. eexists; reflexivity.
Qed.

Ltac features_lookup := simpl; simplify_map_eq; try reflexivity.

(** C8: the feature functions are total and degenerate input gives a
    defined zero: [calculate_time_domain_features] never divides by zero
    and always returns a record; its crest factor is [0] when its RMS is
    [0]; its kurtosis is [0] when the variance [np.var] is [0]; on the empty
    list it returns the all-zero record (without a [kurtosis] key, since
    [np.var] of no values is undefined); and [_high_freq_energy] always
    returns a value, which is exactly [0] when the list is empty, the sample
    rate is [<= 0] or below [2*fmin], or fewer than 4 samples are given. *)
Theorem features_total_and_degenerate_zero (sqrt : Q -> Q)
    (rfft_power : list Q -> nat -> Q) (values : list Q) (sample_rate fmin : Q) :
  (exists f, calculate_time_domain_features sqrt values = Some f) /\
  (forall f r, calculate_time_domain_features sqrt values = Some f ->
     f !! "rms" = Some r -> r == 0 -> f !! "crest_factor" = Some 0) /\
  (forall f v, calculate_time_domain_features sqrt values = Some f ->
     np_var values = Some v -> v == 0 -> f !! "kurtosis" = Some 0) /\
  (values = [] ->
     calculate_time_domain_features sqrt values =
     Some (list_to_map [("rms", 0); ("peak", 0); ("mean", 0); ("std", 0);
                        ("min", 0); ("max", 0); ("crest_factor", 0)])) /\
  (exists e, high_freq_energy rfft_power values sample_rate fmin = Some e) /\
  ((values = [] \/ sample_rate <= 0 \/ sample_rate < 2 * fmin \/
    (length values < 4)%nat) ->
     high_freq_energy rfft_power values sample_rate fmin = Some 0).
Proof.
  split; [|split; [|split; [|split; [|split]]]].
  - apply features_some.
  - intros f r Hf Hr Hz. destruct values as [|v0 vs].
    + rewrite features_nil in Hf. injection Hf as <-. features_lookup.
    + destruct (features_cons sqrt v0 vs) as (ms & m & v & c & k & _ & Hc & _ & H).
      rewrite H in Hf. injection Hf as <-.
      assert (Er : r = sqrt ms) by (revert Hr; features_lookup; congruence).
      subst r. rewrite Hc by (apply qlt_false_of_le; rewrite Hz; apply Qle_refl).
      features_lookup.
  - intros f w Hf Hw Hz. destruct values as [|v0 vs].
    + rewrite np_var_nil in Hw. discriminate.
    + destruct (features_cons sqrt v0 vs) as (ms & m & v & c & k & Hv & _ & Hk & H).
      rewrite Hv in Hw. injection Hw as <-.
      rewrite H in Hf. injection Hf as <-.
      rewrite Hk by (apply qlt_false_of_le; rewrite Hz; apply Qle_refl).
      features_lookup.
  - intros ->. apply features_nil.
  - apply high_freq_energy_some.
  - intros Hd. unfold high_freq_energy.
    destruct (_ || _ || _) eqn:G; [reflexivity|].
    apply orb_false_iff in G as [G G3]. apply orb_false_iff in G as [G1 G2].
    destruct (Nat.ltb_spec (length values) 4) as [L|L]; [reflexivity|].
    exfalso. destruct Hd as [Hd|[Hd|[Hd|Hd]]].
    + subst values. discriminate.
    + apply Qle_bool_iff in Hd. congruence.
    + apply qlt_true_of_lt in Hd. congruence.
    + lia.
Qed.

(** ** The feature loop of [calculate_baseline] *)

Lemma axis_features_some (sqrt : Q -> Q) (rfft_power : list Q -> nat -> Q)
    (sample_rate : Q) (axis : string) (values : list Q) :
  exists f, axis_features sqrt rfft_power sample_rate axis values = Some f /\
            std_is_zero f = values_std_zero sqrt values.
Proof.
  unfold axis_features, values_std_zero.
  destruct (features_some sqrt values) as [f Hf]. rewrite Hf, bind_some.
  destruct (bool_decide (axis ∈ accel_axes)).
  - destruct (high_freq_energy_some rfft_power values sample_rate 2000) as [e He].
    rewrite He, bind_some. eexists. split; [reflexivity|].
    unfold std_is_zero. rewrite lookup_insert_ne by discriminate. reflexivity.
  - eexists. split; reflexivity.
Qed.

Lemma feature_loop_spec (sqrt : Q -> Q) (rfft_power : list Q -> nat -> Q)
    (sample_rate : Q) (data_list : list SensorData)
    (todo : list (string * (SensorData -> Q)))
    (bl : gmap string Features) (z c : nat) :
  feature_loop sqrt rfft_power sample_rate data_list todo bl z c =
  (fold_left (store_axis sqrt rfft_power sample_rate data_list) todo bl,
   Some ((z + zero_std_count sqrt data_list todo)%nat,
         (c + critical_zero_std_count sqrt data_list todo)%nat)).
Proof.
  revert bl z c. induction todo as [|[axis get] rest IH]; intros bl z c.
  - simpl. now rewrite !Nat.add_0_r.
  - destruct (axis_features_some sqrt rfft_power sample_rate axis (map get data_list))
      as (f & Hf & Hs).
    cbn [feature_loop fold_left]. rewrite Hf.
    unfold store_axis at 2. simpl fst. simpl snd. rewrite Hf.
    unfold zero_std_count, critical_zero_std_count. cbn [List.filter fst snd].
    rewrite <- Hs.
    destruct (std_is_zero f); rewrite IH; unfold zero_std_count, critical_zero_std_count;
      destruct (bool_decide (axis ∈ critical_axes)); simpl; repeat f_equal; lia.
Qed.

Lemma compute_sample_rate_window (data_list : list SensorData) :
  compute_sample_rate (map timestamp data_list) = Some (window_sample_rate data_list).
Proof.
  unfold window_sample_rate.
  destruct (compute_sample_rate (map timestamp data_list)) eqn:E; [reflexivity|].
  exfalso. revert E. unfold compute_sample_rate.
  destruct (map timestamp data_list) as [|t0 [|t1 ts]]; try discriminate.
  destruct (Qle_bool _ t0) eqn:L; [discriminate|].
  rewrite py_div_nonzero; [discriminate|].
  intros Hz. assert (Hle : List.last (t0 :: t1 :: ts) t0 <= t0).
  { set (tl := List.last (t0 :: t1 :: ts) t0) in *. lra. }
  apply Qle_bool_iff in Hle. congruence.
Qed.

Lemma critical_zero_std_count_axes (sqrt : Q -> Q) (data_list : list SensorData) :
  critical_zero_std_count sqrt data_list axes =
  ((if values_std_zero sqrt (map vy data_list) then 1 else 0) +
   (if values_std_zero sqrt (map vz data_list) then 1 else 0))%nat.
Proof.
  unfold critical_zero_std_count, axes. cbn [List.filter fst snd].
  repeat (match goal with
          | |- context [bool_decide (?x ∈ critical_axes)] =>
              let b := eval vm_compute in (bool_decide (x ∈ critical_axes)) in
              change (bool_decide (x ∈ critical_axes)) with b
          end).
  simpl.
  destruct (values_std_zero sqrt (map vy data_list)),
           (values_std_zero sqrt (map vz data_list)); reflexivity.
Qed.

Lemma calculate_baseline_unfold (sqrt : Q -> Q) (rfft_power : list Q -> nat -> Q)
    (calc : BaselineCalculator) (data_list : list SensorData)
    (min_samples max_zero_std_axes : Z) :
  (min_samples <= Z.of_nat (length data_list))%Z ->
  let zs := zero_std_count sqrt data_list axes in
  let cz := critical_zero_std_count sqrt data_list axes in
  let bl := window_baseline sqrt rfft_power calc data_list in
  calculate_baseline sqrt rfft_power calc data_list min_samples max_zero_std_axes =
  if Nat.leb 2 cz then (false, mkBaselineCalculator bl (Some NoVibrationSignal))
  else if Z.ltb max_zero_std_axes (Z.of_nat zs) then
    (false, mkBaselineCalculator bl (Some TooManyFlatAxes))
  else (true, mkBaselineCalculator bl (last_error calc)).
Proof.
  intros Hm. unfold calculate_baseline.
  destruct (Z.ltb_spec (Z.of_nat (length data_list)) min_samples); [lia|].
  rewrite compute_sample_rate_window, feature_loop_spec. reflexivity.
Qed.

Lemma fold_store_notin (sqrt : Q -> Q) (rfft_power : list Q -> nat -> Q)
    (sample_rate : Q) (data_list : list SensorData)
    (todo : list (string * (SensorData -> Q))) (bl : gmap string Features) (k : string) :
  ~ In k (map fst todo) ->
  fold_left (store_axis sqrt rfft_power sample_rate data_list) todo bl !! k = bl !! k.
Proof.
  revert bl. induction todo as [|b rest IH]; intros bl Hk; [reflexivity|].
  simpl in Hk. simpl. rewrite IH by tauto. unfold store_axis.
  destruct (axis_features _ _ _ _ _); [|reflexivity].
  apply lookup_insert_ne. intros E. apply Hk. left. exact E.
Qed.

Lemma fold_store_lookup (sqrt : Q -> Q) (rfft_power : list Q -> nat -> Q)
    (sample_rate : Q) (data_list : list SensorData)
    (todo : list (string * (SensorData -> Q))) (bl : gmap string Features)
    (a : string * (SensorData -> Q)) :
  List.NoDup (map fst todo) -> In a todo ->
  fold_left (store_axis sqrt rfft_power sample_rate data_list) todo bl !! fst a =
  axis_features sqrt rfft_power sample_rate (fst a) (map (snd a) data_list).
Proof.
  revert bl. induction todo as [|b rest IH]; intros bl Hnd Hin; [destruct Hin|].
  simpl in Hnd. apply List.NoDup_cons_iff in Hnd as [Hb Hnd].
  destruct Hin as [->|Hin]; simpl.
  - rewrite fold_store_notin by exact Hb. unfold store_axis.
    destruct (axis_features_some sqrt rfft_power sample_rate (fst a) (map (snd a) data_list))
      as (f & Hf & _).
    rewrite Hf. apply lookup_insert_eq.
  - apply IH; assumption.
Qed.

Lemma axes_names_nodup : List.NoDup (map fst axes).
Proof.
  simpl. repeat constructor; simpl; intros H;
    repeat (destruct H as [H|H]; [discriminate|]); exact H.
Qed.

(** C3 (amended): when the window has fewer than [min_samples] samples the
    stored baseline is unchanged; otherwise the feature loop stores every
    axis's feature record of the window before the checks run, so the
    stored baseline is the same for a success and for a [NoVibrationSignal]
    or [TooManyFlatAxes] rejection: each axis maps to its window features. *)
Theorem calculate_baseline_stores_before_checks (sqrt : Q -> Q)
    (rfft_power : list Q -> nat -> Q) (calc : BaselineCalculator)
    (data_list : list SensorData) (min_samples max_zero_std_axes : Z) :
  let r := calculate_baseline sqrt rfft_power calc data_list min_samples max_zero_std_axes in
  ((Z.of_nat (length data_list) < min_samples)%Z -> baseline (snd r) = baseline calc) /\
  ((min_samples <= Z.of_nat (length data_list))%Z ->
     baseline (snd r) = window_baseline sqrt rfft_power calc data_list /\
     forall a, In a axes ->
       baseline (snd r) !! fst a =
       axis_features sqrt rfft_power (window_sample_rate data_list) (fst a)
         (map (snd a) data_list)).
Proof.
  intros r. split.
  - intros Hm. subst r. unfold calculate_baseline.
    destruct (Z.ltb_spec (Z.of_nat (length data_list)) min_samples); [reflexivity | lia].
  - intros Hm.
    assert (Hb : baseline (snd r) = window_baseline sqrt rfft_power calc data_list).
    { subst r. rewrite calculate_baseline_unfold by exact Hm.
      destruct (Nat.leb _ _); [reflexivity|]. destruct (Z.ltb _ _); reflexivity. }
    split; [exact Hb|]. intros a Ha. rewrite Hb. unfold window_baseline.
    apply fold_store_lookup; [apply axes_names_nodup | exact Ha].
Qed.

(** C3 (counterexample): a flat 3-sample window with [min_samples = 1] is
    rejected with [NoVibrationSignal], yet the stored baseline for [vy] has
    changed from the empty record it held before the call. *)
Lemma calculate_baseline_rejection_changes_baseline :
  let r := calculate_baseline qsqrt zero_power init_calculator (flat_window 3) 1 6 in
  fst r = false /\ last_error (snd r) = Some NoVibrationSignal /\
  baseline (snd r) !! "vy" <> baseline init_calculator !! "vy".
Proof.
  vm_compute. split; [reflexivity|]. split; [reflexivity|].
  intros H. discriminate H.
Qed.

(** C7 (amended): with fewer than [min_samples] samples the call fails with
    [InsufficientData]; otherwise it fails with [NoVibrationSignal] when
    both VY and VZ have zero standard deviation (whatever the number of
    flat axes), else with [TooManyFlatAxes] when more than
    [max_zero_std_axes] of the ten axes have zero standard deviation, and
    succeeds otherwise (leaving [last_error] as it was). *)
Theorem calculate_baseline_outcome (sqrt : Q -> Q) (rfft_power : list Q -> nat -> Q)
    (calc : BaselineCalculator) (data_list : list SensorData)
    (min_samples max_zero_std_axes : Z) :
  let r := calculate_baseline sqrt rfft_power calc data_list min_samples max_zero_std_axes in
  let flat_vy := values_std_zero sqrt (map vy data_list) in
  let flat_vz := values_std_zero sqrt (map vz data_list) in
  let n_flat := zero_std_count sqrt data_list axes in
  ((Z.of_nat (length data_list) < min_samples)%Z ->
     fst r = false /\ last_error (snd r) = Some InsufficientData) /\
  ((min_samples <= Z.of_nat (length data_list))%Z -> flat_vy = true -> flat_vz = true ->
     fst r = false /\ last_error (snd r) = Some NoVibrationSignal) /\
  ((min_samples <= Z.of_nat (length data_list))%Z -> flat_vy && flat_vz = false ->
     (max_zero_std_axes < Z.of_nat n_flat)%Z ->
     fst r = false /\ last_error (snd r) = Some TooManyFlatAxes) /\
  ((min_samples <= Z.of_nat (length data_list))%Z -> flat_vy && flat_vz = false ->
     (Z.of_nat n_flat <= max_zero_std_axes)%Z ->
     fst r = true /\ last_error (snd r) = last_error calc).
Proof.
  intros r flat_vy flat_vz n_flat. split; [|split; [|split]].
  - intros Hm. subst r. unfold calculate_baseline.
    destruct (Z.ltb_spec (Z.of_nat (length data_list)) min_samples); [|lia].
    split; reflexivity.
  - intros Hm Hy Hz. subst r. rewrite calculate_baseline_unfold by exact Hm.
    cbv zeta. rewrite critical_zero_std_count_axes.
    fold flat_vy flat_vz. rewrite Hy, Hz. split; reflexivity.
  - intros Hm Hyz Hn. subst r. rewrite calculate_baseline_unfold by exact Hm.
    cbv zeta. rewrite critical_zero_std_count_axes. fold flat_vy flat_vz n_flat.
    replace (Nat.leb 2 _) with false
      by (destruct flat_vy, flat_vz; simpl in Hyz; try discriminate; reflexivity).
    destruct (Z.ltb_spec max_zero_std_axes (Z.of_nat n_flat)); [|lia].
    split; reflexivity.
  - intros Hm Hyz Hn. subst r. rewrite calculate_baseline_unfold by exact Hm.
    cbv zeta. rewrite critical_zero_std_count_axes. fold flat_vy flat_vz n_flat.
    replace (Nat.leb 2 _) with false
      by (destruct flat_vy, flat_vz; simpl in Hyz; try discriminate; reflexivity).
    destruct (Z.ltb_spec max_zero_std_axes (Z.of_nat n_flat)); [lia|].
    split; reflexivity.
Qed.

(** C7 (counterexample): thirty identical samples with [min_samples = 30]
    and [max_zero_std_axes = 6]: all ten axes are flat (10 > 6), but the
    error is [NoVibrationSignal], not [TooManyFlatAxes]. *)
Lemma calculate_baseline_flat_window_not_too_many :
  let r := calculate_baseline qsqrt zero_power init_calculator (flat_window 30) 30 6 in
  zero_std_count qsqrt (flat_window 30) axes = 10%nat /\
  last_error (snd r) = Some NoVibrationSignal /\
  last_error (snd r) <> Some TooManyFlatAxes.
Proof. vm_compute. split; [reflexivity|]. split; [reflexivity|]. discriminate. Qed.

End BaselineProofs.

Module DetectorProofs.
Import Buffer Baseline Detector.
Local Open Scope string_scope.
Local Arguments detect_axis : simpl never.

(** The tracker invariant: streaks are non-negative and the warning streak
    is at least the critical streak. *)
Definition tracker_inv (t : Tracker) : Prop :=
  (0 <= critical_streak t <= warning_streak t)%Z.

Lemma default_tracker_inv : tracker_inv default_tracker.
Proof. unfold tracker_inv; simpl; lia. Qed.

(** A raw anomaly survives the hysteresis unchanged. *)
Lemma settle_raw_anomaly (cfg : DetectorConfig) (t : Tracker) (r : RawEval) :
  status_raw r = Anomaly ->
  settle cfg t r =
  (if Z.leb (min_consecutive cfg) (critical_streak t + 1) then Anomaly
   else if Z.leb (min_consecutive cfg) (warning_streak t + 1) then Warning else Normal,
   mkTracker (warning_streak t + 1) (critical_streak t + 1)
     (if Z.leb (min_consecutive cfg) (critical_streak t + 1) then Anomaly
      else if Z.leb (min_consecutive cfg) (warning_streak t + 1) then Warning else Normal)).
Proof.
  intros H. unfold settle. rewrite H.
  destruct (status_eqb (last_state t) Anomaly && _); [reflexivity|].
  destruct (status_eqb (last_state t) Warning && _); reflexivity.
Qed.

(** [settle] keeps the invariant, records the reported status as
    [last_state], and reports anomaly exactly when the new critical streak
    reaches [min_consecutive]. *)
Lemma settle_inv (cfg : DetectorConfig) (t : Tracker) (r : RawEval) :
  tracker_inv t ->
  tracker_inv (snd (settle cfg t r)) /\
  last_state (snd (settle cfg t r)) = fst (settle cfg t r) /\
  (fst (settle cfg t r) = Anomaly <->
   (min_consecutive cfg <= critical_streak (snd (settle cfg t r)))%Z).
Proof.
  unfold tracker_inv, settle. intros Hi.
  set (s := if status_eqb (last_state t) Anomaly && _ then Anomaly else _).
  clearbody s.
  destruct s; simpl;
    (split; [lia|split; [reflexivity|]]);
    repeat match goal with
           | |- context [Z.leb ?a ?b] => destruct (Z.leb_spec a b)
           end;
    split; intros; try lia; try discriminate; try reflexivity.
Qed.

Lemma fold_left_option_inv {A B : Type} (f : option A -> B -> option A) (P : A -> Prop)
    (l : list B) (acc : option A) :
  (forall o b p, (forall a, o = Some a -> P a) -> f o b = Some p -> P p) ->
  (forall a, acc = Some a -> P a) ->
  forall p, fold_left f l acc = Some p -> P p.
Proof.
  intros Hf. revert acc. induction l as [|b l IH]; intros acc Hacc p Hp.
  - exact (Hacc p Hp).
  - simpl in Hp. apply (IH (f acc b)); [|exact Hp].
    intros a Ha. exact (Hf acc b a Hacc Ha).
Qed.

(** The statement of C9 about one call's results and trackers. *)
Definition detect_post (cfg : DetectorConfig) (results : gmap string Status)
    (trackers : gmap string Tracker) : Prop :=
  map_Forall (fun _ t => tracker_inv t) trackers /\
  forall k s, results !! k = Some s ->
    exists t, trackers !! k = Some t /\ last_state t = s /\
      (s = Anomaly <-> (min_consecutive cfg <= critical_streak t)%Z).

(** C1 (amended): from a fresh tracker with [min_consecutive = 3], three
    ticks whose raw evaluation is anomaly (for instance a value above the
    critical threshold, see [raw_eval_above_critical]) report normal,
    normal, anomaly: a critical reading increments both streaks, so the
    warning streak reaches 3 on the same tick as the critical one and
    warning is never reported in between. On a fourth tick whose metric is
    at least [critical * hysteresis_ratio] the status stays anomaly,
    whatever its raw evaluation. *)
Theorem settle_three_critical_ticks (cfg : DetectorConfig) (r1 r2 r3 r4 : RawEval) :
  min_consecutive cfg = 3%Z ->
  status_raw r1 = Anomaly -> status_raw r2 = Anomaly -> status_raw r3 = Anomaly ->
  (critical_thr r4 * hysteresis_ratio cfg <= metric_value r4)%Q ->
  let '(s1, t1) := settle cfg default_tracker r1 in
  let '(s2, t2) := settle cfg t1 r2 in
  let '(s3, t3) := settle cfg t2 r3 in
  s1 = Normal /\ s2 = Normal /\ s3 = Anomaly /\ fst (settle cfg t3 r4) = Anomaly.
Proof.
  intros Hmc H1 H2 H3 H4.
  rewrite (settle_raw_anomaly cfg default_tracker r1 H1). simpl. rewrite Hmc. simpl.
  rewrite (settle_raw_anomaly cfg _ r2 H2). simpl. rewrite Hmc. simpl.
  rewrite (settle_raw_anomaly cfg _ r3 H3). simpl. rewrite Hmc. simpl.
  split; [reflexivity|]. split; [reflexivity|]. split; [reflexivity|].
  unfold settle. simpl.
  apply Qle_bool_iff in H4. rewrite H4. simpl. rewrite Hmc. reflexivity.
Qed.

Lemma extreme_step_anomaly (crit warn : option Q) (x : Q) (r : RawEval) :
  status_raw r = Anomaly -> status_raw (extreme_step crit warn x r) = Anomaly.
Proof.
  intros H. unfold extreme_step. destruct (gt_or_inf x crit); [reflexivity|].
  rewrite H. simpl. rewrite andb_false_r. exact H.
Qed.

Lemma feature_step_anomaly (fw fc x : Q) (r : RawEval) :
  status_raw r = Anomaly -> status_raw (feature_step fw fc x r) = Anomaly.
Proof.
  intros H. unfold feature_step. destruct (truthy fc && qlt fc x); [reflexivity|].
  rewrite H. simpl. rewrite andb_false_r. exact H.
Qed.

(** The raw evaluation is anomaly when the evaluated value exceeds the
    critical threshold: the absolute value on the DC path, the RMS of the
    window on the RMS path (later evaluations never lower an anomaly). *)
Lemma raw_eval_dc_above_critical (th : ThresholdSet) (v : Q) :
  qlt (th_critical th) (Qabs v) = true -> status_raw (raw_eval_dc th v) = Anomaly.
Proof. intros H. unfold raw_eval_dc. simpl. rewrite H. reflexivity. Qed.

Lemma raw_eval_ac_above_critical (sqrt : Q -> Q) (rfft_power : list Q -> nat -> Q)
    (th : ThresholdSet) (window_vals : list Q) (sample_rate ms : Q) (r : RawEval) :
  raw_eval_ac sqrt rfft_power th window_vals sample_rate = Some r ->
  py_div (qsum (map (fun x => x * x)%Q window_vals)) (qlen window_vals) = Some ms ->
  qlt (th_critical th) (sqrt ms) = true ->
  status_raw r = Anomaly.
Proof.
  intros H Hms Hc. destruct window_vals as [|v0 vs]; [discriminate|].
  unfold raw_eval_ac in H. cbv zeta in H. rewrite Hms, BaselineProofs.bind_some in H.
  destruct (if qlt 0 (sqrt ms) then _ else _) as [crest|]; [|cbn in H; discriminate H].
  rewrite BaselineProofs.bind_some in H.
  match type of H with
  | context [extreme_step ?c ?w ?x (extreme_step ?c' ?w' ?x' ?r1)] =>
      assert (H3 : status_raw (extreme_step c w x (extreme_step c' w' x' r1)) = Anomaly)
        by (apply extreme_step_anomaly, extreme_step_anomaly; simpl; rewrite Hc; reflexivity);
      set (r3 := extreme_step c w x (extreme_step c' w' x' r1)) in H, H3;
      clearbody r3
  end.
  destruct (truthy (get0 (th_kurtosis_warning th)) || truthy (get0 (th_kurtosis_critical th))).
  - destruct (kurtosis _) as [kv|]; [|cbn in H; discriminate H].
    rewrite !BaselineProofs.bind_some in H.
    destruct ((truthy (get0 (th_hf_warning th)) || truthy (get0 (th_hf_critical th))) && qlt 0 sample_rate).
    + destruct (high_freq_energy _ _ _ _) as [hv|]; [|cbn in H; discriminate H].
      rewrite BaselineProofs.bind_some in H. injection H as <-.
      apply feature_step_anomaly, feature_step_anomaly, H3.
    + injection H as <-. apply feature_step_anomaly, H3.
  - rewrite BaselineProofs.bind_some in H.
    destruct ((truthy (get0 (th_hf_warning th)) || truthy (get0 (th_hf_critical th))) && qlt 0 sample_rate).
    + destruct (high_freq_energy _ _ _ _) as [hv|]; [|cbn in H; discriminate H].
      rewrite BaselineProofs.bind_some in H. injection H as <-.
      apply feature_step_anomaly, H3.
    + injection H as <-. exact H3.
Qed.

(** C1 (witness): DC thresholds warning 5 and critical 10, three readings
    of 20 and then one of 9.5 (below critical, above [10 * 0.9]). *)
Lemma settle_three_critical_ticks_witness :
  let cfg := make_config 1 3 (9 # 10) in
  let r := raw_eval_dc (dc_threshold 5 10) 20 in
  let r4 := raw_eval_dc (dc_threshold 5 10) (19 # 2) in
  let '(s1, t1) := settle cfg default_tracker r in
  let '(s2, t2) := settle cfg t1 r in
  let '(s3, t3) := settle cfg t2 r in
  s1 = Normal /\ s2 = Normal /\ s3 = Anomaly /\ fst (settle cfg t3 r4) = Anomaly.
Proof.
  intros cfg r r4.
  apply (settle_three_critical_ticks cfg r r r r4);
    [reflexivity | reflexivity | reflexivity | reflexivity |].
  vm_compute. intros H. discriminate H.
Defined.

(** C1 (counterexample): three calls of [detect_anomaly] with the [vx]
    reading constantly at 20 above the critical threshold 10
    ([min_consecutive = 3]) report normal, normal, anomaly for [vx]: the
    status never passes through warning. *)
Lemma detect_constant_critical_skips_warning :
  option_map (map (fun res => res !! "vx"))
    (detect_run qsqrt zero_power (make_config 1 3 (9 # 10))
       {["vx" := dc_threshold 5 10]} ∅
       [(vx_sample 20 0, []); (vx_sample 20 1, []); (vx_sample 20 2, [])] true) =
  Some [Some Normal; Some Normal; Some Anomaly].
Proof. vm_compute. reflexivity. Qed.

(** C9: from trackers satisfying [0 <= critical_streak <= warning_streak]
    (in particular the initial empty [state_tracker]), a call of
    [detect_anomaly] leaves every tracker satisfying it, and each reported
    status is the axis's new [last_state], anomaly exactly when that
    axis's critical streak has reached [min_consecutive] on this call. *)
Theorem detect_anomaly_tracker_invariant (sqrt : Q -> Q) (rfft_power : list Q -> nat -> Q)
    (cfg : DetectorConfig) (thresholds : gmap string ThresholdSet)
    (state_tracker : gmap string Tracker) (current_data : SensorData)
    (window_data : list SensorData) (use_rms : bool)
    (results : gmap string Status) (state_tracker' : gmap string Tracker) :
  map_Forall (fun _ t => tracker_inv t) state_tracker ->
  detect_anomaly sqrt rfft_power cfg thresholds state_tracker current_data window_data use_rms
    = Some (results, state_tracker') ->
  map_Forall (fun _ t => tracker_inv t) state_tracker' /\
  forall k s, results !! k = Some s ->
    exists t, state_tracker' !! k = Some t /\ last_state t = s /\
      (s = Anomaly <-> (min_consecutive cfg <= critical_streak t)%Z).
Proof.
  intros Hinv H. change (detect_post cfg results state_tracker').
  unfold detect_anomaly in H.
  destruct (bool_decide (thresholds = ∅)).
  { injection H as <- <-. split; [exact Hinv|]. intros k s Hk.
    rewrite lookup_empty in Hk. discriminate. }
  destruct (match filter_window cfg window_data with [] => _ | _ => _ end) as [sr|];
    [|discriminate].
  rewrite BaselineProofs.bind_some in H.
  refine (fold_left_option_inv _ (fun p => detect_post cfg (fst p) (snd p)) _ _ _ _
            (results, state_tracker') H).
  - intros o b p Ho Hf. destruct o as [[res trs]|]; [|discriminate].
    specialize (Ho _ eq_refl). destruct Ho as [Ht Hr]. simpl in Ht, Hr.
    rewrite BaselineProofs.bind_some in Hf.
    destruct (thresholds !! fst b) as [th|].
    2: { injection Hf as <-. split; assumption. }
    set (tracker := default default_tracker (trs !! fst b)) in Hf.
    assert (Hti : tracker_inv tracker).
    { subst tracker. destruct (trs !! fst b) eqn:E; simpl.
      - exact (Ht _ _ E).
      - apply default_tracker_inv. }
    destruct (detect_axis _ _ _ _ _ _ _ _ _) as [[s t']|] eqn:Hd; [|discriminate].
    rewrite BaselineProofs.bind_some in Hf. injection Hf as <-.
    unfold detect_axis in Hd.
    destruct (raw_eval _ _ _ _ _ _ _) as [r|]; [|discriminate].
    rewrite BaselineProofs.bind_some in Hd. injection Hd as Hd.
    pose proof (settle_inv cfg tracker r Hti) as Hs. rewrite Hd in Hs. simpl in Hs.
    destruct Hs as (Hs1 & Hs2 & Hs3).
    split; simpl.
    + apply map_Forall_insert_2; assumption.
    + intros k s0 Hk. destruct (decide (k = fst b)) as [->|Hne].
      * rewrite lookup_insert_eq in Hk. injection Hk as <-.
        exists t'. rewrite lookup_insert_eq. split; [reflexivity|]. split; assumption.
      * rewrite lookup_insert_ne in Hk by congruence.
        rewrite lookup_insert_ne by congruence. exact (Hr k s0 Hk).
  - intros a Ha. injection Ha as <-. split; [exact Hinv|].
    intros k s Hk. simpl in Hk. rewrite lookup_empty in Hk. discriminate.
Qed.

(** C9 (witness): the first call from the empty [state_tracker] with a DC
    threshold on [vx]. *)
Lemma detect_anomaly_tracker_invariant_witness :
  exists results state_tracker',
    detect_anomaly qsqrt zero_power (make_config 1 3 (9 # 10))
      {["vx" := dc_threshold 5 10]} ∅ (vx_sample 20 0) [vx_sample 20 0] true
      = Some (results, state_tracker') /\
    map_Forall (fun _ t => tracker_inv t) state_tracker' /\
    forall k s, results !! k = Some s ->
      exists t, state_tracker' !! k = Some t /\ last_state t = s /\
        (s = Anomaly <-> (min_consecutive (make_config 1 3 (9 # 10)) <= critical_streak t)%Z).
Proof.
  destruct (detect_anomaly qsqrt zero_power (make_config 1 3 (9 # 10))
      {["vx" := dc_threshold 5 10]} ∅ (vx_sample 20 0) [vx_sample 20 0] true)
    as [[results st']|] eqn:E.
  2: { vm_compute in E. discriminate E. }
  exists results, st'. split; [reflexivity|].
  apply (detect_anomaly_tracker_invariant qsqrt zero_power (make_config 1 3 (9 # 10))
           {["vx" := dc_threshold 5 10]} ∅ (vx_sample 20 0) [vx_sample 20 0] true);
    [apply map_Forall_empty | exact E].
Defined.

End DetectorProofs.

Module SensorProofs.
Import Crc Buffer Sensor.

Lemma land255 (x : Z) : Z.land x 255 = x mod 256.
Proof. change 255 with (Z.ones 8). rewrite Z.land_ones by lia. reflexivity. Qed.

Lemma land255_byte (x : Z) : is_byte (Z.land x 255).
Proof. rewrite land255. unfold is_byte. apply Z.mod_pos_bound. lia. Qed.

Lemma byte_check (b : Z) : ((0 <=? b) && (b <? 256)) = bool_decide (is_byte b).
Proof.
  unfold is_byte. destruct (Z.leb_spec 0 b), (Z.ltb_spec b 256);
    simpl; symmetry; first [apply bool_decide_eq_true_2 | apply bool_decide_eq_false_2]; lia.
Qed.

(** Big-endian split of a 16-bit field. *)
Lemma split16 (a : Z) :
  Z.land (Z.shiftr a 8) 255 * 256 + Z.land a 255 = a mod 65536.
Proof.
  rewrite !land255, Z.shiftr_div_pow2 by lia. change (2 ^ 8) with 256.
  change 65536 with (256 * 256). rewrite Z.rem_mul_r by lia. lia.
Qed.

(** Exhaustive checks over a range of integers, evaluated by the kernel. *)
Fixpoint check_from (f : Z -> bool) (n : nat) (z : Z) : bool :=
  match n with
  | O => true
  | S k => f z && check_from f k (z + 1)
  end.

Lemma check_from_spec (f : Z -> bool) (n : nat) (z : Z) :
  check_from f n z = true -> forall c, z <= c < z + Z.of_nat n -> f c = true.
Proof.
  revert z. induction n as [|n IH]; intros z H c Hc; simpl in *; [lia|].
  apply andb_true_iff in H as [H1 H2].
  destruct (Z.eq_dec c z) as [->|Hne]; [exact H1|].
  apply (IH (z + 1)); [exact H2 | lia].
Qed.

(** The CRC register after its own two bytes: zero, for every 16-bit value. *)
Lemma residue_all :
  check_from (fun c => Z.eqb (crc_byte (crc_byte c (Z.land c 255))
                                       (Z.land (Z.shiftr c 8) 255)) 0)
             (Z.to_nat 65536) 0 = true.
Proof. vm_compute. reflexivity. Qed.

Lemma residue_zero (c : Z) :
  0 <= c < 65536 ->
  crc_byte (crc_byte c (Z.land c 255)) (Z.land (Z.shiftr c 8) 255) = 0.
Proof.
  intros Hc. pose proof (check_from_spec _ _ 0 residue_all c) as H.
  rewrite Z2Nat.id in H by lia. specialize (H ltac:(lia)).
  cbv beta in H. apply Z.eqb_eq in H. exact H.
Qed.

(** [(high << 8) | low] on two bytes, and its sign test. *)
Lemma join_all :
  check_from (fun h => check_from (fun l => Z.eqb (Z.lor (Z.shiftl h 8) l) (h * 256 + l)) 256 0)
             256 0 = true.
Proof. vm_compute. reflexivity. Qed.

Lemma join_bytes (h l : Z) : is_byte h -> is_byte l -> Z.lor (Z.shiftl h 8) l = h * 256 + l.
Proof.
  unfold is_byte. intros Hh Hl.
  pose proof (check_from_spec _ 256 0 join_all h ltac:(simpl; lia)) as H.
  cbv beta in H.
  pose proof (check_from_spec _ 256 0 H l ltac:(simpl; lia)) as H'.
  cbv beta in H'. apply Z.eqb_eq in H'. exact H'.
Qed.

Lemma sign_all :
  check_from (fun u => Bool.eqb (Z.land u 32768 =? 0) (u <? 32768)) (Z.to_nat 65536) 0 = true.
Proof. vm_compute. reflexivity. Qed.

Lemma sign_bit (u : Z) : 0 <= u < 65536 -> (Z.land u 32768 =? 0) = (u <? 32768).
Proof.
  intros Hu. pose proof (check_from_spec _ _ 0 sign_all u) as H.
  rewrite Z2Nat.id in H by lia. specialize (H ltac:(lia)).
  cbv beta in H. apply Bool.eqb_prop in H. exact H.
Qed.

Lemma nth_error_bytes (d : list Z) (i : nat) (b : Z) :
  bytes_ok d -> nth_error d i = Some b -> is_byte b.
Proof.
  intros Hd Hi. unfold bytes_ok in Hd. rewrite List.Forall_forall in Hd.
  apply Hd. eapply nth_error_In. exact Hi.
Qed.

Lemma py_getitem_nonneg (d : list Z) (i : Z) :
  0 <= i -> i < Z.of_nat (length d) ->
  exists b, py_getitem d i = Some b /\ nth_error d (Z.to_nat i) = Some b.
Proof.
  intros H0 H1. unfold py_getitem. destruct (Z.ltb_spec i 0); [lia|].
  destruct (nth_error d (Z.to_nat i)) as [b|] eqn:E; [eauto|].
  apply nth_error_None in E. lia.
Qed.

(** [_parse_int16] and [_parse_uint16] at a non-negative offset. *)
Lemma parse_spec (d : list Z) (offset : Z) :
  bytes_ok d -> 0 <= offset -> offset + 1 < Z.of_nat (length d) ->
  exists u, parse_uint16 d offset = Some u /\ 0 <= u < 65536 /\
    parse_int16 d offset = Some (if u <? 32768 then u else u - 65536).
Proof.
  intros Hd H0 H1.
  destruct (py_getitem_nonneg d offset) as (h & Eh & Nh); [lia|lia|].
  destruct (py_getitem_nonneg d (offset + 1)) as (l & El & Nl); [lia|lia|].
  pose proof (nth_error_bytes _ _ _ Hd Nh) as Bh.
  pose proof (nth_error_bytes _ _ _ Hd Nl) as Bl.
  unfold parse_uint16, parse_int16.
  destruct (Z.leb_spec (Z.of_nat (length d)) (offset + 1)); [lia|].
  rewrite Eh, El. simpl. rewrite join_bytes by assumption.
  unfold is_byte in Bh, Bl.
  exists (h * 256 + l). split; [reflexivity|]. split; [lia|].
  rewrite sign_bit by lia.
  destruct (Z.ltb_spec (h * 256 + l) 32768); simpl; f_equal; lia.
Qed.

Lemma parse_int16_some (d : list Z) (offset : Z) :
  0 <= offset -> exists v, parse_int16 d offset = Some v.
Proof.
  intros H0. unfold parse_int16.
  destruct (Z.leb_spec (Z.of_nat (length d)) (offset + 1)); [eauto|].
  destruct (py_getitem_nonneg d offset) as (h & Eh & _); [lia|lia|].
  destruct (py_getitem_nonneg d (offset + 1)) as (l & El & _); [lia|lia|].
  rewrite Eh, El. simpl. eauto.
Qed.

Lemma parse_int16_range (d : list Z) (offset v : Z) :
  bytes_ok d -> 0 <= offset -> parse_int16 d offset = Some v -> -32768 <= v <= 32767.
Proof.
  intros Hd H0 Hv.
  destruct (Z.leb_spec (Z.of_nat (length d)) (offset + 1)) as [L|L].
  - unfold parse_int16 in Hv. apply Z.leb_le in L. rewrite L in Hv.
    injection Hv as <-. lia.
  - destruct (parse_spec d offset Hd H0 L) as (u & _ & Hu & E).
    rewrite Hv in E. injection E as ->.
    destruct (Z.ltb_spec u 32768); lia.
Qed.

(** X1: a command frame built by [read_registers] or [write_register] is
    [None] ([ValueError] from [bytes]) exactly when the slave id is not a
    byte; otherwise it is 8 bytes, starts with the slave id and function
    code, carries the address and the count/value big-endian modulo 2^16,
    and passes [verify_crc]. *)
Theorem modbus_command_frame (slave_id fc address value : Z) :
  is_byte fc ->
  (~ is_byte slave_id -> modbus_command slave_id fc address value = None) /\
  (is_byte slave_id ->
   exists frame, modbus_command slave_id fc address value = Some frame /\
     length frame = 8%nat /\ verify_crc frame = true /\
     firstn 2 frame = [slave_id; fc] /\
     nth 2 frame 0 * 256 + nth 3 frame 0 = address mod 65536 /\
     nth 4 frame 0 * 256 + nth 5 frame 0 = value mod 65536).
Proof.
  intros Hfc. unfold modbus_command. simpl forallb.
  rewrite !byte_check, (bool_decide_eq_true_2 _ Hfc).
  rewrite !(bool_decide_eq_true_2 _ (land255_byte _)). simpl andb.
  split.
  - intros Hs. rewrite (bool_decide_eq_false_2 _ Hs). reflexivity.
  - intros Hs. rewrite (bool_decide_eq_true_2 _ Hs). eexists. split; [reflexivity|].
    split; [rewrite length_app, CrcProofs.calculate_crc_length; reflexivity|].
    split.
    + rewrite CrcProofs.verify_crc_app by (try discriminate; apply CrcProofs.calculate_crc_length).
      apply CrcProofs.bytes_eqb_true. reflexivity.
    + split; [reflexivity|]. simpl nth. split; apply split16.
Qed.

(** Witness: slave 0x50 reading three registers at 0x3A. *)
Lemma modbus_command_frame_witness :
  is_byte 3 /\
  exists frame, modbus_command 80 3 58 3 = Some frame /\
     length frame = 8%nat /\ verify_crc frame = true /\
     firstn 2 frame = [80; 3] /\
     nth 2 frame 0 * 256 + nth 3 frame 0 = 58 mod 65536 /\
     nth 4 frame 0 * 256 + nth 5 frame 0 = 3 mod 65536.
Proof.
  assert (H3 : is_byte 3) by (unfold is_byte; lia).
  split; [exact H3|].
  apply (proj2 (modbus_command_frame 80 3 58 3 H3)). unfold is_byte; lia.
Defined.

(** X2: the CRC of a frame followed by its own CRC is [00 00], for every
    byte message: appending [calculate_crc(m)] zeroes the CRC register. *)
Theorem calculate_crc_frame_residue (m : list Z) :
  bytes_ok m -> calculate_crc (m ++ calculate_crc m) = [0; 0].
Proof.
  intros Hm.
  assert (H0 : crc_loop 65535 (m ++ calculate_crc m) = 0).
  { unfold crc_loop at 1. rewrite fold_left_app. fold (crc_loop 65535 m).
    unfold calculate_crc. simpl fold_left.
    apply residue_zero. apply CrcProofs.crc_loop_range; [lia | exact Hm]. }
  unfold calculate_crc at 1. rewrite H0. reflexivity.
Qed.

Lemma calculate_crc_frame_residue_witness :
  bytes_ok [80; 3; 0; 58; 0; 3] /\
  calculate_crc ([80; 3; 0; 58; 0; 3] ++ calculate_crc [80; 3; 0; 58; 0; 3]) = [0; 0].
Proof.
  assert (H : bytes_ok [80; 3; 0; 58; 0; 3])
    by (repeat constructor; unfold is_byte; lia).
  split; [exact H | apply (calculate_crc_frame_residue _ H)].
Defined.

(** X3: a well-formed read reply [slave, 0x03, byte_count] ++ payload ++ CRC
    is accepted by [read_registers], which returns exactly the payload. *)
Theorem read_registers_round_trip (count slave_id byte_count : Z) (payload : list Z) :
  let body := [slave_id; 3; byte_count] ++ payload in
  read_registers_response count (body ++ calculate_crc body) = Some payload.
Proof.
  intros body. unfold read_registers_response.
  destruct (body ++ calculate_crc body) as [|x r] eqn:E.
  { destruct body; discriminate. }
  rewrite <- E. rewrite CrcProofs.verify_crc_app by (try discriminate; apply CrcProofs.calculate_crc_length).
  replace (bytes_eqb _ _) with true by (symmetry; apply CrcProofs.bytes_eqb_true; reflexivity).
  simpl negb. cbv iota. f_equal.
  rewrite length_app, CrcProofs.calculate_crc_length. subst body.
  simpl skipn. rewrite length_app. simpl length.
  replace (3 + length payload + 2 - 2 - 3)%nat with (length payload) by lia.
  rewrite skipn_O, firstn_app, firstn_all, Nat.sub_diag, firstn_O, app_nil_r. reflexivity.
Qed.

(** X4: [_parse_int16] and [_parse_uint16] at a non-negative offset return
    [0] when [offset + 1 >= len(data)]; otherwise [_parse_uint16] is the
    big-endian value [256 * data[offset] + data[offset + 1]], in
    [0, 65535], and [_parse_int16] its two's-complement reading in
    [-32768, 32767]. *)
Theorem parse_int16_uint16 (data : list Z) (offset : Z) :
  bytes_ok data -> 0 <= offset ->
  (Z.of_nat (length data) <= offset + 1 ->
     parse_int16 data offset = Some 0 /\ parse_uint16 data offset = Some 0) /\
  (offset + 1 < Z.of_nat (length data) ->
     exists h l, nth_error data (Z.to_nat offset) = Some h /\
       nth_error data (S (Z.to_nat offset)) = Some l /\
       parse_uint16 data offset = Some (h * 256 + l) /\ 0 <= h * 256 + l <= 65535 /\
       parse_int16 data offset =
         Some (if h * 256 + l <? 32768 then h * 256 + l else h * 256 + l - 65536) /\
       -32768 <= (if h * 256 + l <? 32768 then h * 256 + l else h * 256 + l - 65536) <= 32767).
Proof.
  intros Hd H0. split.
  - intros L. unfold parse_int16, parse_uint16. apply Z.leb_le in L. rewrite L. auto.
  - intros L.
    destruct (py_getitem_nonneg data offset) as (h & Eh & Nh); [lia|lia|].
    destruct (py_getitem_nonneg data (offset + 1)) as (l & El & Nl); [lia|lia|].
    pose proof (nth_error_bytes _ _ _ Hd Nh) as Bh.
    pose proof (nth_error_bytes _ _ _ Hd Nl) as Bl.
    replace (Z.to_nat (offset + 1)) with (S (Z.to_nat offset)) in Nl by lia.
    unfold is_byte in Bh, Bl.
    exists h, l. split; [exact Nh|]. split; [exact Nl|].
    unfold parse_uint16, parse_int16.
    destruct (Z.leb_spec (Z.of_nat (length data)) (offset + 1)); [lia|].
    rewrite Eh, El. simpl. rewrite join_bytes by (unfold is_byte; lia).
    split; [reflexivity|]. split; [lia|].
    rewrite sign_bit by lia.
    destruct (Z.ltb_spec (h * 256 + l) 32768); simpl; (split; [f_equal; lia | lia]).
Qed.

Lemma parse_int16_uint16_witness :
  bytes_ok [255; 254; 7] /\ 0 <= 0 /\
  ((Z.of_nat (length [255; 254; 7]) <= 0 + 1 ->
     parse_int16 [255; 254; 7] 0 = Some 0 /\ parse_uint16 [255; 254; 7] 0 = Some 0) /\
   (0 + 1 < Z.of_nat (length [255; 254; 7]) ->
     exists h l, nth_error [255; 254; 7] (Z.to_nat 0) = Some h /\
       nth_error [255; 254; 7] (S (Z.to_nat 0)) = Some l /\
       parse_uint16 [255; 254; 7] 0 = Some (h * 256 + l) /\ 0 <= h * 256 + l <= 65535 /\
       parse_int16 [255; 254; 7] 0 =
         Some (if h * 256 + l <? 32768 then h * 256 + l else h * 256 + l - 65536) /\
       -32768 <= (if h * 256 + l <? 32768 then h * 256 + l else h * 256 + l - 65536) <= 32767)).
Proof.
  assert (Hd : bytes_ok [255; 254; 7]) by (repeat constructor; unfold is_byte; lia).
  assert (H0 : 0 <= 0) by lia.
  split; [exact Hd|]. split; [exact H0|].
  exact (parse_int16_uint16 [255; 254; 7] 0 Hd H0).
Defined.

(** X5: [_parse_int16] inverts the sensor's two's-complement big-endian
    encoding: a value in [-32768, 32767] written as its two bytes at
    [offset] is read back unchanged. *)
Theorem parse_int16_encode (v : Z) (pre post : list Z) :
  -32768 <= v <= 32767 ->
  parse_int16 (pre ++ [Z.land (Z.shiftr v 8) 255; Z.land v 255] ++ post)
              (Z.of_nat (length pre)) = Some v.
Proof.
  intros Hv. set (d := pre ++ _ ++ post).
  assert (Hlen : Z.of_nat (length pre) + 1 < Z.of_nat (length d))
    by (subst d; rewrite !length_app; simpl; lia).
  unfold parse_int16. destruct (Z.leb_spec (Z.of_nat (length d)) (Z.of_nat (length pre) + 1));
    [lia|].
  unfold py_getitem. destruct (Z.ltb_spec (Z.of_nat (length pre)) 0); [lia|].
  destruct (Z.ltb_spec (Z.of_nat (length pre) + 1) 0); [lia|].
  rewrite Nat2Z.id. replace (Z.to_nat (Z.of_nat (length pre) + 1)) with (S (length pre)) by lia.
  subst d. rewrite (nth_error_app2 pre _ (n := length pre)) by lia.
  rewrite (nth_error_app2 pre _ (n := S (length pre))) by lia.
  rewrite Nat.sub_diag. replace (S (length pre) - length pre)%nat with 1%nat by lia.
  simpl. rewrite join_bytes by apply land255_byte. rewrite split16.
  rewrite sign_bit by (apply Z.mod_pos_bound; lia).
  destruct (Z.ltb_spec v 0).
  - rewrite <- (Z.mod_unique v 65536 (-1) (v + 65536)) by lia.
    destruct (Z.ltb_spec (v + 65536) 32768); [lia|]. simpl. f_equal. lia.
  - rewrite Z.mod_small by lia. destruct (Z.ltb_spec v 32768); [|lia]. reflexivity.
Qed.

Lemma parse_int16_encode_witness :
  -32768 <= -2 <= 32767 /\
  parse_int16 ([7] ++ [Z.land (Z.shiftr (-2) 8) 255; Z.land (-2) 255] ++ [])
              (Z.of_nat (length [7])) = Some (-2).
Proof. split; [lia | apply parse_int16_encode; lia]. Defined.

(** The register readers once [read_registers] has returned. *)
Lemma parse_three_some (d : list Z) (s : Z -> Q) :
  exists x y z, parse_three d s = Some (x, y, z).
Proof.
  unfold parse_three.
  destruct (parse_int16_some d 0) as [a Ea]; [lia|].
  destruct (parse_int16_some d 2) as [b Eb]; [lia|].
  destruct (parse_int16_some d 4) as [c Ec]; [lia|].
  rewrite Ea, Eb, Ec. simpl. eauto.
Qed.

Lemma parse_three_range (d : list Z) (s : Z -> Q) (x y z : Q) :
  bytes_ok d -> parse_three d s = Some (x, y, z) ->
  exists a b c, -32768 <= a <= 32767 /\ -32768 <= b <= 32767 /\ -32768 <= c <= 32767 /\
    x = s a /\ y = s b /\ z = s c.
Proof.
  intros Hd E. unfold parse_three in E.
  destruct (parse_int16 d 0) as [a|] eqn:Ea; [|discriminate E].
  destruct (parse_int16 d 2) as [b|] eqn:Eb; [|discriminate E].
  destruct (parse_int16 d 4) as [c|] eqn:Ec; [|discriminate E].
  simpl in E. injection E as <- <- <-.
  exists a, b, c.
  repeat split; try reflexivity;
    first [ eapply (parse_int16_range d 0); eauto; lia
          | eapply (parse_int16_range d 2); eauto; lia
          | eapply (parse_int16_range d 4); eauto; lia ].
Qed.

Lemma reader3_inv (data : option (list Z)) (n : nat) (s : Z -> Q)
    (f : Q -> Q -> Q -> SensorData) (c : SensorData) :
  (d ← payload_ok data n; '(x, y, z) ← parse_three d s; Some (f x y z)) = Some c ->
  exists d x y z, data = Some d /\ payload_ok data n = Some d /\
    parse_three d s = Some (x, y, z) /\ c = f x y z.
Proof.
  intros E. destruct (payload_ok data n) as [d|] eqn:Ed; [|discriminate E].
  simpl in E. destruct (parse_three d s) as [[[x y] z]|] eqn:Ep; [|discriminate E].
  simpl in E. injection E as <-. exists d, x, y, z.
  unfold payload_ok in Ed. destruct data as [d'|]; [|discriminate Ed].
  destruct (Nat.ltb (length d') n); [discriminate Ed|]. injection Ed as ->.
  auto.
Qed.

Lemma reader3_none (data : option (list Z)) (n : nat) (s : Z -> Q)
    (f : Q -> Q -> Q -> SensorData) :
  (d ← payload_ok data n; '(x, y, z) ← parse_three d s; Some (f x y z)) = None <->
  payload_ok data n = None.
Proof.
  destruct (payload_ok data n) as [d|]; simpl; [|tauto].
  destruct (parse_three_some d s) as (x & y & z & ->). simpl.
  split; discriminate.
Qed.

Lemma temperature_inv (cur : SensorData) (data : option (list Z)) (c : SensorData) :
  read_temperature cur data = Some c ->
  exists d t, data = Some d /\ parse_int16 d 0 = Some t /\
    c = set_temperature cur (inject_Z t / 100).
Proof.
  unfold read_temperature. intros E.
  destruct (payload_ok data 2) as [d|] eqn:Ed; [|discriminate E].
  simpl in E. destruct (parse_int16 d 0) as [t|] eqn:Et; [|discriminate E].
  simpl in E. injection E as <-. exists d, t.
  unfold payload_ok in Ed. destruct data as [d'|]; [|discriminate Ed].
  destruct (Nat.ltb (length d') 2); [discriminate Ed|]. injection Ed as ->.
  auto.
Qed.

Lemma temperature_none (cur : SensorData) (data : option (list Z)) :
  read_temperature cur data = None <-> payload_ok data 2 = None.
Proof.
  unfold read_temperature.
  destruct (payload_ok data 2) as [d|]; simpl; [|tauto].
  destruct (parse_int16_some d 0) as [t ->]; [lia|]. simpl.
  split; discriminate.
Qed.

Lemma scale_velocity (a : Z) :
  -32768 <= a <= 32767 -> ((-32768 # 100) <= inject_Z a / 100 <= (32767 # 100))%Q.
Proof. intros Ha. unfold Qle, Qdiv, Qmult, Qinv, inject_Z; simpl; lia. Qed.

Lemma scale_displacement (a : Z) :
  -32768 <= a <= 32767 -> ((-32768 # 1) <= inject_Z a <= (32767 # 1))%Q.
Proof. intros Ha. unfold Qle, inject_Z; simpl; lia. Qed.

Lemma scale_frequency (a : Z) :
  -32768 <= a <= 32767 -> ((-32768 # 10) <= inject_Z a / 10 <= (32767 # 10))%Q.
Proof. intros Ha. unfold Qle, Qdiv, Qmult, Qinv, inject_Z; simpl; lia. Qed.

Lemma scale_acceleration (a : Z) :
  -32768 <= a <= 32767 -> ((-16 # 1) <= inject_Z a / 32768 * 16 < (16 # 1))%Q.
Proof. intros Ha. unfold Qle, Qlt, Qdiv, Qmult, Qinv, inject_Z; simpl; lia. Qed.

(** Unfolds one successful reader of [read_all_data]. *)
Ltac reader3 E n s f :=
  let d := fresh "d" in let x := fresh "x" in let y := fresh "y" in
  let z := fresh "z" in let Hd := fresh "Hd" in let Hp := fresh "Hp" in
  let Hs := fresh "Hs" in let Hc := fresh "Hc" in
  apply (reader3_inv _ n s f) in E as (d & x & y & z & Hd & Hs & Hp & Hc).

(** X6: a successful [read_all_data] leaves [current_data] equal to the
    returned copy, stamped with the time of the call, and every field is
    within what a signed 16-bit register gives after its scaling:
    velocity in [-327.68, 327.67] mm/s, displacement in [-32768, 32767] um,
    frequency in [-3276.8, 3276.7] Hz, acceleration in [-16, 16) g and
    temperature in [-327.68, 327.67] degrees. *)
Theorem read_all_data_ranges (cur : SensorData) (p : Payloads) (now : Q) (r : SensorData) :
  (forall d, In (Some d) [p_velocity p; p_displacement p; p_frequency p;
                          p_acceleration p; p_temperature p] -> bytes_ok d) ->
  snd (read_all_data cur p now) = Some r ->
  fst (read_all_data cur p now) = r /\ timestamp r = now /\
  ((-32768 # 100) <= vx r <= (32767 # 100) /\ (-32768 # 100) <= vy r <= (32767 # 100) /\
   (-32768 # 100) <= vz r <= (32767 # 100))%Q /\
  ((-32768 # 1) <= dx r <= (32767 # 1) /\ (-32768 # 1) <= dy r <= (32767 # 1) /\
   (-32768 # 1) <= dz r <= (32767 # 1))%Q /\
  ((-32768 # 10) <= hx r <= (32767 # 10) /\ (-32768 # 10) <= hy r <= (32767 # 10) /\
   (-32768 # 10) <= hz r <= (32767 # 10))%Q /\
  ((-16 # 1) <= ax r < (16 # 1) /\ (-16 # 1) <= ay r < (16 # 1) /\
   (-16 # 1) <= az r < (16 # 1))%Q /\
  ((-32768 # 100) <= temp r <= (32767 # 100))%Q.
Proof.
  intros Hb Hr. unfold read_all_data in *.
  destruct (read_vibration_velocity cur (p_velocity p)) as [c1|] eqn:E1; [|discriminate Hr].
  destruct (read_vibration_displacement c1 (p_displacement p)) as [c2|] eqn:E2; [|discriminate Hr].
  destruct (read_vibration_frequency c2 (p_frequency p)) as [c3|] eqn:E3; [|discriminate Hr].
  destruct (read_acceleration c3 (p_acceleration p)) as [c4|] eqn:E4; [|discriminate Hr].
  destruct (read_temperature c4 (p_temperature p)) as [c5|] eqn:E5; [|discriminate Hr].
  simpl in Hr. injection Hr as <-. simpl fst. split; [reflexivity|].
  unfold read_vibration_velocity in E1. reader3 E1 6%nat (fun r => (inject_Z r / 100)%Q) (set_velocity cur).
  unfold read_vibration_displacement in E2. reader3 E2 6%nat (fun r => inject_Z r) (set_displacement c1).
  unfold read_vibration_frequency in E3. reader3 E3 6%nat (fun r => (inject_Z r / 10)%Q) (set_frequency c2).
  unfold read_acceleration in E4. reader3 E4 6%nat (fun r => (inject_Z r / 32768 * 16)%Q) (set_acceleration c3).
  apply temperature_inv in E5 as (d5 & t & Hd5 & Ht & ->).
  subst c4 c3 c2 c1.
  assert (B1 : bytes_ok d) by (apply Hb; rewrite <- Hd; simpl; tauto).
  assert (B2 : bytes_ok d0) by (apply Hb; rewrite <- Hd0; simpl; tauto).
  assert (B3 : bytes_ok d1) by (apply Hb; rewrite <- Hd1; simpl; tauto).
  assert (B4 : bytes_ok d2) by (apply Hb; rewrite <- Hd2; simpl; tauto).
  assert (B5 : bytes_ok d5) by (apply Hb; rewrite <- Hd5; simpl; tauto).
  apply parse_three_range in Hp as (a1 & b1 & e1 & Ra1 & Rb1 & Re1 & -> & -> & ->); [|exact B1].
  apply parse_three_range in Hp0 as (a2 & b2 & e2 & Ra2 & Rb2 & Re2 & -> & -> & ->); [|exact B2].
  apply parse_three_range in Hp1 as (a3 & b3 & e3 & Ra3 & Rb3 & Re3 & -> & -> & ->); [|exact B3].
  apply parse_three_range in Hp2 as (a4 & b4 & e4 & Ra4 & Rb4 & Re4 & -> & -> & ->); [|exact B4].
  pose proof (parse_int16_range d5 0 t B5 ltac:(lia) Ht) as Rt.
  cbn [set_timestamp set_temperature set_acceleration set_frequency set_displacement
       set_velocity ax ay az vx vy vz dx dy dz hx hy hz temp timestamp].
  split; [reflexivity|].
  repeat first [ apply scale_velocity; assumption | apply scale_displacement; assumption
               | apply scale_frequency; assumption | apply scale_acceleration; assumption
               | split ].
Qed.

(** Witness: a read whose velocity, frequency and acceleration payloads
    hold negative values. *)
Lemma read_all_data_ranges_witness :
  let c0 := mkSensorData 0 0 0 0 0 0 0 0 0 0 0 0 0 0 in
  let p0 := mkPayloads (Some [0; 100; 255; 156; 128; 0]) (Some [0; 7; 0; 8; 0; 9])
                       (Some [255; 246; 0; 20; 0; 30]) (Some [8; 0; 248; 0; 0; 0])
                       (Some [9; 196]) in
  exists r,
  (forall d, In (Some d) [p_velocity p0; p_displacement p0; p_frequency p0;
                          p_acceleration p0; p_temperature p0] -> bytes_ok d) /\
  snd (read_all_data c0 p0 5) = Some r /\
  fst (read_all_data c0 p0 5) = r /\ timestamp r = 5%Q /\
  ((-32768 # 100) <= vx r <= (32767 # 100) /\ (-32768 # 100) <= vy r <= (32767 # 100) /\
   (-32768 # 100) <= vz r <= (32767 # 100))%Q /\
  ((-32768 # 1) <= dx r <= (32767 # 1) /\ (-32768 # 1) <= dy r <= (32767 # 1) /\
   (-32768 # 1) <= dz r <= (32767 # 1))%Q /\
  ((-32768 # 10) <= hx r <= (32767 # 10) /\ (-32768 # 10) <= hy r <= (32767 # 10) /\
   (-32768 # 10) <= hz r <= (32767 # 10))%Q /\
  ((-16 # 1) <= ax r < (16 # 1) /\ (-16 # 1) <= ay r < (16 # 1) /\
   (-16 # 1) <= az r < (16 # 1))%Q /\
  ((-32768 # 100) <= temp r <= (32767 # 100))%Q.
Proof.
  intros c0 p0.
  assert (Hb : forall d, In (Some d) [p_velocity p0; p_displacement p0; p_frequency p0;
                                      p_acceleration p0; p_temperature p0] -> bytes_ok d).
  { intros d Hin. simpl in Hin.
    repeat (destruct Hin as [Hin|Hin]; [injection Hin as <-; repeat constructor; unfold is_byte; lia|]).
    destruct Hin. }
  eexists. split; [exact Hb|].
  assert (Hr : snd (read_all_data c0 p0 5) = Some (match snd (read_all_data c0 p0 5) with
                                                   | Some r => r | None => c0 end))
    by reflexivity.
  split; [exact Hr|].
  exact (read_all_data_ranges c0 p0 5 _ Hb Hr).
Defined.

(** X7: [read_all_data] returns [None] exactly when one of the five reads
    got no payload or a payload shorter than its registers ([6] bytes for
    the three-axis reads, [2] for the temperature): the parsing itself
    never fails. *)
Theorem read_all_data_none_iff (cur : SensorData) (p : Payloads) (now : Q) :
  snd (read_all_data cur p now) = None <->
  payload_ok (p_velocity p) 6 = None \/ payload_ok (p_displacement p) 6 = None \/
  payload_ok (p_frequency p) 6 = None \/ payload_ok (p_acceleration p) 6 = None \/
  payload_ok (p_temperature p) 2 = None.
Proof.
  unfold read_all_data.
  destruct (read_vibration_velocity cur (p_velocity p)) as [c1|] eqn:E1.
  2:{ unfold read_vibration_velocity in E1. apply reader3_none in E1. simpl. tauto. }
  assert (N1 : payload_ok (p_velocity p) 6 <> None).
  { intros N. unfold read_vibration_velocity in E1.
    apply (reader3_none _ _ (fun r => (inject_Z r / 100)%Q) (set_velocity cur)) in N. congruence. }
  destruct (read_vibration_displacement c1 (p_displacement p)) as [c2|] eqn:E2.
  2:{ unfold read_vibration_displacement in E2. apply reader3_none in E2. simpl. tauto. }
  assert (N2 : payload_ok (p_displacement p) 6 <> None).
  { intros N. unfold read_vibration_displacement in E2.
    apply (reader3_none _ _ (fun r => inject_Z r) (set_displacement c1)) in N. congruence. }
  destruct (read_vibration_frequency c2 (p_frequency p)) as [c3|] eqn:E3.
  2:{ unfold read_vibration_frequency in E3. apply reader3_none in E3. simpl. tauto. }
  assert (N3 : payload_ok (p_frequency p) 6 <> None).
  { intros N. unfold read_vibration_frequency in E3.
    apply (reader3_none _ _ (fun r => (inject_Z r / 10)%Q) (set_frequency c2)) in N. congruence. }
  destruct (read_acceleration c3 (p_acceleration p)) as [c4|] eqn:E4.
  2:{ unfold read_acceleration in E4. apply reader3_none in E4. simpl. tauto. }
  assert (N4 : payload_ok (p_acceleration p) 6 <> None).
  { intros N. unfold read_acceleration in E4.
    apply (reader3_none _ _ (fun r => (inject_Z r / 32768 * 16)%Q) (set_acceleration c3)) in N. congruence. }
  destruct (read_temperature c4 (p_temperature p)) as [c5|] eqn:E5.
  2:{ apply temperature_none in E5. simpl. tauto. }
  assert (N5 : payload_ok (p_temperature p) 2 <> None).
  { intros N. apply (temperature_none c4) in N. congruence. }
  simpl. split; [discriminate | tauto].
Qed.



(** X9: a run of [write_register] calls that returns at the first [False]
    ([set_baudrate], [set_slave_id]) succeeds exactly when every call
    succeeds; the calls made are then the whole sequence, and otherwise
    they are the sequence up to and including the first failing call. *)
Theorem run_writes_first_failure (ok : nat -> bool) (i : nat) (ws : list (Z * Z)) :
  (fst (run_writes ok i ws) = true <->
     forall k, (k < length ws)%nat -> ok (i + k)%nat = true) /\
  (fst (run_writes ok i ws) = true -> snd (run_writes ok i ws) = ws) /\
  (forall n, (n < length ws)%nat -> ok (i + n)%nat = false ->
     (forall k, (k < n)%nat -> ok (i + k)%nat = true) ->
     run_writes ok i ws = (false, firstn (S n) ws)).
Proof.
  revert i. induction ws as [|w ws IH]; intros i; simpl.
  - split; [split; [intros _ k Hk; lia | reflexivity]|].
    split; [reflexivity | intros n Hn; lia].
  - destruct (IH (S i)) as (IH1 & IH2 & IH3).
    destruct (ok i) eqn:Ei.
    + destruct (run_writes ok (S i) ws) as [b issued] eqn:Er. simpl in *.
      split; [|split].
      * rewrite IH1. split.
        -- intros H k Hk. destruct k as [|k]; [rewrite Nat.add_0_r; exact Ei|].
           rewrite <- (H k ltac:(lia)). f_equal. lia.
        -- intros H k Hk. rewrite <- (H (S k) ltac:(lia)). f_equal. lia.
      * intros Hb. rewrite IH2 by exact Hb. reflexivity.
      * intros n Hn Hf Hk. destruct n as [|n]; [rewrite Nat.add_0_r, Ei in Hf; discriminate Hf|].
        assert (E : run_writes ok (S i) ws = (false, firstn (S n) ws)).
        { rewrite Er. apply IH3; [lia | rewrite <- Hf; f_equal; lia |].
          intros k Hk'. rewrite <- (Hk (S k) ltac:(lia)). f_equal. lia. }
        rewrite Er in E. injection E as -> ->. reflexivity.
    + simpl. split; [|split].
      * split; [discriminate|]. intros H. specialize (H 0%nat ltac:(lia)).
        rewrite Nat.add_0_r, Ei in H. discriminate H.
      * discriminate.
      * intros n Hn Hf Hk. destruct n as [|n]; [reflexivity|].
        specialize (Hk 0%nat ltac:(lia)). rewrite Nat.add_0_r, Ei in Hk. discriminate Hk.
Qed.

(** X10: [set_slave_id] with an id outside [1, 127] makes no call, returns
    [False] and keeps the slave id. With an id in range it returns [True]
    exactly when the unlock, id and save writes all succeed, adopts the new
    id only then, and its calls are a non-empty prefix of those three
    writes. *)
Theorem set_slave_id_spec (slave_id : Z) (ok : nat -> bool) (new_id : Z) :
  ((new_id < 1 \/ 127 < new_id) -> set_slave_id slave_id ok new_id = (false, [], slave_id)) /\
  (1 <= new_id <= 127 ->
   exists issued,
     set_slave_id slave_id ok new_id =
       (ok 0%nat && ok 1%nat && ok 2%nat, issued,
        if ok 0%nat && ok 1%nat && ok 2%nat then new_id else slave_id) /\
     issued <> [] /\
     issued = firstn (length issued) [(REG_SAVE, 105); (REG_IICADDR, new_id); (REG_SAVE, 0)]).
Proof.
  unfold set_slave_id. split.
  - intros H. destruct (Z.ltb_spec new_id 1), (Z.ltb_spec 127 new_id); simpl;
      first [reflexivity | lia].
  - intros H. destruct (Z.ltb_spec new_id 1); [lia|]. destruct (Z.ltb_spec 127 new_id); [lia|].
    simpl. destruct (ok 0%nat), (ok 1%nat), (ok 2%nat); simpl;
      eexists; (split; [reflexivity | split; [discriminate | reflexivity]]).
Qed.

(** X11: [set_baudrate] returns [True] exactly when the unlock, baud and
    save writes all succeed; the baud rate is written as given, without
    any check, and only once the unlock write has succeeded. *)
Theorem set_baudrate_spec (ok : nat -> bool) (baudrate : Z) :
  fst (set_baudrate ok baudrate) = ok 0%nat && ok 1%nat && ok 2%nat /\
  (In (REG_BAUD, baudrate) (snd (set_baudrate ok baudrate)) <-> ok 0%nat = true) /\
  snd (set_baudrate ok baudrate) <> [] /\
  snd (set_baudrate ok baudrate) =
    firstn (length (snd (set_baudrate ok baudrate)))
      [(REG_SAVE, 105); (REG_BAUD, baudrate); (REG_SAVE, 0)].
Proof.
  unfold set_baudrate, REG_SAVE, REG_BAUD. cbn [run_writes].
  destruct (ok 0%nat), (ok 1%nat), (ok 2%nat); simpl;
    (split; [reflexivity|]);
    (split; [|split; [discriminate | reflexivity]]);
    split; first [ intros _; reflexivity | intros _; tauto
                 | intros [H|[]]; injection H; lia | discriminate ].
Qed.

End SensorProofs.

Module QueriesProofs.
Import Buffer Collector Baseline Queries.
Local Open Scope Q_scope.

Lemma qmax_list_bounds (x : Q) (l : list Q) :
  x <= qmax_list x l /\ (forall y, In y l -> y <= qmax_list x l).
Proof.
  unfold qmax_list. revert x. induction l as [|a l IH]; intros x; simpl.
  - split; [apply Qle_refl | intros y []].
  - destruct (IH (Qmax x a)) as [H1 H2]. split.
    + eapply Qle_trans; [apply Q.le_max_l | exact H1].
    + intros y [<-|Hy]; [eapply Qle_trans; [apply Q.le_max_r | exact H1] | auto].
Qed.

Lemma qmin_list_bounds (x : Q) (l : list Q) :
  qmin_list x l <= x /\ (forall y, In y l -> qmin_list x l <= y).
Proof.
  unfold qmin_list. revert x. induction l as [|a l IH]; intros x; simpl.
  - split; [apply Qle_refl | intros y []].
  - destruct (IH (Qmin x a)) as [H1 H2]. split.
    + eapply Qle_trans; [exact H1 | apply Q.le_min_l].
    + intros y [<-|Hy]; [eapply Qle_trans; [exact H1 | apply Q.le_min_r] | auto].
Qed.

Lemma qmax_list_in (x : Q) (l : list Q) : In (qmax_list x l) (x :: l).
Proof.
  unfold qmax_list. revert x. induction l as [|a l IH]; intros x; simpl; [auto|].
  assert (D : Qmax x a = x \/ Qmax x a = a) by (unfold Qmax, GenericMinMax.gmax; destruct (x ?= a); auto).
  destruct D as [E|E]; rewrite E.
  - destruct (IH x) as [H|H]; [left; exact H | right; right; exact H].
  - destruct (IH a) as [H|H]; [right; left; exact H | right; right; exact H].
Qed.

Lemma qmin_list_in (x : Q) (l : list Q) : In (qmin_list x l) (x :: l).
Proof.
  unfold qmin_list. revert x. induction l as [|a l IH]; intros x; simpl; [auto|].
  assert (D : Qmin x a = x \/ Qmin x a = a) by (unfold Qmin, GenericMinMax.gmin; destruct (x ?= a); auto).
  destruct D as [E|E]; rewrite E.
  - destruct (IH x) as [H|H]; [left; exact H | right; right; exact H].
  - destruct (IH a) as [H|H]; [right; left; exact H | right; right; exact H].
Qed.

Lemma qlen_cons {A} (a : A) (l : list A) : qlen (a :: l) == qlen l + 1.
Proof.
  unfold qlen. simpl length. rewrite Nat2Z.inj_succ, <- Z.add_1_r, inject_Z_plus.
  reflexivity.
Qed.

Lemma qlen_nonneg {A} (l : list A) : 0 <= qlen l.
Proof.
  unfold qlen. change 0 with (inject_Z 0). rewrite <- Zle_Qle. lia.
Qed.

Lemma qsum_bounds (lo hi : Q) (l : list Q) :
  (forall y, In y l -> lo <= y <= hi) -> qlen l * lo <= qsum l <= qlen l * hi.
Proof.
  induction l as [|a l IH]; intros H.
  - unfold qlen. change (qsum []) with 0. simpl length.
    change (inject_Z (Z.of_nat 0)) with 0. lra.
  - rewrite qlen_cons. unfold qsum. simpl fold_right. fold (qsum l).
    destruct (H a (or_introl eq_refl)) as [Ha1 Ha2].
    destruct IH as [IH1 IH2]; [intros y Hy; apply H; right; exact Hy|].
    split; lra.
Qed.

Lemma last_in_cons (d v0 : Q) (vs : list Q) : In (List.last (v0 :: vs) d) (v0 :: vs).
Proof.
  revert v0. induction vs as [|a vs IH]; intros v0; [left; reflexivity|].
  change (List.last (v0 :: a :: vs) d) with (List.last (a :: vs) d).
  right. apply IH.
Qed.

(** X12: the [calc_stats] of [get_velocity_statistics] and its siblings
    gives zeros on an empty list; otherwise [min] and [max] are values of
    the list that bound every value, [min <= avg <= max], and [current] is
    a value of the list. *)
Theorem calc_stats_bounds (values : list Q) :
  (values = [] -> calc_stats values = zero_stats) /\
  (values <> [] ->
   In (st_min (calc_stats values)) values /\ In (st_max (calc_stats values)) values /\
   In (st_current (calc_stats values)) values /\
   (forall v, In v values -> st_min (calc_stats values) <= v <= st_max (calc_stats values)) /\
   st_min (calc_stats values) <= st_avg (calc_stats values) <= st_max (calc_stats values)).
Proof.
  split; [intros ->; reflexivity|].
  intros Hne. destruct values as [|v0 vs]; [congruence|]. simpl.
  pose proof (qmax_list_bounds v0 vs) as [M1 M2].
  pose proof (qmin_list_bounds v0 vs) as [m1 m2].
  assert (B : forall v, In v (v0 :: vs) -> qmin_list v0 vs <= v <= qmax_list v0 vs).
  { intros v [<-|Hv]; split; auto. }
  split; [apply qmin_list_in|]. split; [apply qmax_list_in|].
  split; [apply last_in_cons|]. split; [exact B|].
  pose proof (qsum_bounds _ _ _ B) as [S1 S2].
  assert (Hn : 0 < qlen (v0 :: vs)).
  { pose proof (qlen_nonneg (v0 :: vs)). pose proof (BaselineProofs.qlen_cons_nonzero v0 vs).
    destruct (Qlt_le_dec 0 (qlen (v0 :: vs))) as [?|Hle]; [assumption|].
    exfalso. apply H0. apply Qle_antisym; assumption. }
  split.
  - apply Qle_shift_div_l; [exact Hn|]. rewrite Qmult_comm. exact S1.
  - apply Qle_shift_div_r; [exact Hn|]. rewrite Qmult_comm. exact S2.
Qed.

Lemma get_latest_some {A} (b : DataBuffer A) (x : A) :
  get_latest b = Some x -> exists l, buffer b = l ++ [x].
Proof.
  unfold get_latest. destruct (rev (buffer b)) as [|y r] eqn:E; [discriminate|].
  intros H. injection H as ->. exists (rev r).
  rewrite <- (rev_involutive (buffer b)), E. reflexivity.
Qed.

Lemma calc_stats_snoc (l : list Q) (a : Q) : st_current (calc_stats (l ++ [a])) = a.
Proof.
  destruct l as [|v0 vs]; [reflexivity|]. simpl calc_stats. cbn [st_current].
  change (List.last ((v0 :: vs) ++ [a]) v0 = a). apply last_last.
Qed.

(** X13: the statistics of the [MultiAxisAnalyzer] methods are zeros on an
    empty buffer; otherwise each axis's ['current'] is the value of the
    latest sample ([get_latest]), which lies between ['min'] and ['max'],
    and ['min'] <= ['avg'] <= ['max']. *)
Theorem statistics_current_is_latest (f g h : SensorData -> Q) (b : DataBuffer SensorData) :
  (buffer b = [] -> three_axis_statistics f g h b = (zero_stats, zero_stats, zero_stats) /\
                    get_temperature_statistics b = zero_stats) /\
  (forall x, get_latest b = Some x ->
   let '(sf, sg, sh) := three_axis_statistics f g h b in
   let st := get_temperature_statistics b in
   st_current sf = f x /\ st_current sg = g x /\ st_current sh = h x /\ st_current st = temp x /\
   (st_min sf <= f x <= st_max sf /\ st_min sg <= g x <= st_max sg /\
    st_min sh <= h x <= st_max sh /\ st_min st <= temp x <= st_max st) /\
   (st_min sf <= st_avg sf <= st_max sf /\ st_min sg <= st_avg sg <= st_max sg /\
    st_min sh <= st_avg sh <= st_max sh /\ st_min st <= st_avg st <= st_max st)).
Proof.
  split.
  - intros E. unfold three_axis_statistics, get_temperature_statistics, get_all.
    rewrite E. split; reflexivity.
  - intros x Hx. destruct (get_latest_some b x Hx) as [l E].
    unfold three_axis_statistics, get_temperature_statistics, get_all. rewrite E.
    assert (Hne : forall k : SensorData -> Q, map k (l ++ [x]) <> []).
    { intros k. rewrite map_app. destruct (map k l); discriminate. }
    assert (Hin : forall k : SensorData -> Q, In (k x) (map k (l ++ [x]))).
    { intros k. apply in_map, in_or_app. right. left. reflexivity. }
    assert (Cur : forall k : SensorData -> Q, st_current (calc_stats (map k (l ++ [x]))) = k x).
    { intros k. rewrite map_app. apply calc_stats_snoc. }
    assert (Bd : forall k : SensorData -> Q,
      st_min (calc_stats (map k (l ++ [x]))) <= k x <= st_max (calc_stats (map k (l ++ [x]))) /\
      st_min (calc_stats (map k (l ++ [x]))) <= st_avg (calc_stats (map k (l ++ [x])))
        <= st_max (calc_stats (map k (l ++ [x])))).
    { intros k. destruct (proj2 (calc_stats_bounds (map k (l ++ [x]))) (Hne k))
        as (_ & _ & _ & B & A). split; [apply B, Hin | exact A]. }
    destruct (l ++ [x]) as [|y r] eqn:Ey; [destruct l; discriminate|].
    rewrite !Cur. repeat split; apply Bd.
Qed.

(** X14: [get_latest] is [None] exactly on an empty buffer, and
    [get_last_n(1)] is the list of [get_latest()]. After [add(x)],
    [get_latest] is [x] unless the deque has [maxlen = 0] and was empty. *)
Theorem get_latest_spec {A} (b : DataBuffer A) (x : A) :
  (get_latest b = None <-> buffer b = []) /\
  get_last_n b 1 = match get_latest b with Some y => [y] | None => [] end /\
  (get_latest (add b x) = Some x <-> (0 < max_size b)%nat \/ buffer b <> []).
Proof.
  split; [|split].
  - unfold get_latest. destruct (buffer b) as [|y r] eqn:E; simpl; [tauto|].
    destruct (rev r ++ [y]) eqn:E2; [destruct (rev r); discriminate|]. split; discriminate.
  - unfold get_latest, get_last_n, py_slice_from.
    destruct (buffer b) as [|y r] eqn:E using rev_ind; [reflexivity|].
    rewrite rev_app_distr. simpl rev. cbv iota.
    rewrite length_app. simpl length.
    match goal with |- context [Z.ltb ?a 0] => destruct (Z.ltb_spec a 0) end; [|lia].
    match goal with |- context [Z.to_nat ?k] => replace (Z.to_nat k) with (length r) by lia end.
    simpl app.
    rewrite skipn_app, skipn_all, Nat.sub_diag. reflexivity.
  - unfold get_latest, add. simpl buffer.
    destruct (Nat.ltb_spec (max_size b) (length (buffer b ++ [x]))) as [L|L].
    + destruct (buffer b) as [|y r] eqn:E; simpl.
      * simpl in L. split; [discriminate|]. intros [H|H]; [lia | congruence].
      * rewrite rev_app_distr. simpl. split; [intros _; right; discriminate | intros _; reflexivity].
    + rewrite rev_app_distr. simpl. split; [intros _ | intros _; reflexivity].
      rewrite length_app in L. simpl in L. left. lia.
Qed.

Lemma filter_sublist {A} (f : A -> bool) (l : list A) : sublist (List.filter f l) l.
Proof.
  induction l as [|a l IH]; simpl; [constructor|].
  destruct (f a); constructor; exact IH.
Qed.

(** X15: [get_data_by_time_range(duration)] returns the buffered samples
    with [now - duration <= timestamp <= now], in buffer order: the result
    is a sublist of the buffer, empty for an empty buffer, and appending a
    sample to the buffer appends it to the result when it is in range and
    leaves the result unchanged otherwise. A negative duration gives an
    empty list. *)
Theorem get_data_by_time_range_spec (b : DataBuffer SensorData) (now duration : Q) :
  (duration < 0 -> get_data_by_time_range b now duration = []) /\
  (forall d, In d (get_data_by_time_range b now duration) <->
             In d (buffer b) /\ now - duration <= timestamp d <= now) /\
  sublist (get_data_by_time_range b now duration) (buffer b) /\
  get_data_by_time_range (mkDataBuffer (max_size b) []) now duration = [] /\
  (forall x, now - duration <= timestamp x <= now ->
     get_data_by_time_range (mkDataBuffer (max_size b) (buffer b ++ [x])) now duration =
     get_data_by_time_range b now duration ++ [x]) /\
  (forall x, ~ (now - duration <= timestamp x <= now) ->
     get_data_by_time_range (mkDataBuffer (max_size b) (buffer b ++ [x])) now duration =
     get_data_by_time_range b now duration).
Proof.
  unfold get_data_by_time_range, get_by_time_range. simpl buffer.
  split; [|split; [|split; [|split; [|split]]]].
  - intros Hd. rewrite (List.filter_ext_in _ (fun _ => false)); [apply List.filter_false|].
    intros d _.
    destruct (Qle_bool (now - duration) (timestamp d)) eqn:E1; [|reflexivity].
    destruct (Qle_bool (timestamp d) now) eqn:E2; [|reflexivity].
    apply Qle_bool_iff in E1, E2. lra.
  - intros d. rewrite List.filter_In, andb_true_iff, !Qle_bool_iff. tauto.
  - apply filter_sublist.
  - reflexivity.
  - intros x [H1 H2]. rewrite List.filter_app. simpl.
    apply Qle_bool_iff in H1, H2. rewrite H1, H2. reflexivity.
  - intros x Hx. rewrite List.filter_app. simpl.
    destruct (Qle_bool (now - duration) (timestamp x)) eqn:E1;
      [|rewrite app_nil_r; reflexivity].
    destruct (Qle_bool (timestamp x) now) eqn:E2; [|rewrite app_nil_r; reflexivity].
    apply Qle_bool_iff in E1, E2. exfalso. apply Hx. split; assumption.
Qed.

Lemma amplitude_nonneg (f : SensorData -> Q) (d0 : SensorData) (ds : list SensorData) :
  0 <= amplitude f d0 ds.
Proof.
  unfold amplitude.
  pose proof (proj1 (qmax_list_bounds (f d0) (map f ds))).
  pose proof (proj1 (qmin_list_bounds (f d0) (map f ds))).
  apply Qle_shift_div_l; [lra|]. lra.
Qed.

(** X16: [get_acceleration_amplitudes] never returns a negative amplitude;
    it returns zeros when the buffer has fewer than two samples or when
    [window_size = 1]; and [window_size = 0] uses the whole buffer, like
    [window_size = size()]. *)
Theorem get_acceleration_amplitudes_spec (b : DataBuffer SensorData) (window_size : Z) :
  (let '(x, y, z) := get_acceleration_amplitudes b window_size in 0 <= x /\ 0 <= y /\ 0 <= z) /\
  ((size b < 2)%nat \/ window_size = 1%Z ->
     get_acceleration_amplitudes b window_size = (0, 0, 0)) /\
  get_acceleration_amplitudes b 0 = get_acceleration_amplitudes b (Z.of_nat (size b)).
Proof.
  split; [|split].
  - unfold get_acceleration_amplitudes.
    destruct (get_last_n _ _) as [|d0 [|d1 ds]]; try (split; [|split]; apply Qle_refl).
    split; [|split]; apply amplitude_nonneg.
  - intros H.
    assert (Hlen : (length (get_last_n b (Z.min window_size (Z.of_nat (size b)))) < 2)%nat).
    { unfold get_last_n, py_slice_from, size in *. rewrite length_skipn.
      destruct H as [H| ->]; [lia|].
      match goal with |- context [Z.ltb ?a 0] => destruct (Z.ltb_spec a 0) end; lia. }
    unfold get_acceleration_amplitudes.
    destruct (get_last_n b (Z.min window_size (Z.of_nat (size b)))) as [|d0 [|d1 ds]];
      [reflexivity | reflexivity | simpl in Hlen; lia].
  - assert (E1 : get_last_n b (Z.min 0 (Z.of_nat (size b))) = buffer b).
    { unfold get_last_n, py_slice_from, size.
      match goal with |- skipn ?k _ = _ => replace k with 0%nat; [reflexivity|] end.
      match goal with |- context [Z.ltb ?a 0] => destruct (Z.ltb_spec a 0) end; lia. }
    assert (E2 : get_last_n b (Z.min (Z.of_nat (size b)) (Z.of_nat (size b))) = buffer b).
    { unfold get_last_n, py_slice_from, size.
      match goal with |- skipn ?k _ = _ => replace k with 0%nat; [reflexivity|] end.
      match goal with |- context [Z.ltb ?a 0] => destruct (Z.ltb_spec a 0) end; lia. }
    unfold get_acceleration_amplitudes. rewrite E1, E2. reflexivity.
Qed.

Lemma inject_nat_nonneg (n : nat) : 0 <= inject_Z (Z.of_nat n).
Proof. change 0 with (inject_Z 0). rewrite <- Zle_Qle. lia. Qed.

(** X17: the ['success_rate'] of [get_statistics] is [0] before any
    reading, always lies in [0, 100], and is [100] exactly when there was
    a reading and no failed one. *)
Theorem success_rate_spec (total failed : nat) :
  0 <= success_rate total failed <= 100 /\
  (success_rate total failed == 100 <-> failed = 0%nat /\ (0 < total)%nat) /\
  (success_rate total failed == 0 <-> total = 0%nat).
Proof.
  unfold success_rate.
  destruct (Nat.ltb_spec 0 (total + failed)) as [L|L].
  2:{ assert (total = 0%nat) by lia. assert (failed = 0%nat) by lia. subst.
      split; [lra|]. split; [split; [intros H; discriminate H | lia] | split; [reflexivity|]].
      intros _. reflexivity. }
  rewrite Nat2Z.inj_add, inject_Z_plus.
  set (T := inject_Z (Z.of_nat total)). set (F := inject_Z (Z.of_nat failed)).
  assert (HT : 0 <= T) by apply inject_nat_nonneg.
  assert (HF : 0 <= F) by apply inject_nat_nonneg.
  assert (HTF : 0 < T + F).
  { unfold T, F. rewrite <- inject_Z_plus, <- Nat2Z.inj_add.
    change 0 with (inject_Z 0). rewrite <- Zlt_Qlt. lia. }
  assert (Hs : T / (T + F) * (T + F) == T).
  { field. intros E. rewrite E in HTF. apply (Qlt_irrefl 0), HTF. }
  set (s := T / (T + F)) in *.
  assert (T0 : T == 0 <-> total = 0%nat).
  { unfold T. change 0 with (inject_Z 0). rewrite inject_Z_injective. lia. }
  assert (F0 : F == 0 <-> failed = 0%nat).
  { unfold F. change 0 with (inject_Z 0). rewrite inject_Z_injective. lia. }
  split; [split; nra|]. split.
  - split.
    + intros H. assert (E : F == 0) by nra. assert (ET : ~ T == 0) by (intros ET; nra).
      split; [apply F0, E|].
      destruct total as [|t]; [exfalso; apply ET, T0; reflexivity | lia].
    + intros [Hf Ht]. apply F0 in Hf. assert (E : s == 1).
      { assert (Hz : ~ T == 0) by (rewrite T0; lia). nra. }
      rewrite E. reflexivity.
  - split.
    + intros H. apply T0. nra.
    + intros Ht. apply T0 in Ht. nra.
Qed.

End QueriesProofs.

Module ThresholdsProofs.
Import Buffer Baseline Detector Thresholds.
Local Open Scope Q_scope.
Local Open Scope string_scope.

Definition cnt (s : Status) (l : list (string * Status)) : nat :=
  length (List.filter (fun kv => status_eqb (snd kv) s) l).

Lemma cnt_anomaly_warning (l : list (string * Status)) :
  (cnt Anomaly l + cnt Warning l <= length l)%nat.
Proof.
  unfold cnt. induction l as [|[k s] l IH]; simpl; [lia|].
  destruct s; simpl; lia.
Qed.

Lemma cnt_all (s : Status) (l : list (string * Status)) :
  cnt s l = length l <-> Forall (fun kv => snd kv = s) l.
Proof.
  unfold cnt. induction l as [|[k t] l IH]; simpl.
  - split; [constructor | reflexivity].
  - pose proof (List.filter_length_le (fun kv => status_eqb (snd kv) s) l).
    destruct (status_eqb t s) eqn:E; simpl.
    + assert (t = s) by (destruct t, s; try discriminate E; reflexivity). subst t.
      rewrite List.Forall_cons_iff. split.
      * intros H1. split; [reflexivity|]. apply IH. lia.
      * intros [_ H1]. apply IH in H1. lia.
    + rewrite List.Forall_cons_iff. split; [lia|].
      intros [H1 _]. simpl in H1. subst t. destruct s; discriminate E.
Qed.

Lemma cnt_none (l : list (string * Status)) :
  cnt Anomaly l = 0%nat /\ cnt Warning l = 0%nat <-> Forall (fun kv => snd kv = Normal) l.
Proof.
  unfold cnt. induction l as [|[k t] l IH]; simpl.
  - split; [constructor | auto].
  - rewrite List.Forall_cons_iff. destruct t; simpl.
    + rewrite <- IH. split; [intros H; split; [reflexivity | exact H] | intros [_ H]; exact H].
    + split; [lia | intros [H _]; discriminate H].
    + split; [lia | intros [H _]; discriminate H].
Qed.

Lemma map_Forall_status (P : Status -> Prop) (results : gmap string Status) :
  map_Forall (fun _ s => P s) results <-> Forall (fun kv => P (snd kv)) (map_to_list results).
Proof.
  rewrite map_Forall_to_list. split; apply List.Forall_impl; intros [k v]; simpl; auto.
Qed.

Lemma qmin_cases (x y : Q) : (Qmin x y = x /\ x <= y) \/ (Qmin x y = y /\ y < x).
Proof.
  unfold Qmin, GenericMinMax.gmin. destruct (Qcompare_spec x y) as [E|E|E].
  - left. split; [reflexivity|]. rewrite E. apply Qle_refl.
  - left. split; [reflexivity | apply Qlt_le_weak, E].
  - right. split; [reflexivity | exact E].
Qed.

Lemma inject_nat_le (a b : nat) : (a <= b)%nat -> inject_Z (Z.of_nat a) <= inject_Z (Z.of_nat b).
Proof. intros H. rewrite <- Zle_Qle. lia. Qed.

Lemma inject_nat_eq (a b : nat) : inject_Z (Z.of_nat a) == inject_Z (Z.of_nat b) <-> a = b.
Proof. rewrite inject_Z_injective. lia. Qed.

(** X18: [get_anomaly_score] lies in [0, 100]; it is [100] exactly when the
    result is non-empty and every axis is an anomaly, and [0] exactly when
    no axis is a warning or an anomaly (an empty result included). *)
Theorem get_anomaly_score_spec (results : gmap string Status) :
  0 <= get_anomaly_score results <= 100 /\
  (get_anomaly_score results == 100 <->
     results <> ∅ /\ map_Forall (fun _ s => s = Anomaly) results) /\
  (get_anomaly_score results == 0 <-> map_Forall (fun _ s => s = Normal) results).
Proof.
  unfold get_anomaly_score, count_status. rewrite !map_Forall_status.
  destruct (bool_decide_reflect (results = ∅)) as [->|Hne].
  - rewrite map_to_list_empty. split; [lra|]. split.
    + split; [intros H; discriminate H | intros [H _]; congruence].
    + split; [constructor | reflexivity].
  - fold (cnt Anomaly (map_to_list results)) (cnt Warning (map_to_list results)).
    set (l := map_to_list results) in *.
    assert (Hl : l <> []) by (intros E; apply Hne, map_to_list_empty_iff, E).
    pose proof (cnt_anomaly_warning l) as Hc.
    set (a := cnt Anomaly l) in *. set (w := cnt Warning l) in *.
    set (A := inject_Z (Z.of_nat a)). set (W := inject_Z (Z.of_nat w)).
    set (N := inject_Z (Z.of_nat (length l))).
    assert (HA : 0 <= A) by apply QueriesProofs.inject_nat_nonneg.
    assert (HW : 0 <= W) by apply QueriesProofs.inject_nat_nonneg.
    assert (HN : 0 < N).
    { unfold N. change 0 with (inject_Z 0). rewrite <- Zlt_Qlt.
      destruct l; [congruence | simpl; lia]. }
    assert (HAW : A + W <= N).
    { unfold A, W, N. rewrite <- inject_Z_plus, <- Nat2Z.inj_add. apply inject_nat_le. exact Hc. }
    set (s := (A * 100 + W * 50) / N).
    assert (Hs : s * N == A * 100 + W * 50).
    { unfold s. field. intros E. rewrite E in HN. apply (Qlt_irrefl 0), HN. }
    assert (S0 : 0 <= s) by nra.
    assert (S1 : s <= 100) by nra.
    destruct (qmin_cases s 100) as [[E _]|[_ L]]; [|lra]. rewrite E.
    split; [lra|]. split.
    + rewrite <- cnt_all. fold a. split.
      * intros H. split; [exact Hne|]. apply inject_nat_eq. fold A N. nra.
      * intros [_ H]. apply inject_nat_eq in H. fold A N in H.
        assert (W0 : W == 0) by lra. unfold s. rewrite H, W0. field.
        intros E'. rewrite E' in HN. apply (Qlt_irrefl 0), HN.
    + rewrite <- cnt_none. fold a w. split.
      * intros H. assert (A0 : A == 0) by nra. assert (W0 : W == 0) by nra.
        split; apply inject_nat_eq; assumption.
      * intros [Ha Hw]. unfold s, A, W. rewrite Ha, Hw. simpl. reflexivity.
Qed.

Lemma calculate_thresholds_lookup (fac : ThresholdFactors) (m : Q)
    (baseline : gmap string Features) (axis : string) :
  calculate_thresholds fac m baseline !! axis = threshold_for fac m axis <$> baseline !! axis.
Proof.
  unfold calculate_thresholds. rewrite map_lookup_imap.
  destruct (baseline !! axis); reflexivity.
Qed.




Lemma raw_eval_ac_peak_above_critical (sqrt : Q -> Q) (rfft_power : list Q -> nat -> Q)
    (th : ThresholdSet) (v0 : Q) (vs : list Q) (sample_rate c : Q) (r : RawEval) :
  raw_eval_ac sqrt rfft_power th (v0 :: vs) sample_rate = Some r ->
  th_critical_peak th = Some c ->
  qlt c (qmax_list (Qabs v0) (map Qabs vs)) = true ->
  status_raw r = Anomaly.
Proof.
  intros H Hc Hp. unfold raw_eval_ac in H. cbv zeta in H.
  destruct (py_div _ _) as [ms|]; [|cbn in H; discriminate H].
  rewrite BaselineProofs.bind_some in H.
  destruct (if qlt 0 (sqrt ms) then _ else _) as [crest|]; [|cbn in H; discriminate H].
  rewrite BaselineProofs.bind_some in H.
  match type of H with
  | context [extreme_step ?c ?w ?x (extreme_step ?c' ?w' ?x' ?r1)] =>
      assert (H3 : status_raw (extreme_step c w x (extreme_step c' w' x' r1)) = Anomaly)
        by (apply DetectorProofs.extreme_step_anomaly; unfold extreme_step;
            rewrite Hc; unfold gt_or_inf; rewrite Hp; reflexivity);
      set (r3 := extreme_step c w x (extreme_step c' w' x' r1)) in H, H3;
      clearbody r3
  end.
  destruct (truthy (get0 (th_kurtosis_warning th)) || truthy (get0 (th_kurtosis_critical th))).
  - destruct (kurtosis _) as [kv|]; [|cbn in H; discriminate H].
    rewrite !BaselineProofs.bind_some in H.
    destruct ((truthy (get0 (th_hf_warning th)) || truthy (get0 (th_hf_critical th))) && qlt 0 sample_rate).
    + destruct (high_freq_energy _ _ _ _) as [hv|]; [|cbn in H; discriminate H].
      rewrite BaselineProofs.bind_some in H. injection H as <-.
      apply DetectorProofs.feature_step_anomaly, DetectorProofs.feature_step_anomaly, H3.
    + injection H as <-. apply DetectorProofs.feature_step_anomaly, H3.
  - rewrite BaselineProofs.bind_some in H.
    destruct ((truthy (get0 (th_hf_warning th)) || truthy (get0 (th_hf_critical th))) && qlt 0 sample_rate).
    + destruct (high_freq_energy _ _ _ _) as [hv|]; [|cbn in H; discriminate H].
      rewrite BaselineProofs.bind_some in H. injection H as <-.
      apply DetectorProofs.feature_step_anomaly, H3.
    + injection H as <-. exact H3.
Qed.

Lemma qabs_pos (v : Q) : ~ v == 0 -> 0 < Qabs v.
Proof.
  intros Hv. apply Qabs_case; intros H.
  - destruct (Qle_lteq 0 v) as [[L|E] _]; [exact H | exact L | exfalso; apply Hv; rewrite E; reflexivity].
  - destruct (Qle_lteq v 0) as [[L|E] _]; [exact H | lra | exfalso; apply Hv; exact E].
Qed.

(** X20: an axis of the nine AC axes whose baseline [peak] is [0] or missing
    gets a [critical_peak] threshold of [0]; then, on the RMS path of
    [detect_anomaly], every window holding a non-zero value is evaluated as
    an anomaly, whatever its RMS, crest factor, kurtosis or
    high-frequency energy. *)
Theorem zero_peak_baseline_flags_any_motion (sqrt : Q -> Q) (rfft_power : list Q -> nat -> Q)
    (fac : ThresholdFactors) (m : Q) (baseline : gmap string Features) (axis : string)
    (f : Features) :
  baseline !! axis = Some f -> axis ∈ ac_axes -> fget f "peak" == 0 ->
  exists th, calculate_thresholds fac m baseline !! axis = Some th /\
    forall current_val window_vals sample_rate r,
      raw_eval sqrt rfft_power th true current_val window_vals sample_rate = Some r ->
      List.Exists (fun v => ~ v == 0) window_vals ->
      status_raw r = Anomaly.
Proof.
  intros Hb Hac Hpk. exists (threshold_for fac m axis f).
  rewrite calculate_thresholds_lookup, Hb. split; [reflexivity|].
  assert (Hm : th_method (threshold_for fac m axis f) = "rms_factor").
  { unfold threshold_for. rewrite (bool_decide_eq_true_2 _ Hac). reflexivity. }
  assert (Hcp : th_critical_peak (threshold_for fac m axis f) =
                Some (fget f "peak" * critical_peak_factor fac)).
  { unfold threshold_for. rewrite (bool_decide_eq_true_2 _ Hac). reflexivity. }
  remember (threshold_for fac m axis f) as th eqn:Eth. clear Eth.
  intros cur w sr r Hr Hex.
  destruct w as [|v0 vs]; [inversion Hex|].
  unfold raw_eval in Hr. rewrite Hm, String.eqb_refl in Hr. cbn [andb negb] in Hr.
  eapply raw_eval_ac_peak_above_critical; [exact Hr | exact Hcp |].
  apply BaselineProofs.qlt_true_of_lt.
  apply List.Exists_exists in Hex as (v & Hin & Hv).
  pose proof (qabs_pos v Hv) as Hpos.
  assert (Hle : Qabs v <= qmax_list (Qabs v0) (map Qabs vs)).
  { destruct Hin as [<-|Hin].
    - apply (proj1 (QueriesProofs.qmax_list_bounds _ _)).
    - apply (proj2 (QueriesProofs.qmax_list_bounds _ _)), in_map, Hin. }
  rewrite Hpk, Qmult_0_l. lra.
Qed.

Lemma zero_peak_baseline_flags_any_motion_witness :
  let f := ({[ "rms" := 1 ]} : Features) in
  let b := {[ "ax" := f ]} in
  b !! "ax" = Some f /\ "ax" ∈ ac_axes /\ fget f "peak" == 0 /\
  exists th, calculate_thresholds default_factors 2 b !! "ax" = Some th /\
    forall current_val window_vals sample_rate r,
      raw_eval Qabs (fun _ _ => 0) th true current_val window_vals sample_rate = Some r ->
      List.Exists (fun v => ~ v == 0) window_vals ->
      status_raw r = Anomaly.
Proof.
  intros f b.
  assert (Hb : b !! "ax" = Some f) by reflexivity.
  assert (Hac : "ax" ∈ ac_axes) by (unfold ac_axes; set_solver).
  assert (Hp : fget f "peak" == 0) by reflexivity.
  split; [exact Hb|]. split; [exact Hac|]. split; [exact Hp|].
  exact (zero_peak_baseline_flags_any_motion Qabs (fun _ _ => 0) default_factors 2 b "ax" f
           Hb Hac Hp).
Defined.

(** X21: [get_anomaly_history(limit)] returns the whole history for
    [limit = 0] (Python's [[-0:]]), the last [limit] entries for a
    positive limit, and drops the first [-limit] entries for a negative
    one; after [record_anomaly], a positive limit returns a list ending
    with the recorded entry. *)
Theorem get_anomaly_history_spec (history : list HistoryEntry) (e : HistoryEntry) (limit : Z) :
  get_anomaly_history history 0 = history /\
  ((0 < limit)%Z ->
     get_anomaly_history history limit = skipn (length history - Z.to_nat limit) history) /\
  ((limit < 0)%Z -> get_anomaly_history history limit = skipn (Z.to_nat (- limit)) history) /\
  ((0 < limit)%Z -> exists pre, get_anomaly_history (record_anomaly history e) limit = (pre ++ [e])%list).
Proof.
  unfold get_anomaly_history, py_slice_from. split; [|split; [|split]].
  - replace (Z.to_nat _) with 0%nat by (destruct (Z.ltb_spec (- 0) 0); lia). reflexivity.
  - intros L. destruct (Z.ltb_spec (- limit) 0); [|lia]. f_equal. lia.
  - intros L. destruct (Z.ltb_spec (- limit) 0); [lia|].
    destruct (Z.le_gt_cases (- limit) (Z.of_nat (length history))).
    + f_equal. lia.
    + rewrite !skipn_all2 by lia. reflexivity.
  - intros L. unfold record_anomaly. destruct (Z.ltb_spec (- limit) 0); [|lia].
    rewrite length_app. simpl length.
    set (k := Z.to_nat (Z.max 0 (- limit + Z.of_nat (length history + 1)))).
    assert (Hk : (k <= length history)%nat) by (unfold k; lia).
    rewrite skipn_app. replace (k - length history)%nat with 0%nat by lia.
    exists (skipn k history). reflexivity.
Qed.

End ThresholdsProofs.

Module AnalysisProofs.
Import Buffer Baseline Detector.
Local Open Scope Q_scope.
Local Open Scope string_scope.
Local Arguments qsum : simpl never.
Local Arguments qlen : simpl never.
Local Arguments py_div : simpl never.

Lemma qsum_cons (a : Q) (l : list Q) : qsum (a :: l) = a + qsum l.
Proof. reflexivity. Qed.

Lemma qsum_nil : qsum [] = 0.
Proof. reflexivity. Qed.

Lemma qlen_nil {A} : qlen (@nil A) = 0.
Proof. reflexivity. Qed.

Lemma qsum_map_ext (f g : Q -> Q) (l : list Q) :
  (forall x, f x == g x) -> qsum (map f l) == qsum (map g l).
Proof.
  intros H. induction l as [|a l IH]; [reflexivity|].
  cbn [map]. rewrite !qsum_cons, H, IH. reflexivity.
Qed.

Lemma qsq_nonneg (c : Q) : 0 <= c * c.
Proof.
  destruct (Qlt_le_dec c 0) as [H|H].
  - assert (E : c * c == (- c) * (- c)) by ring. rewrite E.
    apply Qmult_le_0_compat; lra.
  - apply Qmult_le_0_compat; lra.
Qed.

Lemma qsum_sq_aux (a : list Q) (x : Q) :
  2 * x * qsum a <= qsum (map (fun y => y * y) a) + qlen a * (x * x).
Proof.
  induction a as [|b a IH].
  - unfold qsum, qlen; cbn [map fold_right length].
    change (inject_Z (Z.of_nat 0)) with 0. lra.
  - cbn [map]. rewrite !qsum_cons, QueriesProofs.qlen_cons.
    pose proof (qsq_nonneg (b - x)). nra.
Qed.

(** Cauchy-Schwarz for sums: [(sum a)^2 <= n * sum a^2]. *)
Lemma qsum_cauchy (a : list Q) :
  qsum a * qsum a <= qlen a * qsum (map (fun y => y * y) a).
Proof.
  induction a as [|b a IH].
  - unfold qsum, qlen; cbn [map fold_right length].
    change (inject_Z (Z.of_nat 0)) with 0. lra.
  - cbn [map]. rewrite !qsum_cons, QueriesProofs.qlen_cons.
    pose proof (qsum_sq_aux a b). nra.
Qed.

(** The fourth central moment over the squared variance is at least one. *)
Lemma kurt_core (l : list Q) (mean : Q) :
  l <> [] ->
  ~ qsum (map (fun x => (x - mean) * (x - mean)) l) / qlen l == 0 ->
  1 <= qsum (map (fun x => let d := x - mean in d * d * d * d) l) / qlen l /
       (qsum (map (fun x => (x - mean) * (x - mean)) l) / qlen l *
        (qsum (map (fun x => (x - mean) * (x - mean)) l) / qlen l)).
Proof.
  intros Hl Hv.
  set (a := map (fun x => (x - mean) * (x - mean)) l) in *.
  assert (HN : 0 < qlen l).
  { destruct l as [|y l]; [congruence|].
    pose proof (BaselineProofs.qlen_cons_nonzero y l).
    pose proof (QueriesProofs.qlen_nonneg (y :: l)). lra. }
  assert (HS4 : qsum (map (fun x => let d := x - mean in d * d * d * d) l)
                == qsum (map (fun y => y * y) a)).
  { unfold a. rewrite map_map. apply qsum_map_ext. intros x. cbv zeta. ring. }
  assert (HLa : qlen a = qlen l) by (unfold a, qlen; rewrite length_map; reflexivity).
  pose proof (qsum_cauchy a) as HCS. rewrite HLa, <- HS4 in HCS.
  set (S2 := qsum a) in *.
  set (S4 := qsum (map (fun x => let d := x - mean in d * d * d * d) l)) in *.
  set (N := qlen l) in *.
  set (v := S2 / N) in *.
  assert (HvN : v * N == S2) by (unfold v; field; lra).
  assert (Hvv : 0 < v * v).
  { destruct (Qlt_le_dec 0 v); [nra|].
    destruct (Qle_lt_or_eq _ _ q) as [Hn|He]; [nra|].
    exfalso. apply Hv. rewrite He. reflexivity. }
  apply Qle_shift_div_l; [exact Hvv|]. rewrite Qmult_1_l.
  apply (Qmult_le_l _ _ (N * N)); [nra|].
  assert (E1 : N * N * (v * v) == S2 * S2) by (rewrite <- HvN; ring).
  assert (E2 : N * N * (S4 / N) == N * S4) by (field; lra).
  rewrite E1, E2. exact HCS.
Qed.

Lemma qeq_bool_false (v : Q) : Qeq_bool v 0 = false -> ~ v == 0.
Proof. intros E H. apply Qeq_bool_iff in H. congruence. Qed.

Lemma qlen_map {A B} (f : A -> B) (l : list A) : qlen (map f l) = qlen l.
Proof. unfold qlen. rewrite length_map. reflexivity. Qed.

Lemma qlt_pos_sq (v : Q) : qlt 0 v = true -> ~ v * v == 0.
Proof.
  intros H E. apply BaselineProofs.qlt_true in H.
  assert (0 < v * v) by (apply Qmult_lt_0_compat; exact H). lra.
Qed.

Lemma qlt_pos_nonzero (v : Q) : qlt 0 v = true -> ~ v == 0.
Proof. intros H E. apply BaselineProofs.qlt_true in H. lra. Qed.

(** X22: [AnomalyDetector._kurtosis] never raises, and returns either [0]
    (empty window or zero variance) or a value of at least [1]. *)
Theorem kurtosis_range (values : list Q) :
  exists k, kurtosis values = Some k /\ (k = 0 \/ 1 <= k).
Proof.
  destruct values as [|v0 vs]; [exists 0; split; [reflexivity | left; reflexivity]|].
  unfold kurtosis. rewrite BaselineProofs.np_mean_cons, BaselineProofs.bind_some.
  unfold np_var. rewrite BaselineProofs.np_mean_cons, BaselineProofs.bind_some.
  rewrite BaselineProofs.py_div_nonzero by apply BaselineProofs.qlen_cons_nonzero.
  rewrite BaselineProofs.bind_some.
  destruct (Qeq_bool _ 0) eqn:E; [exists 0; split; [reflexivity | left; reflexivity]|].
  apply qeq_bool_false in E.
  unfold np_mean at 1.
  rewrite qlen_map, BaselineProofs.py_div_nonzero by apply BaselineProofs.qlen_cons_nonzero.
  rewrite BaselineProofs.bind_some, BaselineProofs.py_div_nonzero.
  - eexists. split; [reflexivity|]. right. apply kurt_core; [discriminate | exact E].
  - intros H. apply Qmult_integral in H. destruct H; contradiction.
Qed.

Lemma features_cons_detail (sqrt : Q -> Q) (v0 : Q) (vs : list Q) :
  exists ms v crest kurt,
    calculate_time_domain_features sqrt (v0 :: vs) =
    Some (list_to_map [("rms", sqrt ms); ("peak", qmax_list (Qabs v0) (map Qabs vs));
                       ("mean", qsum (v0 :: vs) / qlen (v0 :: vs)); ("std", sqrt v);
                       ("min", qmin_list v0 vs); ("max", qmax_list v0 vs);
                       ("crest_factor", crest); ("kurtosis", kurt)]) /\
    (kurt = 0 \/ 1 <= kurt).
Proof.
  unfold calculate_time_domain_features.
  rewrite BaselineProofs.py_div_nonzero by apply BaselineProofs.qlen_cons_nonzero.
  rewrite BaselineProofs.bind_some, BaselineProofs.np_mean_cons, BaselineProofs.bind_some.
  unfold np_var. rewrite BaselineProofs.np_mean_cons, BaselineProofs.bind_some.
  rewrite (BaselineProofs.py_div_nonzero (qsum (map (fun x => (x - _) * (x - _)) _)))
    by apply BaselineProofs.qlen_cons_nonzero.
  rewrite BaselineProofs.bind_some. cbv zeta.
  set (ms := qsum (map (fun x => x * x) (v0 :: vs)) / qlen (v0 :: vs)).
  set (m := qsum (v0 :: vs) / qlen (v0 :: vs)).
  set (v := qsum (map (fun x => (x - m) * (x - m)) (v0 :: vs)) / qlen (v0 :: vs)).
  destruct (qlt 0 (sqrt ms)) eqn:Hr;
    [rewrite (BaselineProofs.py_div_nonzero _ (sqrt ms)) by (apply qlt_pos_nonzero; exact Hr)|];
    rewrite BaselineProofs.bind_some;
    (destruct (qlt 0 v) eqn:Hq;
     [rewrite (BaselineProofs.py_div_nonzero _ (qlen (v0 :: vs)))
        by apply BaselineProofs.qlen_cons_nonzero;
      rewrite BaselineProofs.bind_some;
      rewrite (BaselineProofs.py_div_nonzero _ (v * v)) by (apply qlt_pos_sq; exact Hq);
      rewrite BaselineProofs.bind_some|rewrite BaselineProofs.bind_some]);
    (eexists ms, v, _, _; split; [reflexivity|]);
    first [left; reflexivity
          | right; apply kurt_core; [discriminate | apply qlt_pos_nonzero; exact Hq]].
Qed.

Lemma qmax_abs_bound (v0 : Q) (vs : list Q) (y : Q) :
  In y (v0 :: vs) -> Qabs y <= qmax_list (Qabs v0) (map Qabs vs).
Proof.
  intros Hy. destruct (QueriesProofs.qmax_list_bounds (Qabs v0) (map Qabs vs)) as [H1 H2].
  destruct Hy as [<-|Hy]; [exact H1|]. apply H2, in_map, Hy.
Qed.

(** X23: on a non-empty list, [calculate_time_domain_features] returns a
    record whose [min] and [max] are values of the list bounding every
    value and the mean, whose [peak] is at least [|min|] and [|max|], and
    whose [kurtosis] is [0] or at least [1]. *)
Theorem features_bounds (sqrt : Q -> Q) (v0 : Q) (vs : list Q) :
  exists f mn mx mean pk k,
    calculate_time_domain_features sqrt (v0 :: vs) = Some f /\
    f !! "min" = Some mn /\ f !! "max" = Some mx /\ f !! "mean" = Some mean /\
    f !! "peak" = Some pk /\ f !! "kurtosis" = Some k /\
    In mn (v0 :: vs) /\ In mx (v0 :: vs) /\
    (forall y, In y (v0 :: vs) -> mn <= y <= mx) /\
    mn <= mean <= mx /\ Qabs mn <= pk /\ Qabs mx <= pk /\ (k = 0 \/ 1 <= k).
Proof.
  destruct (features_cons_detail sqrt v0 vs) as (ms & v & c & k & Hf & Hk).
  destruct (QueriesProofs.qmin_list_bounds v0 vs) as [Hn1 Hn2].
  destruct (QueriesProofs.qmax_list_bounds v0 vs) as [Hx1 Hx2].
  assert (Hb : forall y, In y (v0 :: vs) -> qmin_list v0 vs <= y <= qmax_list v0 vs).
  { intros y [<-|Hy]; split; auto. }
  assert (HN : 0 < qlen (v0 :: vs)).
  { pose proof (BaselineProofs.qlen_cons_nonzero v0 vs).
    pose proof (QueriesProofs.qlen_nonneg (v0 :: vs)). lra. }
  destruct (QueriesProofs.qsum_bounds _ _ (v0 :: vs) Hb) as [Hs1 Hs2].
  eexists _, (qmin_list v0 vs), (qmax_list v0 vs), (qsum (v0 :: vs) / qlen (v0 :: vs)),
    (qmax_list (Qabs v0) (map Qabs vs)), k.
  split; [exact Hf|].
  split; [simpl; simplify_map_eq; reflexivity|].
  split; [simpl; simplify_map_eq; reflexivity|].
  split; [simpl; simplify_map_eq; reflexivity|].
  split; [simpl; simplify_map_eq; reflexivity|].
  split; [simpl; simplify_map_eq; reflexivity|].
  split; [apply QueriesProofs.qmin_list_in|].
  split; [apply QueriesProofs.qmax_list_in|].
  split; [exact Hb|].
  split; [split|].
  - apply Qle_shift_div_l; [exact HN|]. rewrite Qmult_comm. exact Hs1.
  - apply Qle_shift_div_r; [exact HN|]. rewrite Qmult_comm. exact Hs2.
  - split; [apply qmax_abs_bound, QueriesProofs.qmin_list_in|].
    split; [apply qmax_abs_bound, QueriesProofs.qmax_list_in|].
    exact Hk.
Qed.

Lemma kurtosis_some (values : list Q) : exists k, kurtosis values = Some k.
Proof.
  destruct values as [|v0 vs]; [eexists; reflexivity|].
  unfold kurtosis. rewrite BaselineProofs.np_mean_cons, BaselineProofs.bind_some.
  destruct (BaselineProofs.np_var_cons v0 vs) as [v Hv].
  rewrite Hv, BaselineProofs.bind_some.
  destruct (Qeq_bool v 0) eqn:E; [eexists; reflexivity|].
  apply qeq_bool_false in E.
  unfold np_mean at 1.
  rewrite qlen_map, BaselineProofs.py_div_nonzero by apply BaselineProofs.qlen_cons_nonzero.
  rewrite BaselineProofs.bind_some, BaselineProofs.py_div_nonzero; [eexists; reflexivity|].
  intros H. apply Qmult_integral in H. destruct H; contradiction.
Qed.

Lemma raw_eval_ac_some (sqrt : Q -> Q) (rfft_power : list Q -> nat -> Q)
    (th : ThresholdSet) (v0 : Q) (vs : list Q) (sample_rate : Q) :
  exists r, raw_eval_ac sqrt rfft_power th (v0 :: vs) sample_rate = Some r.
Proof.
  unfold raw_eval_ac.
  rewrite BaselineProofs.py_div_nonzero by apply BaselineProofs.qlen_cons_nonzero.
  rewrite BaselineProofs.bind_some. cbv zeta.
  set (ms := qsum (map (fun x => x * x) (v0 :: vs)) / qlen (v0 :: vs)).
  destruct (qlt 0 (sqrt ms)) eqn:Hr;
    [rewrite (BaselineProofs.py_div_nonzero _ (sqrt ms)) by (apply qlt_pos_nonzero; exact Hr)|];
    rewrite BaselineProofs.bind_some;
    (destruct (truthy (get0 (th_kurtosis_warning th)) || truthy (get0 (th_kurtosis_critical th)));
     [destruct (kurtosis_some (v0 :: vs)) as [kv Hkv]; rewrite Hkv|]);
    rewrite BaselineProofs.bind_some;
    (destruct ((truthy (get0 (th_hf_warning th)) || truthy (get0 (th_hf_critical th)))
               && qlt 0 sample_rate);
     [destruct (BaselineProofs.high_freq_energy_some rfft_power (v0 :: vs) sample_rate 2000)
        as [h Hh]; rewrite Hh, BaselineProofs.bind_some|]);
    eexists; reflexivity.
Qed.

Lemma detect_axis_some (sqrt : Q -> Q) (rfft_power : list Q -> nat -> Q)
    (cfg : DetectorConfig) (th : ThresholdSet) (use_rms : bool) (current_val : Q)
    (window_vals : list Q) (sample_rate : Q) (tracker : Tracker) :
  exists p, detect_axis sqrt rfft_power cfg th use_rms current_val window_vals sample_rate
              tracker = Some p.
Proof.
  unfold detect_axis, raw_eval.
  destruct (_ && _ && _) eqn:G; [|eexists; reflexivity].
  destruct window_vals as [|v0 vs].
  - apply andb_prop in G as [_ G]. simpl in G. discriminate G.
  - destruct (raw_eval_ac_some sqrt rfft_power th v0 vs sample_rate) as [r Hr].
    rewrite Hr. eexists; reflexivity.
Qed.

Lemma detect_fold_spec (sqrt : Q -> Q) (rfft_power : list Q -> nat -> Q)
    (cfg : DetectorConfig) (thresholds : gmap string ThresholdSet)
    (current_data : SensorData) (window : list SensorData) (use_rms : bool)
    (sample_rate : Q) (l : list (string * (SensorData -> Q)))
    (res : gmap string Status) (trs : gmap string Tracker) :
  exists res' trs',
    fold_left
      (fun acc (a : string * (SensorData -> Q)) =>
         '(results, trackers) ← acc;
         match thresholds !! fst a with
         | None => Some (results, trackers)
         | Some th =>
             let tracker := default default_tracker (trackers !! fst a) in
             '(status, tracker') ←
               detect_axis sqrt rfft_power cfg th use_rms (snd a current_data)
                           (map (snd a) window) sample_rate tracker;
             Some (<[fst a := status]> results, <[fst a := tracker']> trackers)
         end)
      l (Some (res, trs)) = Some (res', trs') /\
    (forall k, is_Some (res' !! k) <->
               is_Some (res !! k) \/ (In k (map fst l) /\ is_Some (thresholds !! k))) /\
    (forall k, ~ (In k (map fst l) /\ is_Some (thresholds !! k)) -> trs' !! k = trs !! k) /\
    (forall k, In k (map fst l) -> is_Some (thresholds !! k) -> is_Some (trs' !! k)).
Proof.
  revert res trs. induction l as [|[name g] l IH]; intros res trs.
  - exists res, trs. cbn [fold_left map In].
    split; [reflexivity|]. split; [intros k; tauto|].
    split; [reflexivity | intros k []].
  - cbn [fold_left map fst snd]. rewrite BaselineProofs.bind_some. cbv beta iota.
    destruct (thresholds !! name) as [th|] eqn:Hth.
    + destruct (detect_axis_some sqrt rfft_power cfg th use_rms (g current_data)
                  (map g window) sample_rate (default default_tracker (trs !! name)))
        as [[st t'] Ht].
      rewrite Ht, BaselineProofs.bind_some. cbv beta iota.
      destruct (IH (<[name:=st]> res) (<[name:=t']> trs))
        as (res' & trs' & Hf & H1 & H2 & H3).
      exists res', trs'. split; [exact Hf|]. split; [|split].
      * intros k. rewrite H1. destruct (decide (name = k)) as [<-|Hne].
        { rewrite lookup_insert_eq, Hth. split; [|intros _; left; eexists; reflexivity].
          intros _. right. split; [left; reflexivity | eexists; reflexivity]. }
        rewrite lookup_insert_ne by exact Hne. cbn [In]. tauto.
      * intros k Hk. assert (Hne : name <> k).
        { intros <-. apply Hk. split; [left; reflexivity | rewrite Hth; eexists; reflexivity]. }
        rewrite H2 by (cbn [In] in Hk; tauto).
        apply lookup_insert_ne. exact Hne.
      * intros k Hk Hs. destruct (in_dec String.string_dec k (map fst l)) as [Hi|Hi];
          [apply H3; assumption|].
        destruct Hk as [<-|Hk]; [|contradiction].
        rewrite H2 by tauto. rewrite lookup_insert_eq. eexists; reflexivity.
    + destruct (IH res trs) as (res' & trs' & Hf & H1 & H2 & H3).
      exists res', trs'. split; [exact Hf|]. split; [|split].
      * intros k. rewrite H1. destruct (decide (name = k)) as [<-|Hne].
        { rewrite Hth. split; [intros [Ha|[_ Hb]]; [left; exact Ha | destruct Hb; discriminate]|].
          intros [Ha|[_ Hb]]; [left; exact Ha | destruct Hb; discriminate]. }
        cbn [In]. tauto.
      * intros k Hk. apply H2. cbn [In] in Hk. tauto.
      * intros k Hk Hs. destruct Hk as [<-|Hk]; [rewrite Hth in Hs; destruct Hs; discriminate|].
        apply H3; assumption.
Qed.

(** X24: [AnomalyDetector.detect_anomaly] never raises: it returns a result
    for exactly the axes of [axes] that have thresholds, keeps a tracker for
    each of them, and leaves the tracker of every other key unchanged. *)
Theorem detect_anomaly_total_domain (sqrt : Q -> Q) (rfft_power : list Q -> nat -> Q)
    (cfg : DetectorConfig) (thresholds : gmap string ThresholdSet)
    (st : gmap string Tracker) (current_data : SensorData)
    (window_data : list SensorData) (use_rms : bool) :
  exists results st',
    detect_anomaly sqrt rfft_power cfg thresholds st current_data window_data use_rms
      = Some (results, st') /\
    (forall k, is_Some (results !! k) <-> In k (map fst axes) /\ is_Some (thresholds !! k)) /\
    (forall k, is_Some (results !! k) -> is_Some (st' !! k)) /\
    (forall k, ~ (In k (map fst axes) /\ is_Some (thresholds !! k)) -> st' !! k = st !! k).
Proof.
  unfold detect_anomaly.
  destruct (bool_decide_reflect (thresholds = ∅)) as [->|Hne].
  - exists ∅, st. split; [reflexivity|].
    split; [|split].
    + intros k. rewrite !lookup_empty. split; [intros [? Hx]; discriminate|].
      intros [_ [? Hx]]; discriminate.
    + intros k [? Hx]. rewrite lookup_empty in Hx. discriminate.
    + reflexivity.
  - assert (Hsr : exists sr, (match filter_window cfg window_data with
                              | [] => Some 0
                              | _ => compute_sample_rate (map timestamp (filter_window cfg window_data))
                              end) = Some sr).
    { destruct (filter_window cfg window_data) as [|d ds]; [eexists; reflexivity|].
      rewrite BaselineProofs.compute_sample_rate_window. eexists; reflexivity. }
    destruct Hsr as [sr Hsr]. rewrite Hsr, BaselineProofs.bind_some.
    destruct (detect_fold_spec sqrt rfft_power cfg thresholds current_data
                (filter_window cfg window_data) use_rms sr axes ∅ st)
      as (res' & trs' & Hf & H1 & H2 & H3).
    exists res', trs'. split; [exact Hf|]. split; [|split].
    + intros k. rewrite H1, lookup_empty. split; [intros [[? Hx]|H]; [discriminate | exact H]|].
      intros H; right; exact H.
    + intros k Hk. apply H1 in Hk. rewrite lookup_empty in Hk.
      destruct Hk as [[? Hx]|[Ha Hb]]; [discriminate | apply H3; assumption].
    + exact H2.
Qed.

Lemma inject_succ_pos (m : nat) : 0 < inject_Z (Z.of_nat (S m)).
Proof. change 0 with (inject_Z 0). rewrite <- Zlt_Qlt. lia. Qed.

(** X25: on [n >= 2] timestamps evenly spaced [dt > 0] apart,
    [BaselineCalculator._compute_sample_rate] returns [1 / dt]: it divides
    the [n - 1] intervals, not the [n] samples, by the time span. *)
Theorem compute_sample_rate_regular (t0 dt : Q) (n : nat) :
  (2 <= n)%nat -> 0 < dt ->
  exists r,
    compute_sample_rate (map (fun i => t0 + inject_Z (Z.of_nat i) * dt) (seq 0 n)) = Some r /\
    r == 1 / dt.
Proof.
  intros Hn Hdt. destruct n as [|[|m]]; [lia | lia|].
  set (f := fun i => t0 + inject_Z (Z.of_nat i) * dt).
  assert (HL : List.last (map f (seq 0 (S (S m)))) (f 0%nat) = f (S m)).
  { rewrite seq_S, map_app. cbn [map]. rewrite last_last. reflexivity. }
  assert (Hd : f (S m) - f 0%nat == inject_Z (Z.of_nat (S m)) * dt).
  { unfold f. change (inject_Z (Z.of_nat 0)) with 0. ring. }
  pose proof (inject_succ_pos m) as HN.
  assert (Hpos : 0 < f (S m) - f 0%nat) by (rewrite Hd; apply Qmult_lt_0_compat; assumption).
  unfold compute_sample_rate.
  change (map f (seq 0 (S (S m)))) with (f 0%nat :: f 1%nat :: map f (seq 2 m)) in *.
  cbv beta iota zeta. rewrite HL.
  destruct (Qle_bool (f (S m)) (f 0%nat)) eqn:E.
  { apply Qle_bool_iff in E. lra. }
  cbn [length]. rewrite length_map, length_seq.
  replace (S (S m) - 1)%nat with (S m) by lia.
  rewrite BaselineProofs.py_div_nonzero by lra.
  eexists. split; [reflexivity|].
  rewrite Hd. field. split; lra.
Qed.

Lemma compute_sample_rate_regular_witness :
  (2 <= 3)%nat /\ 0 < 1 # 10 /\
  exists r,
    compute_sample_rate (map (fun i => 0 + inject_Z (Z.of_nat i) * (1 # 10)) (seq 0 3)) = Some r /\
    r == 1 / (1 # 10).
Proof.
  assert (H1 : (2 <= 3)%nat) by lia.
  assert (H2 : 0 < 1 # 10) by (vm_compute; reflexivity).
  split; [exact H1|]. split; [exact H2|].
  exact (compute_sample_rate_regular 0 (1 # 10) 3 H1 H2).
Defined.

End AnalysisProofs.
